(** * Payment ledger and transaction state machine

    A shallow embedding of the payment core of the services prototype:
    [LedgerManager] (all SQL against the two relations of [schema.sql]),
    [PaymentProcessor] (the gateway to the external rail),
    [PaymentService] (the orchestrator: [processTransaction] and
    [processRefund]), the life cycle that [PaymentService] inherits from
    [BaseService], and the REST handlers of [PaymentApiRoutes].

    Conventions of the embedding.
    - Money ([amount], [balance]) is the DECIMAL(19,4) value of the schema,
      held as an integer number of ten-thousandths: 49.99 is [499900].
    - An [async] method is a computation in the monad [M]: it reads and
      writes the [World] (the two tables, the gateway call log, the emitted
      events) and either returns a value or throws.  What was written
      before a throw stays written: the code opens no SQL transaction.
    - [db.query] is given the meaning of its SQL text under the constraints
      of [schema.sql] (primary keys, [unique_owner_currency],
      [positive_balance], [positive_amount], [different_parties]); a
      statement that violates one throws and changes nothing.
    - The store computes on integers: an amount finer than a
      ten-thousandth, which a DECIMAL(19,4) column rounds on assignment,
      has no counterpart in the embedding, and the overflow of a column is
      not modelled; [fits_decimal] marks the range where it matters.
    - ORDER BY created_at DESC is a stable sort of the table: rows created
      at the same time stay in table order, where SQL leaves their order
      open; [answers_listing] is the reading that leaves it open.
    - [Date.now()], [Math.random()] and [new Date()] are read from an
      environment [Env], indexed by a counter kept in the world.  The
      counter advances when an id, a reference or a random number is
      drawn: the reads of [new Date()] between two draws see one time.
    - The triggers of [schema.sql] that set [updated_at] on every UPDATE
      are not modelled: a stored row keeps the [updatedAt] that the
      statement passes, which is the one of the object the code returns. *)

From Stdlib Require Import ZArith List String Bool Lia QArith DecimalString.
From Stdlib Require Import Sorted Permutation.
Import ListNotations.
Close Scope Q_scope.
Local Open Scope string_scope.
Local Open Scope Z_scope.

(** ** types.ts *)

Inductive Currency := USD | EUR | GBP | CAD | AUD.

Inductive TransactionStatus :=
  pending | processing | completed | failed | refunded | cancelled.

Inductive AccountType := user | platform | escrow | merchant.

Inductive PaymentMethod :=
  credit_card | debit_card | bank_transfer | paypal_method | stripe_method
| apple_pay | google_pay.

Inductive AccountStatus := active | suspended | closed.

Definition SELF_ENTITY : string := "__SELF__".

Definition Currency_eqb (a b : Currency) : bool :=
  match a, b with
  | USD, USD | EUR, EUR | GBP, GBP | CAD, CAD | AUD, AUD => true
  | _, _ => false
  end.

Definition TransactionStatus_eqb (a b : TransactionStatus) : bool :=
  match a, b with
  | pending, pending | processing, processing | completed, completed
  | failed, failed | refunded, refunded | cancelled, cancelled => true
  | _, _ => false
  end.

(** The metadata object of a transaction.  The first six fields are those of
    the interface [TransactionMetadata]; the last three are the keys the
    service itself writes into the object. *)
Record TransactionMetadata := mkMetadata {
  description : option string;
  orderId : option string;
  invoiceId : option string;
  category : option string;
  tags : list string;
  customFields : list (string * string);
  reason : option string;
  originalTransactionId : option string;
  idempotencyKey : option string
}.

Definition empty_metadata : TransactionMetadata :=
  mkMetadata None None None None [] [] None None None.

Module Transaction.
Record t := mk {
  id : string;
  payerId : string;
  payeeId : string;
  amount : Z;
  currency : Currency;
  status : TransactionStatus;
  paymentMethod : option PaymentMethod;
  processorReference : option string;
  metadata : TransactionMetadata;
  createdAt : Z;
  updatedAt : Z;
  completedAt : option Z
}.
End Transaction.

Module Account.
Record t := mk {
  id : string;
  ownerId : string;
  type : AccountType;
  balance : Z;
  currency : Currency;
  status : AccountStatus;
  createdAt : Z;
  updatedAt : Z
}.
End Account.

(** [provider] is a union of four string literals; [other_provider] stands
    for any other string met at run time, which the [default:] branches of
    the processor handle. *)
Inductive Provider :=
  stripe | paypal | square | mock | other_provider (name : string).

Record PaymentProcessorConfig := mkProcessorConfig {
  provider : Provider;
  apiKey : string;
  testMode : option bool
}.

Record PaymentServiceConfig := mkConfig {
  processor : PaymentProcessorConfig;
  defaultCurrency : Currency;
  minTransactionAmount : option Z;
  maxTransactionAmount : option Z;
  refundsEnabled : option bool
}.

Record ProcessTransactionRequest := mkRequest {
  req_payerId : string;
  req_payeeId : string;
  req_amount : Z;
  req_currency : option Currency;
  req_paymentMethod : option PaymentMethod;
  req_metadata : option TransactionMetadata;
  req_idempotencyKey : option string
}.

Record ErrorInfo := mkErrorInfo { code : string; message : string }.

Record TransactionResult := mkResult {
  success : bool;
  transaction : option Transaction.t;
  error : option ErrorInfo
}.

Record RefundRequest := mkRefundRequest {
  transactionId : string;
  refund_amount : option Z;
  refund_reason : option string
}.

Record ChargeResult := mkChargeResult {
  charge_success : bool;
  charge_reference : option string;
  charge_error : option string
}.

Record RefundResult := mkRefundResult {
  refund_success : bool;
  refund_error : option string
}.

(** ** JavaScript truthiness of the optional values the code tests *)

Definition truthy_string (s : option string) : bool :=
  match s with
  | Some s => negb (s =? "")%string
  | None => false
  end.

Definition truthy_number (n : option Z) : bool :=
  match n with
  | Some n => negb (n =? 0)
  | None => false
  end.

Definition truthy_bool (b : option bool) : bool :=
  match b with
  | Some b => b
  | None => false
  end.

(** [a === b] on two values that are each a string or [undefined]: two
    missing values are equal, a missing value and a string are not. *)
Definition strict_eq (a b : option string) : bool :=
  match a, b with
  | Some x, Some y => (x =? y)%string
  | None, None => true
  | _, _ => false
  end.

(** [a || b] on an optional string. *)
Definition or_string (a : option string) (b : string) : string :=
  match a with
  | Some s => if (s =? "")%string then b else s
  | None => b
  end.

(** The text of an amount inside a template literal: the decimal numeral
    of the number, without trailing zeros. *)
Definition render_digit (n : Z) : string :=
  String (Ascii.ascii_of_nat (48 + Z.to_nat n)) "".

Definition render_fraction (r : Z) : string :=
  if r =? 0 then ""
  else "." ++ render_digit (r / 1000)
       ++ (if r mod 1000 =? 0 then ""
           else render_digit (r / 100 mod 10)
                ++ (if r mod 100 =? 0 then ""
                    else render_digit (r / 10 mod 10)
                         ++ (if r mod 10 =? 0 then ""
                             else render_digit (r mod 10)))).

Definition render_amount (z : Z) : string :=
  (if z <? 0 then "-" else "")
  ++ NilZero.string_of_uint (N.to_uint (Z.to_N (Z.abs z / 10000)))
  ++ render_fraction (Z.abs z mod 10000).

(** ** World, environment and the monad of async methods *)

Inductive Constraint :=
  accounts_pkey | positive_balance | unique_owner_currency
| transactions_pkey | positive_amount | different_parties.

(** A thrown value: [new Error(msg)] of the code, or the error with which
    [db.query] rejects a statement that violates a constraint. *)
Inductive Error :=
| JsError (msg : string)
| DbError (c : Constraint).

Definition constraint_name (c : Constraint) : string :=
  match c with
  | accounts_pkey => "accounts_pkey"
  | positive_balance => "positive_balance"
  | unique_owner_currency => "unique_owner_currency"
  | transactions_pkey => "transactions_pkey"
  | positive_amount => "positive_amount"
  | different_parties => "different_parties"
  end.

(** [error.message]; for a database error the driver's text, which names
    the violated constraint. *)
Definition error_message (e : Error) : string :=
  match e with
  | JsError msg => msg
  | DbError c => "violates constraint " ++ constraint_name c
  end.

(** A call made to the processor, logged in the world so that a statement
    can say that the processor was, or was not, called. *)
Inductive ProcessorCall :=
| ChargeCall (amount : Z) (currency : Currency) (method : PaymentMethod)
| RefundCall (reference : string) (amount : Z) (currency : Currency).

Record World := mkWorld {
  accounts : list Account.t;
  transactions : list Transaction.t;
  tick : nat;
  gateway_calls : list ProcessorCall;
  events : list (string * Transaction.t)
}.

Record Env := mkEnv {
  gen_id : nat -> string;
  clock : nat -> Z;
  random : nat -> Q;
  ref_token : nat -> string;
  eventBus : bool
}.

Inductive Outcome (A : Type) :=
| Ok (a : A)
| Throw (e : Error).
Arguments Ok {A} a.
Arguments Throw {A} e.

Definition M (A : Type) : Type := World -> Outcome A * World.

Definition ret {A} (a : A) : M A := fun w => (Ok a, w).

Definition throw {A} (e : Error) : M A := fun w => (Throw e, w).

Definition bind {A B} (m : M A) (k : A -> M B) : M B :=
  fun w =>
    match m w with
    | (Ok a, w') => k a w'
    | (Throw e, w') => (Throw e, w')
    end.

Definition try_catch {A} (m : M A) (h : Error -> M A) : M A :=
  fun w =>
    match m w with
    | (Ok a, w') => (Ok a, w')
    | (Throw e, w') => h e w'
    end.

Definition get : M World := fun w => (Ok w, w).

Definition put (w : World) : M unit := fun _ => (Ok tt, w).

Notation "x <- m ;; k" := (bind m (fun x => k))
  (at level 61, m at next level, right associativity).
Notation "m ;;; k" := (bind m (fun _ => k))
  (at level 61, right associativity).

Definition set_accounts (a : list Account.t) (w : World) : World :=
  mkWorld a (transactions w) (tick w) (gateway_calls w) (events w).

Definition set_transactions (t : list Transaction.t) (w : World) : World :=
  mkWorld (accounts w) t (tick w) (gateway_calls w) (events w).

Definition set_tick (n : nat) (w : World) : World :=
  mkWorld (accounts w) (transactions w) n (gateway_calls w) (events w).

Definition log_call (c : ProcessorCall) (w : World) : World :=
  mkWorld (accounts w) (transactions w) (tick w) (gateway_calls w ++ [c])
          (events w).

Definition log_event (e : string * Transaction.t) (w : World) : World :=
  mkWorld (accounts w) (transactions w) (tick w) (gateway_calls w)
          (events w ++ [e]).

(** ** The storage collaborator: the SQL statements of LedgerManager *)

Module Db.

Definition owns (ownerId : string) (cur : Currency) (a : Account.t) : bool :=
  (Account.ownerId a =? ownerId)%string
  && Currency_eqb (Account.currency a) cur.

Definition has_id (id : string) (t : Transaction.t) : bool :=
  (Transaction.id t =? id)%string.

Definition has_key (key : string) (t : Transaction.t) : bool :=
  match idempotencyKey (Transaction.metadata t) with
  | Some k => (k =? key)%string
  | None => false
  end.

(** INSERT INTO transactions (...) VALUES (...) *)
Definition insert_transaction (t : Transaction.t) : M unit :=
  w <- get ;;
  if negb (0 <? Transaction.amount t) then throw (DbError positive_amount)
  else if (Transaction.payerId t =? Transaction.payeeId t)%string
  then throw (DbError different_parties)
  else if existsb (has_id (Transaction.id t)) (transactions w)
  then throw (DbError transactions_pkey)
  else put (set_transactions (transactions w ++ [t]) w).

(** UPDATE transactions SET status, processor_reference, metadata,
    updated_at, completed_at WHERE id = $6 *)
Definition set_row (s : TransactionStatus) (pref : option string)
    (md : TransactionMetadata) (upd : Z) (cmp : option Z)
    (t : Transaction.t) : Transaction.t :=
  Transaction.mk (Transaction.id t) (Transaction.payerId t)
    (Transaction.payeeId t) (Transaction.amount t)
    (Transaction.currency t) s (Transaction.paymentMethod t) pref md
    (Transaction.createdAt t) upd cmp.

Definition update_transaction (id : string) (s : TransactionStatus)
    (pref : option string) (md : TransactionMetadata) (upd : Z)
    (cmp : option Z) : M unit :=
  w <- get ;;
  put (set_transactions
         (map (fun t => if has_id id t then set_row s pref md upd cmp t
                        else t) (transactions w)) w).

(** SELECT * FROM transactions WHERE id = $1 *)
Definition select_transaction (id : string) : M (list Transaction.t) :=
  w <- get ;; ret (filter (has_id id) (transactions w)).

(** SELECT * FROM transactions WHERE metadata->>'idempotencyKey' = $1 *)
Definition select_by_idempotency_key (key : string)
  : M (list Transaction.t) :=
  w <- get ;; ret (filter (has_key key) (transactions w)).

(** SELECT id FROM accounts WHERE owner_id = $1 AND currency = $2 *)
Definition select_account_ids (ownerId : string) (cur : Currency)
  : M (list string) :=
  w <- get ;;
  ret (map Account.id (filter (owns ownerId cur) (accounts w))).

(** INSERT INTO accounts (...) VALUES (...) *)
Definition insert_account (a : Account.t) : M unit :=
  w <- get ;;
  if Account.balance a <? 0 then throw (DbError positive_balance)
  else if existsb (fun b => (Account.id b =? Account.id a)%string)
                  (accounts w)
  then throw (DbError accounts_pkey)
  else if existsb (owns (Account.ownerId a) (Account.currency a))
                  (accounts w)
  then throw (DbError unique_owner_currency)
  else put (set_accounts (accounts w ++ [a]) w).

Definition shift (delta : Z) (upd : Z) (a : Account.t) : Account.t :=
  Account.mk (Account.id a) (Account.ownerId a) (Account.type a)
    (Account.balance a + delta) (Account.currency a) (Account.status a)
    (Account.createdAt a) upd.

(** UPDATE accounts SET balance = balance + delta, updated_at = $2
    WHERE owner_id = $3 AND currency = $4 *)
Definition update_balance (delta : Z) (upd : Z) (ownerId : string)
    (cur : Currency) : M unit :=
  w <- get ;;
  if existsb (fun a => owns ownerId cur a && (Account.balance a + delta <? 0))
             (accounts w)
  then throw (DbError positive_balance)
  else put (set_accounts
              (map (fun a => if owns ownerId cur a then shift delta upd a
                             else a) (accounts w)) w).

(** SELECT * FROM transactions WHERE payer_id = $1 OR payee_id = $1, with
    [AND status = $2] appended when a status is given.  In SQL, AND binds
    tighter than OR: the status test belongs to the payee test alone. *)
Definition involves (ownerId : string) (status : option TransactionStatus)
    (t : Transaction.t) : bool :=
  (Transaction.payerId t =? ownerId)%string
  || ((Transaction.payeeId t =? ownerId)%string
      && match status with
         | Some s => TransactionStatus_eqb (Transaction.status t) s
         | None => true
         end).

(** ORDER BY created_at DESC.  SQL leaves the order of rows of equal
    [created_at] open; here they stay in table order. *)
Fixpoint insert_newest (t : Transaction.t) (rows : list Transaction.t)
  : list Transaction.t :=
  match rows with
  | [] => [t]
  | r :: rest =>
      if Transaction.createdAt r <=? Transaction.createdAt t
      then t :: r :: rest
      else r :: insert_newest t rest
  end.

Definition order_by_created_at_desc (rows : list Transaction.t)
  : list Transaction.t :=
  fold_right insert_newest [] rows.

(** The query of [getTransactions], with its optional LIMIT and OFFSET
    clauses.  The server skips OFFSET rows, then returns LIMIT rows, and
    rejects a negative OFFSET or LIMIT. *)
Definition select_transactions_of (ownerId : string)
    (status : option TransactionStatus) (limit offset : option Z)
  : M (list Transaction.t) :=
  w <- get ;;
  let rows :=
    order_by_created_at_desc
      (filter (involves ownerId status) (transactions w)) in
  if match offset with Some o => o <? 0 | None => false end
  then throw (JsError "OFFSET must not be negative")
  else if match limit with Some l => l <? 0 | None => false end
  then throw (JsError "LIMIT must not be negative")
  else
    let skipped := match offset with
                   | Some o => skipn (Z.to_nat o) rows
                   | None => rows
                   end in
    ret (match limit with
         | Some l => firstn (Z.to_nat l) skipped
         | None => skipped
         end).

(** SELECT * FROM accounts WHERE owner_id = $1 *)
Definition select_accounts_of (ownerId : string) : M (list Account.t) :=
  w <- get ;;
  ret (filter (fun a => (Account.ownerId a =? ownerId)%string) (accounts w)).

Definition is_open (s : TransactionStatus) : bool :=
  match s with
  | pending | processing => true
  | _ => false
  end.

(** SELECT COALESCE(SUM(amount), 0) as total FROM transactions
    WHERE (payer_id = $1 OR payee_id = $1)
      AND status IN ('pending', 'processing') *)
Definition pending_total (ownerId : string) (rows : list Transaction.t)
  : Z :=
  fold_right Z.add 0
    (map Transaction.amount
       (filter (fun t =>
                  ((Transaction.payerId t =? ownerId)%string
                   || (Transaction.payeeId t =? ownerId)%string)
                  && is_open (Transaction.status t))
               rows)).

Definition select_pending_total (ownerId : string) : M Z :=
  w <- get ;; ret (pending_total ownerId (transactions w)).

End Db.

Module BalanceInfo.
Record t := mk {
  accountId : string;
  ownerId : string;
  balance : Z;
  currency : Currency;
  availableBalance : Z;
  pendingBalance : Z
}.
End BalanceInfo.

(** ** LedgerManager.ts *)

Module LedgerManager.
Section WithEnv.

Variable env : Env.

(** [generateId]: the text built from [Date.now()] and [Math.random()]. *)
Definition generateId : M string :=
  w <- get ;;
  put (set_tick (S (tick w)) w) ;;;
  ret (gen_id env (tick w)).

(** [new Date()] *)
Definition now : M Z := w <- get ;; ret (clock env (tick w)).

Definition mapRowToTransaction (row : Transaction.t) : Transaction.t := row.

Record CreateData := mkCreateData {
  d_payerId : string;
  d_payeeId : string;
  d_amount : Z;
  d_currency : Currency;
  d_status : TransactionStatus;
  d_paymentMethod : option PaymentMethod;
  d_metadata : TransactionMetadata
}.

Definition createTransaction (data : CreateData) : M Transaction.t :=
  id <- generateId ;;
  n <- now ;;
  let transaction :=
    Transaction.mk id (d_payerId data) (d_payeeId data) (d_amount data)
      (d_currency data) (d_status data) (d_paymentMethod data) None
      (d_metadata data) n n None in
  Db.insert_transaction transaction ;;;
  ret transaction.

Definition getTransaction (transactionId : string)
  : M (option Transaction.t) :=
  result <- Db.select_transaction transactionId ;;
  match result with
  | [] => ret None
  | row :: _ => ret (Some (mapRowToTransaction row))
  end.

(** The keys of [Partial<Transaction>] that the callers set.  For
    [processorReference] the key may be present with value [undefined],
    which the spread copies over the old value. *)
Record Updates := mkUpdates {
  u_status : option TransactionStatus;
  u_processorReference : option (option string);
  u_completedAt : option Z
}.

(** [{ ...transaction, ...updates, updatedAt: new Date() }] *)
Definition spread (t : Transaction.t) (u : Updates) (n : Z)
  : Transaction.t :=
  Transaction.mk (Transaction.id t) (Transaction.payerId t)
    (Transaction.payeeId t) (Transaction.amount t)
    (Transaction.currency t)
    (match u_status u with Some s => s | None => Transaction.status t end)
    (Transaction.paymentMethod t)
    (match u_processorReference u with
     | Some r => r
     | None => Transaction.processorReference t
     end)
    (Transaction.metadata t)
    (Transaction.createdAt t)
    n
    (match u_completedAt u with
     | Some c => Some c
     | None => Transaction.completedAt t
     end).

Definition updateTransaction (transactionId : string) (updates : Updates)
  : M Transaction.t :=
  transaction <- getTransaction transactionId ;;
  match transaction with
  | None => throw (JsError "Transaction not found")
  | Some transaction =>
      n <- now ;;
      let updated := spread transaction updates n in
      Db.update_transaction transactionId
        (Transaction.status updated)
        (Transaction.processorReference updated)
        (Transaction.metadata updated)
        (Transaction.updatedAt updated)
        (Transaction.completedAt updated) ;;;
      ret updated
  end.

Definition updateTransactionStatus (transactionId : string)
    (status : TransactionStatus) : M Transaction.t :=
  n <- now ;;
  updateTransaction transactionId
    (mkUpdates (Some status) None
       (if TransactionStatus_eqb status completed then Some n else None)).

Definition findByIdempotencyKey (key : string)
  : M (option Transaction.t) :=
  result <- Db.select_by_idempotency_key key ;;
  match result with
  | [] => ret None
  | row :: _ => ret (Some (mapRowToTransaction row))
  end.

Definition ensureAccount (ownerId : string) (cur : Currency) : M unit :=
  if (ownerId =? SELF_ENTITY)%string then ret tt
  else
    existing <- Db.select_account_ids ownerId cur ;;
    match existing with
    | [] =>
        id <- generateId ;;
        n <- now ;;
        Db.insert_account (Account.mk id ownerId user 0 cur active n n)
    | _ :: _ => ret tt
    end.

Definition updateBalances (payerId payeeId : string) (amount : Z)
    (cur : Currency) : M unit :=
  ensureAccount payerId cur ;;;
  ensureAccount payeeId cur ;;;
  (if negb (payerId =? SELF_ENTITY)%string
   then n <- now ;; Db.update_balance (- amount) n payerId cur
   else ret tt) ;;;
  (if negb (payeeId =? SELF_ENTITY)%string
   then n <- now ;; Db.update_balance amount n payeeId cur
   else ret tt).

(** The [options] argument of [getTransactions]; an absent or NaN number is
    [None]. *)
Record ListOptions := mkListOptions {
  o_status : option TransactionStatus;
  o_limit : option Z;
  o_offset : option Z
}.

Definition getTransactions (ownerId : string) (options : option ListOptions)
  : M (list Transaction.t) :=
  let status := match options with
                | Some o => o_status o
                | None => None
                end in
  let limit := match options with
               | Some o => if truthy_number (o_limit o) then o_limit o
                           else None
               | None => None
               end in
  let offset := match options with
                | Some o => if truthy_number (o_offset o) then o_offset o
                            else None
                | None => None
                end in
  result <- Db.select_transactions_of ownerId status limit offset ;;
  ret (map mapRowToTransaction result).

Definition getBalance (ownerId : string) : M (option BalanceInfo.t) :=
  result <- Db.select_accounts_of ownerId ;;
  match result with
  | [] => ret None
  | account :: _ =>
      pendingBalance <- Db.select_pending_total ownerId ;;
      ret (Some (BalanceInfo.mk (Account.id account)
                   (Account.ownerId account) (Account.balance account)
                   (Account.currency account)
                   (Account.balance account - pendingBalance)
                   pendingBalance))
  end.

End WithEnv.
End LedgerManager.

(** ** PaymentProcessor.ts

    [processPayment] and [processRefund] wrap their [switch] in
    [try { ... return this.processXPayment(...) ... } catch (error) { return
    { success: false, error: ... } }].  Each branch returns the promise of
    an [async] method without awaiting it.  A rejection of that promise is
    therefore not seen by the [catch]: the promise of [processPayment]
    adopts it, and the caller's [await] throws.  The only thing the [catch]
    could receive is a synchronous throw of the call expression, and an
    [async] method never throws synchronously.  [returned_without_await]
    records the handler and lets the branch's outcome through. *)

Definition returned_without_await {A} (branch : M A)
    (handler : Error -> M A) : M A :=
  branch.

Module PaymentProcessor.
Section WithEnv.

Variable env : Env.
Variable config : PaymentProcessorConfig.

(** [`${Date.now()}_${Math.random().toString(36).substr(2, 9)}`] *)
Definition fresh_token : M string :=
  w <- get ;;
  put (set_tick (S (tick w)) w) ;;;
  ret (ref_token env (tick w)).

(** [Math.random()] *)
Definition math_random : M Q :=
  w <- get ;;
  put (set_tick (S (tick w)) w) ;;;
  ret (random env (tick w)).

Definition test_mode_payment (prefix failure : string) : M ChargeResult :=
  if truthy_bool (testMode config)
  then tok <- fresh_token ;;
       ret (mkChargeResult true (Some (prefix ++ tok)) None)
  else throw (JsError failure).

Definition processStripePayment : M ChargeResult :=
  test_mode_payment "stripe_" "Stripe integration not yet implemented".

Definition processPayPalPayment : M ChargeResult :=
  test_mode_payment "paypal_" "PayPal integration not yet implemented".

Definition processSquarePayment : M ChargeResult :=
  test_mode_payment "square_" "Square integration not yet implemented".

Definition processMockPayment : M ChargeResult :=
  r <- math_random ;;
  if negb (Qle_bool (5 # 100) r)
  then ret (mkChargeResult false None
              (Some "Mock payment failed (random failure)"))
  else tok <- fresh_token ;;
       ret (mkChargeResult true (Some ("mock_" ++ tok)) None).

Definition processPayment (amount : Z) (cur : Currency)
    (method : PaymentMethod) : M ChargeResult :=
  w <- get ;;
  put (log_call (ChargeCall amount cur method) w) ;;;
  returned_without_await
    match provider config with
    | stripe => processStripePayment
    | paypal => processPayPalPayment
    | square => processSquarePayment
    | mock => processMockPayment
    | other_provider name =>
        ret (mkChargeResult false None
               (Some ("Unsupported payment provider: " ++ name)))
    end
    (fun error => ret (mkChargeResult false None (Some (error_message error)))).

Definition test_mode_refund (failure : string) : M RefundResult :=
  if truthy_bool (testMode config)
  then ret (mkRefundResult true None)
  else throw (JsError failure).

Definition processStripeRefund : M RefundResult :=
  test_mode_refund "Stripe refund not yet implemented".

Definition processPayPalRefund : M RefundResult :=
  test_mode_refund "PayPal refund not yet implemented".

Definition processSquareRefund : M RefundResult :=
  test_mode_refund "Square refund not yet implemented".

Definition processMockRefund : M RefundResult :=
  ret (mkRefundResult true None).

Definition processRefund (reference : string) (amount : Z)
    (cur : Currency) : M RefundResult :=
  w <- get ;;
  put (log_call (RefundCall reference amount cur) w) ;;;
  returned_without_await
    match provider config with
    | stripe => processStripeRefund
    | paypal => processPayPalRefund
    | square => processSquareRefund
    | mock => processMockRefund
    | other_provider name =>
        ret (mkRefundResult false
               (Some ("Unsupported payment provider: " ++ name)))
    end
    (fun error => ret (mkRefundResult false (Some (error_message error)))).

Definition verifyPayment (reference : string) : M (bool * string) :=
  ret (true, "completed").

End WithEnv.
End PaymentProcessor.

(** ** PaymentService.ts *)

Module PaymentService.
Section WithEnv.

Variable env : Env.
Variable config : PaymentServiceConfig.

(** [BaseService.emit]: forwards to the event bus of the context when
    there is one. *)
Definition emit (event : string) (data : Transaction.t) : M unit :=
  if eventBus env
  then w <- get ;;
       put (log_event ("service:payment:" ++ event, data) w)
  else ret tt.

Definition validateTransaction (request : ProcessTransactionRequest)
  : M unit :=
  let amount := req_amount request in
  let payerId := req_payerId request in
  let payeeId := req_payeeId request in
  if amount <=? 0
  then throw (JsError "Transaction amount must be positive")
  else if truthy_number (minTransactionAmount config)
          && match minTransactionAmount config with
             | Some m => amount <? m
             | None => false
             end
  then throw (JsError ("Transaction amount below minimum: "
                      ++ match minTransactionAmount config with
                         | Some m => render_amount m
                         | None => ""
                         end))
  else if truthy_number (maxTransactionAmount config)
          && match maxTransactionAmount config with
             | Some m => m <? amount
             | None => false
             end
  then throw (JsError ("Transaction amount exceeds maximum: "
                      ++ match maxTransactionAmount config with
                         | Some m => render_amount m
                         | None => ""
                         end))
  else if (payerId =? payeeId)%string
  then throw (JsError "Payer and payee cannot be the same")
  else if (payerId =? "")%string || (payeeId =? "")%string
  then throw (JsError "Payer and payee are required")
  else ret tt.

Definition requiresPaymentProcessing (payerId payeeId : string) : bool :=
  if (payerId =? SELF_ENTITY)%string then false
  else if (payeeId =? SELF_ENTITY)%string then true
  else true.

Definition failure (c m : string) : TransactionResult :=
  mkResult false None (Some (mkErrorInfo c m)).

Definition succeeded (t : Transaction.t) : TransactionResult :=
  mkResult true (Some t) None.

(** [{ ...metadata, idempotencyKey }] *)
Definition with_key (metadata : option TransactionMetadata)
    (key : option string) : TransactionMetadata :=
  let m := match metadata with Some m => m | None => empty_metadata end in
  mkMetadata (description m) (orderId m) (invoiceId m) (category m)
    (tags m) (customFields m) (reason m) (originalTransactionId m) key.

(** The object handed to [createTransaction] by [processTransaction]. *)
Definition pending_data (request : ProcessTransactionRequest)
  : LedgerManager.CreateData :=
  LedgerManager.mkCreateData (req_payerId request) (req_payeeId request)
    (req_amount request)
    (match req_currency request with
     | Some c => c
     | None => defaultCurrency config
     end)
    pending (req_paymentMethod request)
    (with_key (req_metadata request) (req_idempotencyKey request)).

(** The body of the [try] block of [processTransaction]. *)
Definition processTransaction_body (request : ProcessTransactionRequest)
  : M TransactionResult :=
  validateTransaction request ;;;
  let payerId := req_payerId request in
  let payeeId := req_payeeId request in
  let amount := req_amount request in
  existing <-
    (if truthy_string (req_idempotencyKey request)
     then match req_idempotencyKey request with
          | Some key => LedgerManager.findByIdempotencyKey key
          | None => ret None
          end
     else ret None) ;;
  match existing with
  | Some existing => ret (succeeded existing)
  | None =>
      transaction <-
        LedgerManager.createTransaction env (pending_data request) ;;
      let tid := Transaction.id transaction in
      let requiresProcessing := requiresPaymentProcessing payerId payeeId in
      declined <-
        match req_paymentMethod request with
        | Some paymentMethod =>
            if requiresProcessing
            then
              LedgerManager.updateTransactionStatus env tid processing ;;;
              result <- PaymentProcessor.processPayment env
                          (processor config) amount
                          (Transaction.currency transaction)
                          paymentMethod ;;
              if negb (charge_success result)
              then
                LedgerManager.updateTransactionStatus env tid failed ;;;
                ret (Some (failure "PAYMENT_FAILED"
                             (or_string (charge_error result)
                                "Payment processing failed")))
              else
                LedgerManager.updateTransaction env tid
                  (LedgerManager.mkUpdates None
                     (Some (charge_reference result)) None) ;;;
                ret None
            else ret None
        | None => ret None
        end ;;
      match declined with
      | Some r => ret r
      | None =>
          LedgerManager.updateBalances env payerId payeeId amount
            (Transaction.currency transaction) ;;;
          completedTransaction <-
            LedgerManager.updateTransactionStatus env tid completed ;;
          emit "transaction:completed" completedTransaction ;;;
          ret (succeeded completedTransaction)
      end
  end.

Definition processTransaction (request : ProcessTransactionRequest)
  : M TransactionResult :=
  try_catch (processTransaction_body request)
    (fun e => ret (failure "TRANSACTION_ERROR" (error_message e))).

(** [amount || originalTx.amount] *)
Definition refundAmount (request : RefundRequest)
    (originalTx : Transaction.t) : Z :=
  if truthy_number (refund_amount request)
  then match refund_amount request with
       | Some a => a
       | None => Transaction.amount originalTx
       end
  else Transaction.amount originalTx.

Definition refund_metadata (request : RefundRequest)
  : TransactionMetadata :=
  mkMetadata
    (Some ("Refund for transaction " ++ transactionId request))
    None None None [] []
    (refund_reason request)
    (Some (transactionId request))
    None.

(** The object handed to [createTransaction] by [processRefund]: the
    original with payer and payee reversed. *)
Definition refund_data (request : RefundRequest)
    (originalTx : Transaction.t) : LedgerManager.CreateData :=
  LedgerManager.mkCreateData
    (Transaction.payeeId originalTx)
    (Transaction.payerId originalTx)
    (refundAmount request originalTx)
    (Transaction.currency originalTx)
    processing None (refund_metadata request).

(** The body of the [try] block of [processRefund]. *)
Definition processRefund_body (request : RefundRequest)
  : M TransactionResult :=
  if negb (truthy_bool (refundsEnabled config))
  then ret (failure "REFUNDS_DISABLED" "Refunds are not enabled")
  else
    originalTx <- LedgerManager.getTransaction (transactionId request) ;;
    match originalTx with
    | None =>
        ret (failure "TRANSACTION_NOT_FOUND"
               "Original transaction not found")
    | Some originalTx =>
        if negb (TransactionStatus_eqb (Transaction.status originalTx)
                   completed)
        then ret (failure "INVALID_TRANSACTION_STATUS"
                    "Can only refund completed transactions")
        else
          let amount := refundAmount request originalTx in
          refundTransaction <-
            LedgerManager.createTransaction env
              (refund_data request originalTx) ;;
          declined <-
            (if truthy_string (Transaction.processorReference originalTx)
             then
               match Transaction.processorReference originalTx with
               | Some reference =>
                   result <- PaymentProcessor.processRefund
                               (processor config) reference amount
                               (Transaction.currency originalTx) ;;
                   if negb (refund_success result)
                   then
                     LedgerManager.updateTransactionStatus env
                       (Transaction.id refundTransaction) failed ;;;
                     ret (Some (failure "REFUND_FAILED"
                                  (or_string (refund_error result)
                                     "Refund processing failed")))
                   else ret None
               | None => ret None
               end
             else ret None) ;;
          match declined with
          | Some r => ret r
          | None =>
              LedgerManager.updateBalances env
                (Transaction.payerId refundTransaction)
                (Transaction.payeeId refundTransaction)
                amount (Transaction.currency originalTx) ;;;
              LedgerManager.updateTransactionStatus env
                (Transaction.id originalTx) refunded ;;;
              completedRefund <-
                LedgerManager.updateTransactionStatus env
                  (Transaction.id refundTransaction) completed ;;
              emit "refund:completed" completedRefund ;;;
              ret (succeeded completedRefund)
          end
    end.

Definition processRefund (request : RefundRequest) : M TransactionResult :=
  try_catch (processRefund_body request)
    (fun e => ret (failure "REFUND_ERROR" (error_message e))).

Definition getBalance (ownerId : string) : M (option BalanceInfo.t) :=
  LedgerManager.getBalance ownerId.

Definition getTransaction (transactionId : string)
  : M (option Transaction.t) :=
  LedgerManager.getTransaction transactionId.

Definition getTransactions (ownerId : string)
    (options : option LedgerManager.ListOptions) : M (list Transaction.t) :=
  LedgerManager.getTransactions ownerId options.

End WithEnv.
End PaymentService.

(** ** The service object: BaseService and PaymentService.initialize

    The fields of the service instance, apart from the database it talks
    to, which is the [World]. *)

Inductive ServiceStatus := initializing | ready | error_status | disabled.

(** The [ServiceContext] handed to [initialize]: whether it carries a
    database, and how that database answers [connect]. *)
Record ServiceContext := mkContext {
  ctx_database : option (Outcome unit);
  ctx_eventBus : bool
}.

Module Service.

Definition processor_config (cfg : PaymentServiceConfig)
  : PaymentProcessorConfig :=
  processor cfg.

Record t := mk {
  _status : ServiceStatus;
  _config : option PaymentServiceConfig;
  context : option ServiceContext;
  ledger : bool;
  processor : option PaymentProcessorConfig
}.

(** [new PaymentService()] *)
Definition created : t := mk initializing None None false None.

(** The getter [config] of [BaseService]. *)
Definition config (s : t) : Outcome PaymentServiceConfig :=
  match _config s with
  | Some c => Ok c
  | None => Throw (JsError "Service payment not initialized")
  end.

(** [BaseService.initialize] *)
Definition base_initialize (cfg : PaymentServiceConfig)
    (ctx : option ServiceContext) (s : t) : t :=
  mk ready (Some cfg) ctx (ledger s) (processor s).

(** [PaymentService.initialize]: the base class first, then the database
    check, the ledger and its [connect], the processor, and the status. *)
Definition initialize (cfg : PaymentServiceConfig)
    (ctx : option ServiceContext) (s : t) : Outcome unit * t :=
  let s1 := base_initialize cfg ctx s in
  match match ctx with Some c => ctx_database c | None => None end with
  | None =>
      (Throw (JsError "Database connection required for Payment Service"),
       s1)
  | Some connect =>
      let s2 := mk (_status s1) (_config s1) (context s1) true
                  (processor s1) in
      match connect with
      | Throw e => (Throw e, s2)
      | Ok _ =>
          (Ok tt,
           mk ready (_config s2) (context s2) (ledger s2)
              (Some (processor_config cfg)))
      end
  end.

(** [BaseService.healthCheck], without its time stamp. *)
Definition healthCheck (s : t) : ServiceStatus := _status s.

(** [BaseService.shutdown] *)
Definition shutdown (s : t) : t :=
  mk disabled (_config s) (context s) (ledger s) (processor s).

(** [BaseService.getStatus] *)
Definition getStatus (s : t) : ServiceStatus := _status s.

End Service.

(** ** routes.ts: PaymentApiRoutes

    A request carries the body the route reads, the id of the route
    parameter, and the authenticated user, if any. *)

Module ApiRequest.
Record t (A : Type) := mk {
  body : A;
  params_id : string;
  user : option string
}.
Arguments mk {A} body params_id user.
Arguments body {A} t.
Arguments params_id {A} t.
Arguments user {A} t.
End ApiRequest.

(** The [json] of a response: the result of the service as it is, an error
    object, or [{ success: true, data }]. *)
Inductive ApiJson :=
| JsonResult (result : TransactionResult)
| JsonError (code message : string)
| JsonTransaction (data : Transaction.t)
| JsonBalance (data : BalanceInfo.t)
| JsonHealth (success : bool) (data : ServiceStatus).

Module ApiResponse.
Record t := mk {
  status : Z;
  json : ApiJson
}.
End ApiResponse.

(** The body of POST /api/payment/transactions as it arrives: JSON read as
    a [ProcessTransactionRequest], in which [payerId] and [payeeId] may be
    missing. *)
Record TransactionBody := mkTransactionBody {
  body_payerId : option string;
  body_payeeId : option string;
  body_amount : Z;
  body_currency : option Currency;
  body_paymentMethod : option PaymentMethod;
  body_metadata : option TransactionMetadata;
  body_idempotencyKey : option string
}.

Module PaymentApiRoutes.
Section WithService.

Variable env : Env.
Variable config : PaymentServiceConfig.

Definition handleError (error : Error) : ApiResponse.t :=
  ApiResponse.mk 500 (JsonError "INTERNAL_ERROR" (error_message error)).

(** [req.user?.id !== id], where either side may be [undefined]. *)
Definition user_is_not (user : option string) (id : option string) : bool :=
  negb (strict_eq user id).

(** [validateTransaction] as it runs on the body of a request in which
    [payerId] or [payeeId] may be missing: [===] and [!] on values that may
    be [undefined]. *)
Definition validateBody (body : TransactionBody) : M unit :=
  let amount := body_amount body in
  let payerId := body_payerId body in
  let payeeId := body_payeeId body in
  if amount <=? 0
  then throw (JsError "Transaction amount must be positive")
  else if truthy_number (minTransactionAmount config)
          && match minTransactionAmount config with
             | Some m => amount <? m
             | None => false
             end
  then throw (JsError ("Transaction amount below minimum: "
                      ++ match minTransactionAmount config with
                         | Some m => render_amount m
                         | None => ""
                         end))
  else if truthy_number (maxTransactionAmount config)
          && match maxTransactionAmount config with
             | Some m => m <? amount
             | None => false
             end
  then throw (JsError ("Transaction amount exceeds maximum: "
                      ++ match maxTransactionAmount config with
                         | Some m => render_amount m
                         | None => ""
                         end))
  else if strict_eq payerId payeeId
  then throw (JsError "Payer and payee cannot be the same")
  else if negb (truthy_string payerId) || negb (truthy_string payeeId)
  then throw (JsError "Payer and payee are required")
  else ret tt.

(** [this.paymentService.processTransaction(request)] on the body.  With
    both ids present the body is a [ProcessTransactionRequest].  With one
    missing, [validateTransaction] throws, at its last test if not before,
    and the [catch] of [processTransaction] answers; nothing after the
    validation runs. *)
Definition processTransaction_of (body : TransactionBody)
  : M TransactionResult :=
  match body_payerId body, body_payeeId body with
  | Some payerId, Some payeeId =>
      PaymentService.processTransaction env config
        (mkRequest payerId payeeId (body_amount body) (body_currency body)
           (body_paymentMethod body) (body_metadata body)
           (body_idempotencyKey body))
  | _, _ =>
      try_catch
        (validateBody body ;;;
         throw (JsError "Payer and payee are required"))
        (fun e => ret (PaymentService.failure "TRANSACTION_ERROR"
                         (error_message e)))
  end.

Definition createTransaction (req : ApiRequest.t TransactionBody)
  : M ApiResponse.t :=
  try_catch
    (let request := ApiRequest.body req in
     if user_is_not (ApiRequest.user req) (body_payerId request)
     then ret (ApiResponse.mk 403
                 (JsonError "UNAUTHORIZED"
                    "Cannot create transaction for another user"))
     else
       result <- processTransaction_of request ;;
       ret (ApiResponse.mk (if success result then 201 else 400)
              (JsonResult result)))
    (fun e => ret (handleError e)).

Definition getTransaction (req : ApiRequest.t unit) : M ApiResponse.t :=
  try_catch
    (transaction <- PaymentService.getTransaction (ApiRequest.params_id req) ;;
     match transaction with
     | None =>
         ret (ApiResponse.mk 404
                (JsonError "NOT_FOUND" "Transaction not found"))
     | Some transaction =>
         if user_is_not (ApiRequest.user req)
              (Some (Transaction.payerId transaction))
            && user_is_not (ApiRequest.user req)
                 (Some (Transaction.payeeId transaction))
         then ret (ApiResponse.mk 403
                     (JsonError "UNAUTHORIZED"
                        "Not authorized to view this transaction"))
         else ret (ApiResponse.mk 200 (JsonTransaction transaction))
     end)
    (fun e => ret (handleError e)).

Definition processRefund (req : ApiRequest.t RefundRequest)
  : M ApiResponse.t :=
  try_catch
    (let request := ApiRequest.body req in
     originalTx <- PaymentService.getTransaction (transactionId request) ;;
     match originalTx with
     | None =>
         ret (ApiResponse.mk 404
                (JsonError "NOT_FOUND" "Transaction not found"))
     | Some originalTx =>
         if user_is_not (ApiRequest.user req)
              (Some (Transaction.payeeId originalTx))
         then ret (ApiResponse.mk 403
                     (JsonError "UNAUTHORIZED" "Only payee can issue refund"))
         else
           result <- PaymentService.processRefund env config request ;;
           ret (ApiResponse.mk (if success result then 200 else 400)
                  (JsonResult result))
     end)
    (fun e => ret (handleError e)).

(** [userId] is [req.user?.id]; [!userId] holds for a missing user and for
    the empty id. *)
Definition getBalance (req : ApiRequest.t unit) : M ApiResponse.t :=
  try_catch
    (match ApiRequest.user req with
     | Some userId =>
         if negb (truthy_string (Some userId))
         then ret (ApiResponse.mk 401
                     (JsonError "UNAUTHORIZED" "Authentication required"))
         else
           balance <- PaymentService.getBalance userId ;;
           match balance with
           | None =>
               ret (ApiResponse.mk 404
                      (JsonError "NOT_FOUND" "Account not found"))
           | Some balance =>
               ret (ApiResponse.mk 200 (JsonBalance balance))
           end
     | None =>
         ret (ApiResponse.mk 401
                (JsonError "UNAUTHORIZED" "Authentication required"))
     end)
    (fun e => ret (handleError e)).

Definition is_ready (s : ServiceStatus) : bool :=
  match s with ready => true | _ => false end.

Definition healthCheck (service : Service.t) : ApiResponse.t :=
  let health := Service.healthCheck service in
  ApiResponse.mk (if is_ready health then 200 else 503)
    (JsonHealth (is_ready health) health).

End WithService.
End PaymentApiRoutes.

(** ** Observations on a world *)

(** The balance held by [ownerId] in [cur]: the first row of that owner and
    currency, if any. *)
Definition row_balance (rows : list Account.t) (ownerId : string)
    (cur : Currency) : option Z :=
  option_map Account.balance (find (Db.owns ownerId cur) rows).

Definition balanceOf (w : World) (ownerId : string) (cur : Currency)
  : option Z :=
  row_balance (accounts w) ownerId cur.

(** The stored transaction with the given id, as [getTransaction] reads it. *)
Definition find_tx (w : World) (id : string) : option Transaction.t :=
  find (Db.has_id id) (transactions w).

(** The stored transaction tagged with an idempotency key, as
    [findByIdempotencyKey] reads it. *)
Definition find_key (w : World) (key : string) : option Transaction.t :=
  find (Db.has_key key) (transactions w).

(** ** Concrete environments and worlds for the scenarios *)

Module Scenario.

Definition digits (n : nat) : string :=
  String (Ascii.ascii_of_nat (48 + n / 10))
    (String (Ascii.ascii_of_nat (48 + n mod 10)) "").

(** Identifiers "id-00", "id-01", ...; a mock draw of 0.5 (no simulated
    failure); an event bus is attached. *)
Definition env : Env :=
  mkEnv (fun n => "id-" ++ digits n) (fun n => 1000 + Z.of_nat n)
        (fun _ => (1 # 2)%Q) (fun n => "ref-" ++ digits n) true.

(** The same with a mock draw of 0.01, below the 5% failure threshold. *)
Definition env_declining : Env :=
  mkEnv (gen_id env) (clock env) (fun _ => (1 # 100)%Q) (ref_token env)
        true.

Definition config : PaymentServiceConfig :=
  mkConfig (mkProcessorConfig mock "test" (Some true)) USD None None
           (Some true).

(** The Stripe configuration of the README: live mode. *)
Definition config_stripe_live : PaymentServiceConfig :=
  mkConfig (mkProcessorConfig stripe "pk_live" (Some false)) USD None None
           (Some true).

Definition config_max_zero : PaymentServiceConfig :=
  mkConfig (mkProcessorConfig mock "test" (Some true)) USD None (Some 0)
           (Some true).

Definition account (id ownerId : string) (balance : Z) : Account.t :=
  Account.mk id ownerId user balance USD active 0 0.

Definition platform_account : Account.t :=
  Account.mk "platform-account" SELF_ENTITY platform 0 USD active 0 0.

(** The database right after [schema.sql] has run. *)
Definition empty_world : World := mkWorld [platform_account] [] 0 [] [].

Definition world_with (accs : list Account.t) : World :=
  mkWorld (platform_account :: accs) [] 0 [] [].

Definition transfer (payer payee : string) (amount : Z)
    (method : option PaymentMethod) (key : option string)
  : ProcessTransactionRequest :=
  mkRequest payer payee amount (Some USD) method None key.

(** A stored transaction between user_1 and user_2, tagged with an
    idempotency key. *)
Definition stored (id key : string) (amount : Z)
    (status : TransactionStatus) : Transaction.t :=
  Transaction.mk id "user_1" "user_2" amount USD status None None
    (mkMetadata None None None None [] [] None None (Some key))
    900 900 None.

Definition world_with_stored (t : Transaction.t) : World :=
  mkWorld [platform_account; account "acc-1" "user_1" 1000000;
           account "acc-2" "user_2" 0]
          [t] 0 [] [].

(** A payout carrying the idempotency key "k1", run on the fresh
    database. *)
Definition keyed_request : ProcessTransactionRequest :=
  transfer SELF_ENTITY "user_1" 499900 None (Some "k1").

Definition keyed_run : Outcome TransactionResult * World :=
  Eval vm_compute in
    PaymentService.processTransaction env config keyed_request empty_world.

Definition keyed_world : World := Eval vm_compute in snd keyed_run.

Definition keyed_transaction : Transaction.t :=
  Eval vm_compute in
    match fst keyed_run with
    | Ok (mkResult _ (Some t) _) => t
    | _ => stored "" "" 0 failed
    end.

(** A card payment of 49.99 to the platform, declined by the mock
    processor of [env_declining]. *)
Definition charge_request : ProcessTransactionRequest :=
  transfer "user_1" SELF_ENTITY 499900 (Some credit_card) None.

Definition charge_world : World :=
  world_with [account "acc-1" "user_1" 1000000].

Definition charge_created : Outcome Transaction.t * World :=
  Eval vm_compute in
    LedgerManager.createTransaction env_declining
      (PaymentService.pending_data config charge_request) charge_world.

Definition charge_tx : Transaction.t :=
  Eval vm_compute in
    match fst charge_created with
    | Ok t => t
    | Throw _ => stored "" "" 0 failed
    end.



(** A completed card payment of 49.99 to the platform, with the reference
    of its charge, and a refund request for it. *)
Definition charged_original : Transaction.t :=
  Transaction.mk "tx-1" "user_1" SELF_ENTITY 499900 USD completed
    (Some credit_card) (Some "ch_1") empty_metadata 900 950 (Some 950).

Definition refund_world : World :=
  mkWorld [platform_account; account "acc-1" "user_1" 0]
          [charged_original] 5 [] [].

Definition refund_request : RefundRequest :=
  mkRefundRequest "tx-1" None (Some "Customer request").

Definition refund_created : Outcome Transaction.t * World :=
  Eval vm_compute in
    LedgerManager.createTransaction env
      (PaymentService.refund_data refund_request charged_original)
      refund_world.

Definition refund_tx : Transaction.t :=
  Eval vm_compute in
    match fst refund_created with
    | Ok t => t
    | Throw _ => stored "" "" 0 failed
    end.

(** The scenario of the specification: user_2 holds 10.00 and transfers
    25.00 to user_3 without a payment method. *)
Definition overdraft_world : World :=
  world_with [account "acc-2" "user_2" 100000].

Definition overdraft_request : ProcessTransactionRequest :=
  transfer "user_2" "user_3" 250000 None None.

(** A transfer of 25.00 from user_1, who holds 100.00, to user_2, who has
    no account yet, and its full refund. *)
Definition refundable_world : World :=
  world_with [account "acc-1" "user_1" 1000000].

Definition refundable_request : ProcessTransactionRequest :=
  transfer "user_1" "user_2" 250000 None None.

Definition refundable_run : Outcome TransactionResult * World :=
  Eval vm_compute in
    PaymentService.processTransaction env config refundable_request
      refundable_world.

Definition refundable_transaction : Transaction.t :=
  Eval vm_compute in
    match fst refundable_run with
    | Ok (mkResult _ (Some t) _) => t
    | _ => stored "" "" 0 failed
    end.

Definition full_refund_request : RefundRequest :=
  mkRefundRequest "id-00" None (Some "Customer request").

(** A completed transfer of 10.00 from user_1 to user_2, who now holds
    50.00; a partial refund of 4.00 and a refund of 25.00. *)
Definition settled_world : World :=
  mkWorld [platform_account; account "acc-1" "user_1" 0;
           account "acc-2" "user_2" 500000]
          [stored "tx-1" "k1" 100000 completed] 3 [] [].

Definition partial_refund_request : RefundRequest :=
  mkRefundRequest "tx-1" (Some 40000) None.

Definition excess_refund_request : RefundRequest :=
  mkRefundRequest "tx-1" (Some 250000) None.

Definition partial_refund_created : Outcome Transaction.t * World :=
  Eval vm_compute in
    LedgerManager.createTransaction env
      (PaymentService.refund_data partial_refund_request
         (stored "tx-1" "k1" 100000 completed))
      settled_world.

Definition partial_refund_tx : Transaction.t :=
  Eval vm_compute in
    match fst partial_refund_created with
    | Ok t => t
    | Throw _ => stored "" "" 0 failed
    end.

(** The full refund of the transfer of [refundable_run], and what it
    returns. *)
Definition full_refund_run : Outcome TransactionResult * World :=
  Eval vm_compute in
    PaymentService.processRefund env config full_refund_request
      (snd refundable_run).

Definition full_refund_result : TransactionResult :=
  Eval vm_compute in
    match fst full_refund_run with
    | Ok r => r
    | Throw _ => PaymentService.failure "" ""
    end.

(** The world after [ensureAccount] has opened an account for user_2. *)
Definition ensured_world : World :=
  Eval vm_compute in
    snd (LedgerManager.ensureAccount env "user_2" USD refundable_world).

(** A ledger with three transactions of user_1, stored out of order of
    creation: a completed payment, a failed payment, and a pending payment
    received from user_2. *)
Definition history_world : World :=
  mkWorld [platform_account; account "acc-1" "user_1" 1000000;
           account "acc-2" "user_2" 0]
          [Transaction.mk "tx-2" "user_1" "user_2" 20000 USD completed None
             None empty_metadata 920 925 (Some 925);
           Transaction.mk "tx-1" "user_1" "user_2" 10000 USD failed None
             None empty_metadata 910 915 None;
           Transaction.mk "tx-3" "user_2" "user_1" 30000 USD pending None
             None empty_metadata 930 930 None]
          7 [] [].

Definition history_listing : list Transaction.t :=
  Eval vm_compute in
    match fst (LedgerManager.getTransactions "user_1" None history_world) with
    | Ok rows => rows
    | Throw _ => []
    end.

(** What [getBalance] reports for user_1 before the charge of
    [charge_request] is created. *)
Definition charge_balance : BalanceInfo.t :=
  BalanceInfo.mk "acc-1" "user_1" 1000000 USD 1000000 0.

End Scenario.

(** ** Predicates used in the statements *)

(** A request breaks a rule that [validateTransaction] tests.  A configured
    bound of 0 is falsy and is not tested. *)
Definition violates_validation (cfg : PaymentServiceConfig)
    (req : ProcessTransactionRequest) : Prop :=
  req_amount req <= 0
  \/ (exists m, minTransactionAmount cfg = Some m /\ m <> 0
                /\ req_amount req < m)
  \/ (exists m, maxTransactionAmount cfg = Some m /\ m <> 0
                /\ m < req_amount req)
  \/ req_payerId req = req_payeeId req
  \/ req_payerId req = ""
  \/ req_payeeId req = "".

Definition validation_messages (cfg : PaymentServiceConfig) : list string :=
  [ "Transaction amount must be positive";
    "Transaction amount below minimum: "
    ++ match minTransactionAmount cfg with
       | Some m => render_amount m
       | None => ""
       end;
    "Transaction amount exceeds maximum: "
    ++ match maxTransactionAmount cfg with
       | Some m => render_amount m
       | None => ""
       end;
    "Payer and payee cannot be the same";
    "Payer and payee are required" ].

(** The rows of the [transactions] table after the UPDATE that
    [updateTransaction] issues for the object [updated]. *)
Definition rows_after_update (id : string) (updated : Transaction.t)
    (rows : list Transaction.t) : list Transaction.t :=
  map (fun t => if Db.has_id id t
                then Db.set_row (Transaction.status updated)
                       (Transaction.processorReference updated)
                       (Transaction.metadata updated)
                       (Transaction.updatedAt updated)
                       (Transaction.completedAt updated) t
                else t) rows.

(** Hoare triples over [M]: from a world satisfying [P], [m] either returns
    [a] in a world satisfying [Q a] or throws in a world satisfying [E]. *)
Definition hoare {A} (P : World -> Prop) (m : M A)
    (Q : A -> World -> Prop) (E : World -> Prop) : Prop :=
  forall w, P w ->
    match m w with
    | (Ok a, w') => Q a w'
    | (Throw _, w') => E w'
    end.

(** An invariant of the world kept by a computation, whether it returns or
    throws. *)
Definition keeps {A} (I : World -> Prop) (m : M A) : Prop :=
  hoare I m (fun _ w => I w) I.

(** The [transactions] table is [old] followed by one row with id [tid]
    that satisfies [P]. *)
Definition appended_row (old : list Transaction.t) (tid : string)
    (P : Transaction.t -> Prop) (w : World) : Prop :=
  exists t, transactions w = (old ++ [t])%list /\ Transaction.id t = tid /\ P t.

(** A computation that leaves the [transactions] table, respectively the
    [accounts] table, as it found it. *)
Definition preserves_transactions {A} (m : M A) : Prop :=
  forall w, transactions (snd (m w)) = transactions w.

Definition preserves_accounts {A} (m : M A) : Prop :=
  forall w, accounts (snd (m w)) = accounts w.

(** The non-negativity invariant of the [accounts] table. *)
Definition nonneg_rows (rows : list Account.t) : Prop :=
  Forall (fun a => 0 <= Account.balance a) rows.

Definition balances_nonneg (w : World) : Prop := nonneg_rows (accounts w).

(** The calls a client can make, and the world after a sequence of them. *)
Inductive Call :=
| Transfer (request : ProcessTransactionRequest)
| Refund (request : RefundRequest).

Definition after_call (env : Env) (cfg : PaymentServiceConfig) (w : World)
    (c : Call) : World :=
  match c with
  | Transfer request =>
      snd (PaymentService.processTransaction env cfg request w)
  | Refund request => snd (PaymentService.processRefund env cfg request w)
  end.

Definition after_calls (env : Env) (cfg : PaymentServiceConfig)
    (calls : list Call) (w : World) : World :=
  fold_left (after_call env cfg) calls w.

(** The balance of an owner, an owner without a row counting for 0. *)
Definition balance_or_zero (w : World) (ownerId : string) (cur : Currency)
  : Z :=
  match balanceOf w ownerId cur with
  | Some b => b
  | None => 0
  end.

(** The currency a request is booked in. *)
Definition request_currency (cfg : PaymentServiceConfig)
    (req : ProcessTransactionRequest) : Currency :=
  match req_currency req with
  | Some c => c
  | None => defaultCurrency cfg
  end.

(** No stored transaction answers the request's idempotency key. *)
Definition no_replay (req : ProcessTransactionRequest) (w : World) : Prop :=
  forall key, req_idempotencyKey req = Some key -> key <> "" ->
              find_key w key = None.

(** Every balance of [rows0] is still what it was in [rows]. *)
Definition balances_kept (rows0 rows : list Account.t) : Prop :=
  forall o c b, row_balance rows0 o c = Some b -> row_balance rows o c = Some b.

(** The payer cannot cover [amount]: the balances of [rows0] are kept, the
    payer holds less than [amount] (nothing, without a row), and, when
    [with_row] is set, the payer has a row. *)
Definition overdrawn (rows0 : list Account.t) (payer : string)
    (cur : Currency) (amount : Z) (with_row : bool) (rows : list Account.t)
  : Prop :=
  balances_kept rows0 rows
  /\ match row_balance rows payer cur with
     | Some b => b < amount
     | None => 0 < amount
     end
  /\ (with_row = true -> row_balance rows payer cur <> None).

(** The constraint [unique_owner_currency] of the schema: no two rows of
    the same owner and currency. *)
Fixpoint unique_owner_currencyb (rows : list Account.t) : bool :=
  match rows with
  | [] => true
  | r :: rest =>
      negb (existsb (Db.owns (Account.ownerId r) (Account.currency r)) rest)
      && unique_owner_currencyb rest
  end.

(** The balance that [updateBalances payer payee amount cur] leaves to owner
    [o] in currency [c]: the payer's is lowered and the payee's raised by
    [amount], SELF excepted; a party without a row starts from 0. *)
Definition shifted_balance (rows : list Account.t) (payer payee : string)
    (amount : Z) (cur : Currency) (o : string) (c : Currency) : option Z :=
  let held := match row_balance rows o c with Some b => b | None => 0 end in
  if Currency_eqb c cur && negb (o =? SELF_ENTITY)%string
  then if (o =? payer)%string then Some (held - amount)
       else if (o =? payee)%string then Some (held + amount)
       else row_balance rows o c
  else row_balance rows o c.

(** The processor accepts the refund of a charge, in whatever world it is
    asked. *)
Definition refund_accepted (pc : PaymentProcessorConfig) (reference : string)
    (amount : Z) (cur : Currency) : Prop :=
  forall w, exists result,
    fst (PaymentProcessor.processRefund pc reference amount cur w) = Ok result
    /\ refund_success result = true.

(** The status change that [updateTransactionStatus] writes: the row with
    the new status, the time of the update, and the completion time when
    the status is 'completed'. *)
Definition with_status (t : Transaction.t) (s : TransactionStatus) (n : Z)
  : Transaction.t :=
  LedgerManager.spread t
    (LedgerManager.mkUpdates (Some s) None
       (if TransactionStatus_eqb s completed then Some n else None)) n.

(** The fields of a transaction that no update of the ledger rewrites. *)
Definition same_core (t t' : Transaction.t) : Prop :=
  Transaction.payerId t' = Transaction.payerId t
  /\ Transaction.payeeId t' = Transaction.payeeId t
  /\ Transaction.amount t' = Transaction.amount t
  /\ Transaction.currency t' = Transaction.currency t
  /\ Transaction.metadata t' = Transaction.metadata t.

(** ** Predicates used in the further properties *)

(** A computation that leaves the two logs, of gateway calls and of
    emitted events, as it found them. *)
Definition preserves_logs {A} (m : M A) : Prop :=
  forall w, gateway_calls (snd (m w)) = gateway_calls w
            /\ events (snd (m w)) = events w.

(** The charges that a call of [processTransaction] which stores a new
    transaction asks of the processor: one, when the request carries a
    payment method and the payer is not the platform. *)
Definition charges_of (cfg : PaymentServiceConfig)
    (req : ProcessTransactionRequest) : list ProcessorCall :=
  match req_paymentMethod req with
  | Some method =>
      if PaymentService.requiresPaymentProcessing (req_payerId req)
           (req_payeeId req)
      then [ChargeCall (req_amount req) (request_currency cfg req) method]
      else []
  | None => []
  end.

(** The events that a call emits for the transaction [t] it completed. *)
Definition events_of (env : Env) (name : string) (t : Transaction.t)
  : list (string * Transaction.t) :=
  if eventBus env then [(name, t)] else [].

(** A row written from [t] that has not reached the status 'completed'. *)
Definition open_copy (t x : Transaction.t) : Prop :=
  same_core t x /\ Transaction.status x <> completed.

(** What a call of [processTransaction] that stored the new row [t'] has
    done, given the row [t] it created, the world [w] it started from and
    the result [r] it returned. *)
Definition stored_new (env : Env) (cfg : PaymentServiceConfig)
    (req : ProcessTransactionRequest) (w : World) (t : Transaction.t)
    (r : TransactionResult) (w' : World) : Prop :=
  exists t',
    transactions w' = (transactions w ++ [t'])%list
    /\ Transaction.id t' = Transaction.id t
    /\ same_core t t'
    /\ gateway_calls w' = (gateway_calls w ++ charges_of cfg req)%list
    /\ if success r
       then r = PaymentService.succeeded t'
            /\ Transaction.status t' = completed
            /\ events w'
               = (events w
                  ++ events_of env "service:payment:transaction:completed"
                       t')%list
       else transaction r = None
            /\ error r <> None
            /\ events w' = events w
            /\ Transaction.status t' <> completed.

(** The two tables and the two logs of [w'] are those of [w]. *)
Definition untouched (w w' : World) : Prop :=
  transactions w' = transactions w /\ accounts w' = accounts w
  /\ gateway_calls w' = gateway_calls w /\ events w' = events w.

(** The result [r] answers a replay: it carries the transaction that the
    non-empty idempotency key of the request finds in [w]. *)
Definition replayed (req : ProcessTransactionRequest) (w : World)
    (r : TransactionResult) : Prop :=
  exists key stored,
    req_idempotencyKey req = Some key /\ key <> ""
    /\ find_key w key = Some stored
    /\ r = PaymentService.succeeded stored.

(** A failure result: no transaction, and an error. *)
Definition is_failure (r : TransactionResult) : Prop :=
  success r = false /\ transaction r = None /\ error r <> None.

(** The refunds that a call of [processRefund] which stores a refund row
    asks of the processor: one, when the original carries a non-empty
    processor reference. *)
Definition refunds_of (rreq : RefundRequest) (orig : Transaction.t)
  : list ProcessorCall :=
  match Transaction.processorReference orig with
  | Some reference =>
      if truthy_string (Some reference)
      then [RefundCall reference (PaymentService.refundAmount rreq orig)
              (Transaction.currency orig)]
      else []
  | None => []
  end.

(** What a call of [processRefund] that stored the refund row [rt'] has
    done, given the original [orig], the row [rt] it created, the world [w]
    it started from and the result [r] it returned. *)
Definition stored_refund (env : Env) (rreq : RefundRequest) (w : World)
    (orig rt : Transaction.t) (r : TransactionResult) (w' : World) : Prop :=
  exists rt',
    Transaction.id rt' = Transaction.id rt
    /\ same_core rt rt'
    /\ gateway_calls w' = (gateway_calls w ++ refunds_of rreq orig)%list
    /\ if success r
       then r = PaymentService.succeeded rt'
            /\ Transaction.status rt' = completed
            /\ (exists n,
                   transactions w'
                   = (rows_after_update (transactionId rreq)
                        (with_status orig refunded n) (transactions w)
                      ++ [rt'])%list)
            /\ events w'
               = (events w
                  ++ events_of env "service:payment:refund:completed"
                       rt')%list
       else is_failure r
            /\ transactions w' = (transactions w ++ [rt'])%list
            /\ events w' = events w
            /\ Transaction.status rt' <> completed.

(** The balance that the platform's own row shows in currency [c]. *)
Definition platform_holds (c : Currency) (b : option Z)
    (rows : list Account.t) : Prop :=
  row_balance rows SELF_ENTITY c = b.

(** Newest first: no row is older than a row listed after it. *)
Definition newest_first (rows : list Transaction.t) : Prop :=
  StronglySorted
    (fun a b => Transaction.createdAt b <= Transaction.createdAt a) rows.

(** The rows that answer [getTransactions] for an owner and an optional
    status, before LIMIT and OFFSET: the owner is the payer, or the owner is
    the payee and the status, when one is asked for, is the row's. *)
Definition listed (ownerId : string) (status : option TransactionStatus)
    (t : Transaction.t) : Prop :=
  Transaction.payerId t = ownerId
  \/ (Transaction.payeeId t = ownerId
      /\ forall s, status = Some s -> Transaction.status t = s).

(** The page of [limit] rows after the first [offset] rows; a [limit] of 0
    is no limit. *)
Definition page (limit offset : Z) (rows : list Transaction.t)
  : list Transaction.t :=
  let skipped := skipn (Z.to_nat offset) rows in
  if limit =? 0 then skipped else firstn (Z.to_nat limit) skipped.

(** The values that a DECIMAL(19,4) column holds, in ten-thousandths:
    nineteen digits in all. *)
Definition fits_decimal (z : Z) : Prop := Z.abs z < 10 ^ 19.

(** The answers that the query of [getTransactions] admits, with its ORDER
    BY created_at DESC, LIMIT and OFFSET: the page of some listing of the
    selected rows that is newest first.  Rows created at the same time may
    come in either order. *)
Definition answers_listing (ownerId : string)
    (status : option TransactionStatus) (limit offset : Z) (w : World)
    (rows : list Transaction.t) : Prop :=
  exists all,
    Permutation all (filter (Db.involves ownerId status) (transactions w))
    /\ newest_first all
    /\ rows = page limit offset all.


(** The accounts table [rows] shows every balance that [rows0] shows, and
    no other, except that an account with balance 0 may have been opened in
    currency [cur] for [payer] or [payee] where they had none. *)
Definition opened_for (rows0 : list Account.t) (payer payee : string)
    (cur : Currency) (rows : list Account.t) : Prop :=
  forall o c,
    row_balance rows o c = row_balance rows0 o c
    \/ (row_balance rows0 o c = None
        /\ row_balance rows o c = Some 0
        /\ c = cur
        /\ (o = payer \/ o = payee)
        /\ o <> SELF_ENTITY).
(** ** Running a computation step by step *)

Lemma bind_ok {A B} (m : M A) (k : A -> M B) w a w' :
  m w = (Ok a, w') -> bind m k w = k a w'.
Proof. intros H. unfold bind. now rewrite H. Qed.

Lemma bind_throw {A B} (m : M A) (k : A -> M B) w e w' :
  m w = (Throw e, w') -> bind m k w = (Throw e, w').
Proof. intros H. unfold bind. now rewrite H. Qed.

Lemma try_catch_ok {A} (m : M A) h w a w' :
  m w = (Ok a, w') -> try_catch m h w = (Ok a, w').
Proof. intros H. unfold try_catch. now rewrite H. Qed.

Lemma try_catch_throw {A} (m : M A) h w e w' :
  m w = (Throw e, w') -> try_catch m h w = h e w'.
Proof. intros H. unfold try_catch. now rewrite H. Qed.

Lemma hd_filter_find {A} (p : A -> bool) (l : list A) :
  match filter p l with [] => None | x :: _ => Some x end = find p l.
Proof.
  induction l as [|x l IH]; simpl; [reflexivity|].
  destruct (p x); [reflexivity | exact IH].
Qed.

Lemma getTransaction_run id w :
  LedgerManager.getTransaction id w = (Ok (find_tx w id), w).
Proof.
  unfold LedgerManager.getTransaction, Db.select_transaction, bind, get, ret,
    find_tx, LedgerManager.mapRowToTransaction.
  rewrite <- hd_filter_find.
  destruct (filter (Db.has_id id) (transactions w)); reflexivity.
Qed.

Lemma findByIdempotencyKey_run key w :
  LedgerManager.findByIdempotencyKey key w = (Ok (find_key w key), w).
Proof.
  unfold LedgerManager.findByIdempotencyKey, Db.select_by_idempotency_key,
    bind, get, ret, find_key, LedgerManager.mapRowToTransaction.
  rewrite <- hd_filter_find.
  destruct (filter (Db.has_key key) (transactions w)); reflexivity.
Qed.

(** [validateTransaction] touches nothing: it returns or throws in the
    world it was given. *)
Lemma validateTransaction_pure cfg req w :
  snd (PaymentService.validateTransaction cfg req w) = w.
Proof.
  unfold PaymentService.validateTransaction.
  repeat match goal with
         | |- context [if ?b then _ else _] => destruct b
         end; reflexivity.
Qed.

Lemma validateTransaction_ok cfg req w :
  fst (PaymentService.validateTransaction cfg req w) = Ok tt ->
  PaymentService.validateTransaction cfg req w = (Ok tt, w).
Proof.
  intros H. rewrite (surjective_pairing (_ cfg req w)), H.
  now rewrite validateTransaction_pure.
Qed.

Lemma truthy_string_some key :
  key <> "" -> truthy_string (Some key) = true.
Proof.
  intros H. simpl. destruct (String.eqb_spec key ""); [contradiction|easy].
Qed.

(** ** Sanity checks of the embedding *)

Example render_amount_examples :
  render_amount 499900 = "49.99"
  /\ render_amount 50000 = "5"
  /\ render_amount 5 = "0.0005"
  /\ render_amount 12340000 = "1234".
Proof. repeat split. Qed.

Example payout_completes :
  exists t w,
    PaymentService.processTransaction Scenario.env Scenario.config
      Scenario.keyed_request Scenario.empty_world
    = (Ok (PaymentService.succeeded t), w)
    /\ Transaction.status t = completed
    /\ Transaction.completedAt t <> None
    /\ balanceOf w "user_1" USD = Some 499900
    /\ events w = [("service:payment:transaction:completed", t)].
Proof.
  eexists _, _. vm_compute. repeat split. discriminate.
Qed.

(** ** Idempotent replay *)

(** The idempotency short cut of [processTransaction]. *)
Lemma processTransaction_replay env cfg req w key stored :
  fst (PaymentService.validateTransaction cfg req w) = Ok tt ->
  req_idempotencyKey req = Some key ->
  key <> "" ->
  find_key w key = Some stored ->
  PaymentService.processTransaction env cfg req w
  = (Ok (PaymentService.succeeded stored), w).
Proof.
  intros Hv Hk Hne Hf.
  unfold PaymentService.processTransaction,
    PaymentService.processTransaction_body.
  apply try_catch_ok.
  rewrite (bind_ok _ _ _ _ _ (validateTransaction_ok _ _ _ Hv)).
  rewrite Hk, (truthy_string_some _ Hne).
  rewrite (bind_ok _ _ _ _ _ (findByIdempotencyKey_run key w)).
  now rewrite Hf.
Qed.

(** C10, as amended: a call that passes [validateTransaction] and whose
    non-empty idempotency key tags a stored transaction returns
    [success: true] with that transaction exactly as stored, whatever its
    status and whatever payer, payee and amount the new request names; the
    world is left as it was (no row, no balance change, no gateway call, no
    event). *)
Theorem replay_returns_stored_transaction env cfg req w key stored :
  fst (PaymentService.validateTransaction cfg req w) = Ok tt ->
  req_idempotencyKey req = Some key ->
  key <> "" ->
  find_key w key = Some stored ->
  PaymentService.processTransaction env cfg req w
  = (Ok (PaymentService.succeeded stored), w)
  /\ transactions (snd (PaymentService.processTransaction env cfg req w))
     = transactions w
  /\ accounts (snd (PaymentService.processTransaction env cfg req w))
     = accounts w.
Proof.
  intros Hv Hk Hne Hf.
  rewrite (processTransaction_replay env cfg req w key stored Hv Hk Hne Hf).
  repeat split.
Qed.

Lemma replay_returns_stored_transaction_witness :
  let w := Scenario.world_with_stored
             (Scenario.stored "tx-1" "k1" 250000 failed) in
  let req := Scenario.transfer "user_7" "user_8" 5 (Some credit_card)
               (Some "k1") in
  PaymentService.processTransaction Scenario.env Scenario.config req w
  = (Ok (PaymentService.succeeded (Scenario.stored "tx-1" "k1" 250000 failed)),
     w)
  /\ transactions
       (snd (PaymentService.processTransaction Scenario.env Scenario.config
               req w)) = transactions w
  /\ accounts
       (snd (PaymentService.processTransaction Scenario.env Scenario.config
               req w)) = accounts w.
Proof.
  apply (replay_returns_stored_transaction Scenario.env Scenario.config
           _ _ "k1").
  - reflexivity.
  - reflexivity.
  - discriminate.
  - reflexivity.
Defined.

(** C10 as stated fails in two ways.  Validation runs before the key is
    looked up, so a request with amount 0 whose key tags a stored
    transaction is answered with a failure; and an empty key is falsy, so a
    request whose key "" tags a stored transaction is processed afresh and a
    second row is written. *)
Lemma replay_counterexample :
  (let w := Scenario.world_with_stored
              (Scenario.stored "tx-1" "k1" 250000 completed) in
   find_key w "k1" = Some (Scenario.stored "tx-1" "k1" 250000 completed)
   /\ PaymentService.processTransaction Scenario.env Scenario.config
        (Scenario.transfer "user_1" "user_2" 0 None (Some "k1")) w
      = (Ok (PaymentService.failure "TRANSACTION_ERROR"
               "Transaction amount must be positive"), w))
  /\
  (let w := Scenario.world_with_stored
              (Scenario.stored "tx-1" "" 250000 completed) in
   let run := PaymentService.processTransaction Scenario.env Scenario.config
                (Scenario.transfer "user_1" "user_2" 250000 None (Some "")) w
   in
   find_key w "" = Some (Scenario.stored "tx-1" "" 250000 completed)
   /\ List.length (transactions (snd run)) = 2%nat
   /\ balanceOf w "user_1" USD = Some 1000000
   /\ balanceOf (snd run) "user_1" USD = Some 750000).
Proof. vm_compute. repeat split. Qed.

(** ** Validation *)

(** Decides one comparison of the goal, by its specification. *)
Ltac decide_test :=
  match goal with
  | |- context [String.eqb ?s ?s'] => destruct (String.eqb_spec s s')
  | |- context [Z.eqb ?x ?y] => destruct (Z.eqb_spec x y)
  | |- context [Z.ltb ?x ?y] => destruct (Z.ltb_spec x y)
  | |- context [Z.leb ?x ?y] => destruct (Z.leb_spec x y)
  end.

Ltac split_tests := repeat decide_test; simpl.

Lemma validateTransaction_rejects cfg req w :
  violates_validation cfg req ->
  exists msg, In msg (validation_messages cfg)
    /\ PaymentService.validateTransaction cfg req w = (Throw (JsError msg), w).
Proof.
  unfold violates_validation, PaymentService.validateTransaction,
    validation_messages.
  intros H.
  destruct (minTransactionAmount cfg) as [mn|];
    destruct (maxTransactionAmount cfg) as [mx|]; simpl;
    split_tests;
    try solve [eexists; split; [|reflexivity]; simpl; auto 6];
    exfalso;
    destruct H as [H|[(m & E & Hm & ?)|[(m & E & Hm & ?)|[H|[H|H]]]]];
    try congruence; try lia;
    inversion E; subst; lia.
Qed.

(** C7, as amended: a request with amount <= 0, with an amount below a
    configured non-zero minimum or above a configured non-zero maximum, with
    payer equal to payee, or with an empty payer or payee id is answered
    with a failure result whose code is TRANSACTION_ERROR and whose message
    is the validation message; the world is left as it was (no transaction
    is created, no balance changes). *)
Theorem invalid_request_has_no_effect env cfg req w :
  violates_validation cfg req ->
  exists msg, In msg (validation_messages cfg)
    /\ PaymentService.processTransaction env cfg req w
       = (Ok (PaymentService.failure "TRANSACTION_ERROR" msg), w).
Proof.
  intros H.
  destruct (validateTransaction_rejects cfg req w H) as (msg & Hin & Hrun).
  exists msg. split; [exact Hin|].
  unfold PaymentService.processTransaction,
    PaymentService.processTransaction_body.
  erewrite try_catch_throw by (apply bind_throw; exact Hrun).
  reflexivity.
Qed.

Lemma invalid_request_has_no_effect_witness :
  exists msg, In msg (validation_messages Scenario.config)
    /\ PaymentService.processTransaction Scenario.env Scenario.config
         (Scenario.transfer "user_1" "user_1" 250000 None None)
         Scenario.empty_world
       = (Ok (PaymentService.failure "TRANSACTION_ERROR" msg),
          Scenario.empty_world).
Proof.
  apply (invalid_request_has_no_effect Scenario.env Scenario.config).
  unfold violates_validation. simpl. right; right; right; left. reflexivity.
Defined.

(** C7 as stated fails for a configured maximum of 0: the test
    [maxTransactionAmount && amount > maxTransactionAmount] is falsy, so an
    amount of 5.00, which lies above the maximum, is accepted; the payout is
    recorded, completed and credited. *)
Lemma validation_counterexample :
  let req := Scenario.transfer SELF_ENTITY "user_1" 50000 None None in
  let run := PaymentService.processTransaction Scenario.env
               Scenario.config_max_zero req Scenario.empty_world in
  maxTransactionAmount Scenario.config_max_zero = Some 0
  /\ 0 < req_amount req
  /\ (exists t, fst run = Ok (PaymentService.succeeded t)
                /\ Transaction.status t = completed)
  /\ List.length (transactions (snd run)) = 1%nat
  /\ balanceOf Scenario.empty_world "user_1" USD = None
  /\ balanceOf (snd run) "user_1" USD = Some 50000.
Proof.
  vm_compute. repeat split.
  eexists. split; reflexivity.
Qed.

(** ** Hoare rules *)

Lemma hoare_ret {A} (P : World -> Prop) (a : A) (Q : A -> World -> Prop) E :
  (forall w, P w -> Q a w) -> hoare P (ret a) Q E.
Proof. intros H w Hw. simpl. auto. Qed.

Lemma hoare_throw {A} (P : World -> Prop) e (Q : A -> World -> Prop)
    (E : World -> Prop) :
  (forall w, P w -> E w) -> hoare P (throw e) Q E.
Proof. intros H w Hw. simpl. auto. Qed.

Lemma hoare_bind {A B} P (m : M A) (k : A -> M B) R Q E :
  hoare P m R E -> (forall a, hoare (R a) (k a) Q E) ->
  hoare P (bind m k) Q E.
Proof.
  intros Hm Hk w Hw. unfold bind.
  specialize (Hm w Hw). destruct (m w) as [[a|e] w']; [|exact Hm].
  exact (Hk a w' Hm).
Qed.

Lemma hoare_try_catch {A} P (m : M A) h Q E E' :
  hoare P m Q E' -> (forall e, hoare E' (h e) Q E) ->
  hoare P (try_catch m h) Q E.
Proof.
  intros Hm Hh w Hw. unfold try_catch.
  specialize (Hm w Hw). destruct (m w) as [[a|e] w']; [exact Hm|].
  exact (Hh e w' Hm).
Qed.

Lemma hoare_conseq {A} (P P' : World -> Prop) (m : M A)
    (Q Q' : A -> World -> Prop) (E E' : World -> Prop) :
  hoare P m Q E ->
  (forall w, P' w -> P w) ->
  (forall a w, Q a w -> Q' a w) ->
  (forall w, E w -> E' w) ->
  hoare P' m Q' E'.
Proof.
  intros H HP HQ HE w Hw. specialize (H w (HP w Hw)).
  destruct (m w) as [[a|e] w']; auto.
Qed.

Lemma keeps_bind {A B} (I : World -> Prop) (m : M A) (k : A -> M B) :
  keeps I m -> (forall a, keeps I (k a)) -> keeps I (bind m k).
Proof. intros Hm Hk. eapply hoare_bind; [exact Hm|exact Hk]. Qed.

Lemma keeps_try_catch {A} (I : World -> Prop) (m : M A) h :
  keeps I m -> (forall e, keeps I (h e)) -> keeps I (try_catch m h).
Proof. intros Hm Hh. eapply hoare_try_catch; [exact Hm|exact Hh]. Qed.

Lemma keeps_ret {A} (I : World -> Prop) (a : A) : keeps I (ret a).
Proof. apply hoare_ret; auto. Qed.

Lemma keeps_throw {A} (I : World -> Prop) e : keeps I (@throw A e).
Proof. apply hoare_throw; auto. Qed.

(** ** Facts about the two tables *)

Lemma find_map_stable {A} (p : A -> bool) (f : A -> A) (l : list A) :
  (forall x, p (f x) = p x) ->
  find p (map f l) = option_map f (find p l).
Proof.
  intros H. induction l as [|x l IH]; simpl; [reflexivity|].
  rewrite H. destruct (p x); [reflexivity | exact IH].
Qed.

Lemma find_app {A} (p : A -> bool) (l l' : list A) :
  find p (l ++ l') = match find p l with
                     | Some x => Some x
                     | None => find p l'
                     end.
Proof.
  induction l as [|x l IH]; simpl; [reflexivity|].
  destruct (p x); [reflexivity | exact IH].
Qed.

Lemma find_none_existsb {A} (p : A -> bool) (l : list A) :
  existsb p l = false <-> find p l = None.
Proof.
  induction l as [|x l IH]; simpl; [tauto|].
  destruct (p x); simpl; [split; discriminate | exact IH].
Qed.

Lemma has_id_after_update i id u t :
  Db.has_id i
    (if Db.has_id id t
     then Db.set_row (Transaction.status u) (Transaction.processorReference u)
            (Transaction.metadata u) (Transaction.updatedAt u)
            (Transaction.completedAt u) t
     else t)
  = Db.has_id i t.
Proof. destruct (Db.has_id id t); reflexivity. Qed.

Lemma updateTransaction_run env id u w t :
  find_tx w id = Some t ->
  LedgerManager.updateTransaction env id u w
  = (Ok (LedgerManager.spread t u (clock env (tick w))),
     set_transactions
       (rows_after_update id (LedgerManager.spread t u (clock env (tick w)))
          (transactions w)) w).
Proof.
  intros H. unfold LedgerManager.updateTransaction.
  rewrite (bind_ok _ _ _ _ _ (getTransaction_run id w)), H.
  reflexivity.
Qed.

Lemma updateTransaction_missing env id u w :
  find_tx w id = None ->
  LedgerManager.updateTransaction env id u w
  = (Throw (JsError "Transaction not found"), w).
Proof.
  intros H. unfold LedgerManager.updateTransaction.
  rewrite (bind_ok _ _ _ _ _ (getTransaction_run id w)), H.
  reflexivity.
Qed.

Lemma updateTransactionStatus_run env id s w t :
  find_tx w id = Some t ->
  LedgerManager.updateTransactionStatus env id s w
  = (let u := LedgerManager.spread t
                (LedgerManager.mkUpdates (Some s) None
                   (if TransactionStatus_eqb s completed
                    then Some (clock env (tick w)) else None))
                (clock env (tick w)) in
     (Ok u, set_transactions (rows_after_update id u (transactions w)) w)).
Proof.
  intros H. unfold LedgerManager.updateTransactionStatus.
  unfold bind at 1. simpl.
  now rewrite (updateTransaction_run env id _ w t H).
Qed.

Lemma createTransaction_inv env d w t w1 :
  LedgerManager.createTransaction env d w = (Ok t, w1) ->
  t = Transaction.mk (gen_id env (tick w)) (LedgerManager.d_payerId d)
        (LedgerManager.d_payeeId d) (LedgerManager.d_amount d)
        (LedgerManager.d_currency d) (LedgerManager.d_status d)
        (LedgerManager.d_paymentMethod d) None (LedgerManager.d_metadata d)
        (clock env (S (tick w))) (clock env (S (tick w))) None
  /\ find_tx w (gen_id env (tick w)) = None
  /\ 0 < LedgerManager.d_amount d
  /\ LedgerManager.d_payerId d <> LedgerManager.d_payeeId d
  /\ w1 = mkWorld (accounts w) (transactions w ++ [t]) (S (tick w))
            (gateway_calls w) (events w).
Proof.
  unfold LedgerManager.createTransaction, LedgerManager.generateId,
    LedgerManager.now, Db.insert_transaction, bind, get, put, ret, throw.
  simpl.
  destruct (Z.ltb_spec 0 (LedgerManager.d_amount d)); simpl;
    [|discriminate].
  destruct (String.eqb_spec (LedgerManager.d_payerId d)
              (LedgerManager.d_payeeId d)); [discriminate|].
  destruct (existsb _ _) eqn:Ex; [discriminate|].
  intros Heq. inversion Heq; subst; clear Heq.
  repeat split; auto.
  now apply find_none_existsb.
Qed.

(** ** Frames: which table a method can write *)

Lemma preserves_transactions_bind {A B} (m : M A) (k : A -> M B) :
  preserves_transactions m -> (forall a, preserves_transactions (k a)) ->
  preserves_transactions (bind m k).
Proof.
  intros Hm Hk w. unfold bind. specialize (Hm w).
  destruct (m w) as [[a|e] w']; simpl in *; [|exact Hm].
  now rewrite Hk.
Qed.

Lemma preserves_accounts_bind {A B} (m : M A) (k : A -> M B) :
  preserves_accounts m -> (forall a, preserves_accounts (k a)) ->
  preserves_accounts (bind m k).
Proof.
  intros Hm Hk w. unfold bind. specialize (Hm w).
  destruct (m w) as [[a|e] w']; simpl in *; [|exact Hm].
  now rewrite Hk.
Qed.

Lemma preserves_transactions_ret {A} (a : A) : preserves_transactions (ret a).
Proof. intros w. reflexivity. Qed.

Lemma preserves_accounts_ret {A} (a : A) : preserves_accounts (ret a).
Proof. intros w. reflexivity. Qed.

Lemma preserves_transactions_throw {A} e : preserves_transactions (@throw A e).
Proof. intros w. reflexivity. Qed.

Lemma preserves_accounts_throw {A} e : preserves_accounts (@throw A e).
Proof. intros w. reflexivity. Qed.

Create HintDb frames.

(** Splits a frame goal along the structure of the computation. *)
Ltac frame :=
  repeat first
    [ solve [auto with frames]
    | solve [intros w; reflexivity]
    | apply preserves_transactions_bind; [|intros ?]
    | apply preserves_accounts_bind; [|intros ?]
    | match goal with
      | |- preserves_transactions (if ?b then _ else _) => destruct b
      | |- preserves_accounts (if ?b then _ else _) => destruct b
      | |- preserves_transactions (match ?x with _ => _ end) => destruct x
      | |- preserves_accounts (match ?x with _ => _ end) => destruct x
      end ].


Lemma generateId_transactions env :
  preserves_transactions (LedgerManager.generateId env).
Proof. intros w. reflexivity. Qed.

Lemma generateId_accounts env :
  preserves_accounts (LedgerManager.generateId env).
Proof. intros w. reflexivity. Qed.

Lemma insert_account_transactions a :
  preserves_transactions (Db.insert_account a).
Proof.
  intros w. unfold Db.insert_account, bind, get, put, throw. simpl.
  repeat match goal with
         | |- context [if ?b then _ else _] => destruct b
         end; reflexivity.
Qed.

Lemma update_balance_transactions d n o c :
  preserves_transactions (Db.update_balance d n o c).
Proof.
  intros w. unfold Db.update_balance, bind, get, put, throw. simpl.
  destruct (existsb _ _); reflexivity.
Qed.

Lemma insert_transaction_accounts t :
  preserves_accounts (Db.insert_transaction t).
Proof.
  intros w. unfold Db.insert_transaction, bind, get, put, throw. simpl.
  repeat match goal with
         | |- context [if ?b then _ else _] => destruct b
         end; reflexivity.
Qed.

#[export] Hint Resolve generateId_transactions generateId_accounts
  insert_account_transactions update_balance_transactions
  insert_transaction_accounts : frames.

Lemma ensureAccount_transactions env o c :
  preserves_transactions (LedgerManager.ensureAccount env o c).
Proof. unfold LedgerManager.ensureAccount, Db.select_account_ids. frame. Qed.

#[export] Hint Resolve ensureAccount_transactions : frames.

Lemma updateBalances_transactions env p q a c :
  preserves_transactions (LedgerManager.updateBalances env p q a c).
Proof. unfold LedgerManager.updateBalances, LedgerManager.now. frame. Qed.

Lemma createTransaction_accounts env d :
  preserves_accounts (LedgerManager.createTransaction env d).
Proof. unfold LedgerManager.createTransaction, LedgerManager.now. frame. Qed.

Lemma updateTransaction_accounts env id u :
  preserves_accounts (LedgerManager.updateTransaction env id u).
Proof.
  unfold LedgerManager.updateTransaction, LedgerManager.getTransaction,
    LedgerManager.now, Db.select_transaction, Db.update_transaction.
  frame.
Qed.

#[export] Hint Resolve updateBalances_transactions createTransaction_accounts
  updateTransaction_accounts : frames.

Lemma updateTransactionStatus_accounts env id s :
  preserves_accounts (LedgerManager.updateTransactionStatus env id s).
Proof.
  unfold LedgerManager.updateTransactionStatus, LedgerManager.now. frame.
Qed.

Lemma processPayment_transactions env pc a c m :
  preserves_transactions (PaymentProcessor.processPayment env pc a c m).
Proof.
  unfold PaymentProcessor.processPayment,
    PaymentProcessor.processStripePayment,
    PaymentProcessor.processPayPalPayment,
    PaymentProcessor.processSquarePayment,
    PaymentProcessor.processMockPayment,
    PaymentProcessor.test_mode_payment, PaymentProcessor.fresh_token,
    PaymentProcessor.math_random, returned_without_await, bind, get,
    put, ret, throw.
  intros w. simpl.
  destruct (provider pc); simpl; try reflexivity;
    repeat match goal with
           | |- context [if ?b then _ else _] => destruct b
           end; reflexivity.
Qed.

Lemma processPayment_accounts env pc a c m :
  preserves_accounts (PaymentProcessor.processPayment env pc a c m).
Proof.
  unfold PaymentProcessor.processPayment,
    PaymentProcessor.processStripePayment,
    PaymentProcessor.processPayPalPayment,
    PaymentProcessor.processSquarePayment,
    PaymentProcessor.processMockPayment,
    PaymentProcessor.test_mode_payment, PaymentProcessor.fresh_token,
    PaymentProcessor.math_random, returned_without_await, bind, get,
    put, ret, throw.
  intros w. simpl.
  destruct (provider pc); simpl; try reflexivity;
    repeat match goal with
           | |- context [if ?b then _ else _] => destruct b
           end; reflexivity.
Qed.

Lemma processRefund_transactions pc r a c :
  preserves_transactions (PaymentProcessor.processRefund pc r a c).
Proof.
  unfold PaymentProcessor.processRefund, PaymentProcessor.processStripeRefund,
    PaymentProcessor.processPayPalRefund,
    PaymentProcessor.processSquareRefund, PaymentProcessor.processMockRefund,
    PaymentProcessor.test_mode_refund, returned_without_await, bind, get,
    put, ret, throw.
  intros w. simpl.
  destruct (provider pc); simpl; try reflexivity;
    repeat match goal with
           | |- context [if ?b then _ else _] => destruct b
           end; reflexivity.
Qed.

Lemma processRefund_accounts pc r a c :
  preserves_accounts (PaymentProcessor.processRefund pc r a c).
Proof.
  unfold PaymentProcessor.processRefund, PaymentProcessor.processStripeRefund,
    PaymentProcessor.processPayPalRefund,
    PaymentProcessor.processSquareRefund, PaymentProcessor.processMockRefund,
    PaymentProcessor.test_mode_refund, returned_without_await, bind, get,
    put, ret, throw.
  intros w. simpl.
  destruct (provider pc); simpl; try reflexivity;
    repeat match goal with
           | |- context [if ?b then _ else _] => destruct b
           end; reflexivity.
Qed.

Lemma emit_transactions env ev t :
  preserves_transactions (PaymentService.emit env ev t).
Proof. unfold PaymentService.emit. frame. Qed.

Lemma emit_accounts env ev t :
  preserves_accounts (PaymentService.emit env ev t).
Proof. unfold PaymentService.emit. frame. Qed.

#[export] Hint Resolve updateTransactionStatus_accounts
  processPayment_transactions processPayment_accounts
  processRefund_transactions processRefund_accounts
  emit_transactions emit_accounts : frames.

(** A property of the [transactions] table alone is kept by whatever leaves
    the table alone; likewise for [accounts]. *)
Lemma keeps_by_transactions {A} (P : list Transaction.t -> Prop) (m : M A) :
  preserves_transactions m -> keeps (fun w => P (transactions w)) m.
Proof.
  intros H w Hw. specialize (H w).
  destruct (m w) as [[a|e] w']; simpl in *; now rewrite H.
Qed.

Lemma keeps_by_accounts {A} (P : list Account.t -> Prop) (m : M A) :
  preserves_accounts m -> keeps (fun w => P (accounts w)) m.
Proof.
  intros H w Hw. specialize (H w).
  destruct (m w) as [[a|e] w']; simpl in *; now rewrite H.
Qed.

(** ** The row created by a call *)

Lemma find_has_id_none tid (old : list Transaction.t) :
  find (Db.has_id tid) old = None ->
  forall t, In t old -> Db.has_id tid t = false.
Proof.
  intros H t Hin. exact (find_none (Db.has_id tid) old H t Hin).
Qed.

Lemma rows_after_update_appended old tid t u :
  find (Db.has_id tid) old = None ->
  Transaction.id t = tid ->
  rows_after_update tid u (old ++ [t])
  = (old ++ [Db.set_row (Transaction.status u)
               (Transaction.processorReference u) (Transaction.metadata u)
               (Transaction.updatedAt u) (Transaction.completedAt u) t])%list.
Proof.
  intros Hold Hid. unfold rows_after_update. rewrite map_app. f_equal.
  - rewrite <- (map_id old) at 2. apply map_ext_in. intros r Hr.
    now rewrite (find_has_id_none tid old Hold r Hr).
  - simpl. unfold Db.has_id at 1. rewrite Hid, String.eqb_refl. reflexivity.
Qed.

Lemma find_tx_appended old tid P w :
  find (Db.has_id tid) old = None ->
  appended_row old tid P w ->
  exists t, transactions w = (old ++ [t])%list /\ Transaction.id t = tid
            /\ P t /\ find_tx w tid = Some t.
Proof.
  intros Hold (t & Ht & Hid & HP). exists t. repeat split; auto.
  unfold find_tx. rewrite Ht, find_app, Hold. simpl.
  unfold Db.has_id. now rewrite Hid, String.eqb_refl.
Qed.

Lemma set_row_spread t u n :
  let s := LedgerManager.spread t u n in
  Db.set_row (Transaction.status s) (Transaction.processorReference s)
    (Transaction.metadata s) (Transaction.updatedAt s)
    (Transaction.completedAt s) t = s.
Proof. reflexivity. Qed.

(** [updateTransaction] on the appended row rewrites that row alone, and
    keeps every property of it that the spread keeps. *)
Lemma updateTransaction_appended env old tid (P : Transaction.t -> Prop) u :
  find (Db.has_id tid) old = None ->
  (forall t n, P t -> P (LedgerManager.spread t u n)) ->
  hoare (appended_row old tid P)
    (LedgerManager.updateTransaction env tid u)
    (fun t w => appended_row old tid P w /\ Transaction.id t = tid /\ P t)
    (appended_row old tid P).
Proof.
  intros Hold HP w Hw.
  destruct (find_tx_appended old tid P w Hold Hw) as (t & Ht & Hid & HPt & Hf).
  rewrite (updateTransaction_run env tid u w t Hf).
  split; [|split; [exact Hid | now apply HP]].
  exists (LedgerManager.spread t u (clock env (tick w))).
  split; [|split; [exact Hid | now apply HP]].
  simpl. rewrite Ht, (rows_after_update_appended old tid t _ Hold Hid).
  now rewrite set_row_spread.
Qed.

Lemma updateTransactionStatus_appended env old tid
    (P : Transaction.t -> Prop) s :
  find (Db.has_id tid) old = None ->
  (forall t u n, P t -> P (LedgerManager.spread t
                              (LedgerManager.mkUpdates (Some s) None u) n)) ->
  hoare (appended_row old tid P)
    (LedgerManager.updateTransactionStatus env tid s)
    (fun t w => appended_row old tid P w /\ Transaction.id t = tid /\ P t)
    (appended_row old tid P).
Proof.
  intros Hold HP w Hw. unfold LedgerManager.updateTransactionStatus.
  unfold bind at 1. simpl.
  apply (updateTransaction_appended env old tid P _ Hold); auto.
Qed.

Lemma keeps_appended_row {A} old tid P (m : M A) :
  preserves_transactions m -> keeps (appended_row old tid P) m.
Proof.
  intros H.
  exact (keeps_by_transactions
           (fun l => exists t, l = (old ++ [t])%list
                               /\ Transaction.id t = tid /\ P t) m H).
Qed.

Lemma validateTransaction_independent cfg req w w' :
  fst (PaymentService.validateTransaction cfg req w)
  = fst (PaymentService.validateTransaction cfg req w').
Proof.
  unfold PaymentService.validateTransaction.
  repeat match goal with
         | |- context [if ?b then _ else _] => destruct b
         end; reflexivity.
Qed.

Lemma bind_inv_ok {A B} (m : M A) (k : A -> M B) w b w' :
  bind m k w = (Ok b, w') ->
  exists a w1, m w = (Ok a, w1) /\ k a w1 = (Ok b, w').
Proof.
  unfold bind. destruct (m w) as [[a|e] w1]; [|discriminate].
  intros H. now exists a, w1.
Qed.

Lemma hoare_bind_keeps {A B} (I : World -> Prop) (m : M A) (k : A -> M B)
    Q :
  keeps I m -> (forall a, hoare I (k a) Q I) -> hoare I (bind m k) Q I.
Proof. intros Hm Hk. eapply hoare_bind; [exact Hm|exact Hk]. Qed.

Lemma hoare_pure {A} (I : World -> Prop) (phi : Prop) (m : M A) Q E :
  (phi -> hoare I m Q E) -> hoare (fun w => I w /\ phi) m Q E.
Proof. intros H w [Hw Hphi]. exact (H Hphi w Hw). Qed.

Lemma hoare_forget {A} (I J : World -> Prop) (m : M A) Q E :
  hoare I m Q E -> hoare (fun w => I w /\ J w) m Q E.
Proof. intros H w [Hw _]. exact (H w Hw). Qed.

Lemma hoare_value {A} (I : World -> Prop) (m : M A)
    (Q : A -> World -> Prop) :
  hoare I m (fun a w => I w /\ Q a w) I -> keeps I m.
Proof.
  intros H. eapply hoare_conseq; [exact H|auto|simpl; tauto|auto].
Qed.

(** A call that wrote a new row tagged with its key and succeeded: the row
    is what the key now finds, and it is the transaction of the result. *)
Lemma created_row_is_found env cfg req w key r1 w1 :
  req_idempotencyKey req = Some key ->
  key <> "" ->
  find_key w key = None ->
  PaymentService.processTransaction env cfg req w = (Ok r1, w1) ->
  success r1 = true ->
  exists t1 t2, transaction r1 = Some t1 /\ find_key w1 key = Some t2
                /\ Transaction.id t2 = Transaction.id t1.
Proof.
  intros Hk Hne Hnone Hrun Hs.
  unfold PaymentService.processTransaction, try_catch in Hrun.
  destruct (PaymentService.processTransaction_body env cfg req w)
    as [[r|e] wb] eqn:Eb.
  2:{ inversion Hrun; subst. discriminate. }
  inversion Hrun; subst r1 w1; clear Hrun.
  unfold PaymentService.processTransaction_body in Eb.
  apply bind_inv_ok in Eb as ([] & wv & Ev & Eb).
  assert (wv = w) as ->.
  { pose proof (validateTransaction_pure cfg req w) as Hp.
    now rewrite Ev in Hp. }
  rewrite Hk, (truthy_string_some _ Hne) in Eb.
  rewrite (bind_ok _ _ _ _ _ (findByIdempotencyKey_run key w)), Hnone in Eb.
  apply bind_inv_ok in Eb as (t & wc & Ec & Eb).
  apply createTransaction_inv in Ec as (Ht & Hfresh & _ & _ & Hwc).
  simpl in Ht.
  set (tid := Transaction.id t) in *.
  assert (Htid : tid = gen_id env (tick w)) by (unfold tid; now rewrite Ht).
  rewrite <- Htid in Hfresh.
  set (P := fun x : Transaction.t =>
              idempotencyKey (Transaction.metadata x) = Some key).
  set (I := appended_row (transactions w) tid P).
  assert (HI : I wc).
  { exists t. rewrite Hwc. repeat split. unfold P. now rewrite Ht. }
  assert (HP : forall x u n, P x -> P (LedgerManager.spread x u n))
    by (intros x u n Hx; exact Hx).
  assert (Hstatus : forall s, keeps I
            (LedgerManager.updateTransactionStatus env tid s)).
  { intros s. eapply hoare_value.
    apply updateTransactionStatus_appended; auto. }
  match type of Eb with
  | ?m wc = _ =>
      assert (Hh : hoare I m
                (fun r w' => I w' /\
                   (success r = true ->
                    exists t1, transaction r = Some t1
                               /\ Transaction.id t1 = tid)) I)
  end.
  { eapply hoare_bind
      with (R := fun d w' => I w' /\ forall r, d = Some r -> success r = false).
    - destruct (req_paymentMethod req) as [pm|];
        [destruct (PaymentService.requiresPaymentProcessing _ _)|];
        try (apply hoare_ret; intros w' Hw'; split; [auto|discriminate]).
      apply hoare_bind_keeps; [apply Hstatus|intros _].
      apply hoare_bind_keeps;
        [apply keeps_appended_row; auto with frames|intros result].
      destruct (negb (charge_success result)).
      + apply hoare_bind_keeps; [apply Hstatus|intros _].
        apply hoare_ret. intros w' Hw'. split; [auto|].
        intros r' Hr'. inversion Hr'. reflexivity.
      + apply hoare_bind_keeps.
        { eapply hoare_value. apply updateTransaction_appended; auto. }
        intros _. apply hoare_ret. intros w' Hw'. split; [auto|discriminate].
    - intros [r'|].
      + apply hoare_ret. intros w' [Hw' Hd]. split; [auto|].
        intros Hs'. rewrite (Hd r' eq_refl) in Hs'. discriminate.
      + apply hoare_forget.
        apply hoare_bind_keeps;
          [apply keeps_appended_row; auto with frames|intros _].
        eapply hoare_bind.
        { apply (updateTransactionStatus_appended env (transactions w) tid P);
            auto. }
        intros c. simpl.
        apply (hoare_pure I (Transaction.id c = tid /\ P c)). intros [Hc _].
        apply hoare_bind_keeps;
          [apply keeps_appended_row; auto with frames|intros _].
        apply hoare_ret. intros w' Hw'. split; [auto|].
        intros _. exists c. split; [reflexivity|exact Hc]. }
  specialize (Hh wc HI). rewrite Eb in Hh. destruct Hh as [HIb Hres].
  destruct (Hres Hs) as (t1 & Ht1 & Hid1).
  destruct HIb as (t2 & Htx & Hid2 & HP2).
  exists t1, t2. repeat split; auto.
  - unfold find_key. rewrite Htx, find_app.
    fold (find_key w key). rewrite Hnone. simpl.
    unfold Db.has_key. rewrite HP2, String.eqb_refl. reflexivity.
  - congruence.
Qed.

(** ** Idempotence of a retried request *)

(** C3, as amended: for every non-empty idempotency key, if a call carrying
    the key returns success with a transaction, then a second call with the
    same request returns success with a transaction of the same id, and the
    second call leaves the world as it was: no new row, no gateway call, no
    balance change. *)
Theorem retried_request_returns_same_transaction env cfg req w key r1 w1 t1 :
  req_idempotencyKey req = Some key ->
  key <> "" ->
  PaymentService.processTransaction env cfg req w = (Ok r1, w1) ->
  success r1 = true ->
  transaction r1 = Some t1 ->
  exists t2,
    PaymentService.processTransaction env cfg req w1
    = (Ok (PaymentService.succeeded t2), w1)
    /\ Transaction.id t2 = Transaction.id t1.
Proof.
  intros Hk Hne Hrun Hs Ht1.
  assert (Hv : fst (PaymentService.validateTransaction cfg req w) = Ok tt).
  { destruct (fst (PaymentService.validateTransaction cfg req w))
      as [[]|e] eqn:Ev; [reflexivity|exfalso].
    unfold PaymentService.processTransaction,
      PaymentService.processTransaction_body in Hrun.
    erewrite try_catch_throw in Hrun.
    2:{ apply bind_throw.
        rewrite (surjective_pairing (PaymentService.validateTransaction _ _ _)).
        rewrite Ev. reflexivity. }
    inversion Hrun; subst. discriminate. }
  assert (Hv1 : fst (PaymentService.validateTransaction cfg req w1) = Ok tt)
    by (rewrite <- Hv; apply validateTransaction_independent).
  destruct (find_key w key) as [e|] eqn:Hf.
  - rewrite (processTransaction_replay env cfg req w key e Hv Hk Hne Hf)
      in Hrun.
    inversion Hrun; subst r1 w1; clear Hrun.
    simpl in Ht1. inversion Ht1; subst t1.
    exists e. split; [|reflexivity].
    now apply (processTransaction_replay env cfg req w key e).
  - destruct (created_row_is_found env cfg req w key r1 w1 Hk Hne Hf Hrun Hs)
      as (t1' & t2 & Ht1' & Hf2 & Hid).
    exists t2. split; [|congruence].
    now apply (processTransaction_replay env cfg req w1 key t2).
Qed.

Lemma retried_request_returns_same_transaction_witness :
  exists t2,
    PaymentService.processTransaction Scenario.env Scenario.config
      Scenario.keyed_request Scenario.keyed_world
    = (Ok (PaymentService.succeeded t2), Scenario.keyed_world)
    /\ Transaction.id t2 = Transaction.id Scenario.keyed_transaction.
Proof.
  apply (retried_request_returns_same_transaction Scenario.env
           Scenario.config Scenario.keyed_request Scenario.empty_world "k1"
           (PaymentService.succeeded Scenario.keyed_transaction)
           Scenario.keyed_world Scenario.keyed_transaction).
  - reflexivity.
  - discriminate.
  - vm_compute. reflexivity.
  - reflexivity.
  - reflexivity.
Defined.

(** C3 as stated fails in two ways.  With the empty key, which is falsy,
    two calls write two rows with different ids and credit the payee twice.
    With a key whose first call is declined by the processor, the first
    result is a failure, and the second call returns [success: true] with
    the failed transaction. *)
Lemma retry_counterexample :
  (let req := Scenario.transfer SELF_ENTITY "user_1" 499900 None (Some "") in
   let run1 := PaymentService.processTransaction Scenario.env Scenario.config
                 req Scenario.empty_world in
   let run2 := PaymentService.processTransaction Scenario.env Scenario.config
                 req (snd run1) in
   (exists t1 t2, fst run1 = Ok (PaymentService.succeeded t1)
                  /\ fst run2 = Ok (PaymentService.succeeded t2)
                  /\ Transaction.id t1 <> Transaction.id t2)
   /\ List.length (transactions (snd run1)) = 1%nat
   /\ List.length (transactions (snd run2)) = 2%nat
   /\ balanceOf (snd run1) "user_1" USD = Some 499900
   /\ balanceOf (snd run2) "user_1" USD = Some 999800)
  /\
  (let req := Scenario.transfer "user_1" SELF_ENTITY 499900
                (Some credit_card) (Some "k1") in
   let run1 := PaymentService.processTransaction Scenario.env_declining
                 Scenario.config req Scenario.empty_world in
   let run2 := PaymentService.processTransaction Scenario.env_declining
                 Scenario.config req (snd run1) in
   fst run1 = Ok (PaymentService.failure "PAYMENT_FAILED"
                    "Mock payment failed (random failure)")
   /\ exists t, fst run2 = Ok (PaymentService.succeeded t)
                /\ Transaction.status t = failed).
Proof.
  vm_compute. split; [split; [|repeat split]|split; [reflexivity|]].
  - eexists _, _. split; [reflexivity|]. split; [reflexivity|]. discriminate.
  - eexists. split; reflexivity.
Qed.

(** ** The processor's answer *)

Lemma find_tx_on_appended old tid t w :
  find (Db.has_id tid) old = None ->
  transactions w = (old ++ [t])%list ->
  Transaction.id t = tid ->
  find_tx w tid = Some t.
Proof.
  intros Hold Ht Hid. unfold find_tx. rewrite Ht, find_app, Hold. simpl.
  unfold Db.has_id. now rewrite Hid, String.eqb_refl.
Qed.

Lemma updateTransaction_on_appended env old tid t u w :
  find (Db.has_id tid) old = None ->
  transactions w = (old ++ [t])%list ->
  Transaction.id t = tid ->
  LedgerManager.updateTransaction env tid u w
  = (Ok (LedgerManager.spread t u (clock env (tick w))),
     set_transactions
       (old ++ [LedgerManager.spread t u (clock env (tick w))]) w).
Proof.
  intros Hold Ht Hid.
  rewrite (updateTransaction_run env tid u w t
             (find_tx_on_appended old tid t w Hold Ht Hid)).
  rewrite Ht, (rows_after_update_appended old tid t _ Hold Hid).
  now rewrite set_row_spread.
Qed.

Lemma updateTransactionStatus_on_appended env old tid t s w :
  find (Db.has_id tid) old = None ->
  transactions w = (old ++ [t])%list ->
  Transaction.id t = tid ->
  LedgerManager.updateTransactionStatus env tid s w
  = (let u := LedgerManager.spread t
                (LedgerManager.mkUpdates (Some s) None
                   (if TransactionStatus_eqb s completed
                    then Some (clock env (tick w)) else None))
                (clock env (tick w)) in
     (Ok u, set_transactions (old ++ [u]) w)).
Proof.
  intros Hold Ht Hid. unfold LedgerManager.updateTransactionStatus.
  unfold bind at 1. simpl.
  now rewrite (updateTransaction_on_appended env old tid t _ w Hold Ht Hid).
Qed.

(** The idempotency lookup of a request that is no replay. *)
Lemma lookup_finds_nothing req w :
  no_replay req w ->
  (if truthy_string (req_idempotencyKey req)
   then match req_idempotencyKey req with
        | Some key => LedgerManager.findByIdempotencyKey key
        | None => ret None
        end
   else ret None) w = (Ok None, w).
Proof.
  unfold no_replay. intros H.
  destruct (req_idempotencyKey req) as [key|]; [|reflexivity].
  simpl. destruct (String.eqb_spec key ""); [reflexivity|]. simpl.
  rewrite findByIdempotencyKey_run. now rewrite (H key eq_refl).
Qed.

Lemma frame_run {A} (m : M A) w :
  preserves_transactions m -> preserves_accounts m ->
  forall o w', m w = (o, w') ->
    transactions w' = transactions w /\ accounts w' = accounts w.
Proof.
  intros Ht Ha o w' E. specialize (Ht w). specialize (Ha w).
  rewrite E in Ht, Ha. now split.
Qed.

Lemma bind_assoc {A B C} (m : M A) (f : A -> M B) (g : B -> M C) w :
  bind (bind m f) g w = bind m (fun x => bind (f x) g) w.
Proof. unfold bind. destruct (m w) as [[a|e] w']; reflexivity. Qed.

Lemma emit_run env ev t w :
  exists w', PaymentService.emit env ev t w = (Ok tt, w')
             /\ transactions w' = transactions w
             /\ accounts w' = accounts w.
Proof.
  unfold PaymentService.emit. destruct (eventBus env); eexists;
    (split; [reflexivity|split; reflexivity]).
Qed.



(** ** A refund the processor declines *)

(** When the processor's refund returns an answer with [success: false],
    which only a provider unknown to its [switch] makes it do, the call
    returns the error code REFUND_FAILED, the refund transaction is stored
    with status 'failed', the accounts table is exactly what it was, and
    the original is stored as before, status 'completed' included. *)
Lemma declined_refund_is_marked_failed env cfg rreq w orig reference rt wc
    result wp :
  truthy_bool (refundsEnabled cfg) = true ->
  find_tx w (transactionId rreq) = Some orig ->
  Transaction.status orig = completed ->
  Transaction.processorReference orig = Some reference ->
  reference <> "" ->
  LedgerManager.createTransaction env
    (PaymentService.refund_data rreq orig) w = (Ok rt, wc) ->
  PaymentProcessor.processRefund (processor cfg) reference
    (PaymentService.refundAmount rreq orig) (Transaction.currency orig) wc
  = (Ok result, wp) ->
  refund_success result = false ->
  let run := PaymentService.processRefund env cfg rreq w in
  fst run = Ok (PaymentService.failure "REFUND_FAILED"
                  (or_string (refund_error result)
                     "Refund processing failed"))
  /\ (exists rt', find_tx (snd run) (Transaction.id rt) = Some rt'
                  /\ Transaction.status rt' = failed)
  /\ accounts (snd run) = accounts w
  /\ find_tx (snd run) (transactionId rreq) = Some orig.
Proof.
  intros Hen Horig Hst Href Hne Hc Hp Hres run.
  pose proof (createTransaction_inv env _ w rt wc Hc)
    as (Ht & Hfresh & _ & _ & Hwc).
  set (tid := Transaction.id rt) in *.
  assert (Htid : gen_id env (tick w) = tid) by (unfold tid; now rewrite Ht).
  rewrite Htid in Hfresh.
  assert (Htx : transactions wc = (transactions w ++ [rt])%list)
    by now rewrite Hwc.
  assert (Hacc : accounts wc = accounts w) by now rewrite Hwc.
  destruct (frame_run _ wc (processRefund_transactions _ _ _ _)
              (processRefund_accounts _ _ _ _) _ _ Hp) as [Htp Hap].
  rewrite Htx in Htp. rewrite Hacc in Hap.
  subst run.
  unfold PaymentService.processRefund, try_catch,
    PaymentService.processRefund_body.
  rewrite Hen. cbn [negb].
  rewrite (bind_ok _ _ _ _ _ (getTransaction_run _ w)), Horig.
  rewrite Hst. cbn [TransactionStatus_eqb negb]. cbv zeta.
  rewrite (bind_ok _ _ _ _ _ Hc).
  rewrite Href, (truthy_string_some _ Hne).
  rewrite !bind_assoc.
  rewrite (bind_ok _ _ _ _ _ Hp).
  rewrite Hres. cbn [negb].
  rewrite !bind_assoc. fold tid.
  rewrite (bind_ok _ _ _ _ _
             (updateTransactionStatus_on_appended env (transactions w) tid
                rt failed wp Hfresh Htp eq_refl)).
  simpl. repeat split; auto.
  - eexists. split.
    + apply (find_tx_on_appended (transactions w) tid);
        [exact Hfresh|reflexivity|reflexivity].
    + reflexivity.
  - unfold find_tx in *. simpl. rewrite find_app, Horig. reflexivity.
Qed.

(** ** Non-negativity of balances *)

Lemma validateTransaction_accounts cfg req :
  preserves_accounts (PaymentService.validateTransaction cfg req).
Proof. intros w. now rewrite validateTransaction_pure. Qed.

Lemma getTransaction_accounts id :
  preserves_accounts (LedgerManager.getTransaction id).
Proof. intros w. now rewrite getTransaction_run. Qed.

Lemma findByIdempotencyKey_accounts key :
  preserves_accounts (LedgerManager.findByIdempotencyKey key).
Proof. intros w. now rewrite findByIdempotencyKey_run. Qed.

#[export] Hint Resolve validateTransaction_accounts getTransaction_accounts
  findByIdempotencyKey_accounts : frames.

Create HintDb keeps.

(** Splits an invariant goal along the structure of the computation; a
    method that leaves the accounts alone keeps any property of them. *)
Ltac keeps_accounts P :=
  repeat first
    [ apply keeps_ret
    | apply keeps_throw
    | solve [auto with keeps]
    | solve [apply (keeps_by_accounts P);
             first [solve [auto with frames] | intros ?; reflexivity]]
    | apply keeps_bind; [|intros ?]
    | apply keeps_try_catch; [|intros ?]
    | match goal with
      | |- keeps _ (if ?b then _ else _) => destruct b
      | |- keeps _ (match ?x with _ => _ end) => destruct x
      end ].

Lemma insert_account_nonneg a :
  keeps balances_nonneg (Db.insert_account a).
Proof.
  intros w Hw. unfold Db.insert_account, bind, get, put, throw. simpl.
  destruct (Z.ltb_spec (Account.balance a) 0); [exact Hw|].
  destruct (existsb _ _); [exact Hw|].
  destruct (existsb _ _); [exact Hw|].
  unfold balances_nonneg, nonneg_rows in *. simpl.
  apply Forall_app. split; [exact Hw|]. constructor; [lia|constructor].
Qed.

Lemma update_balance_nonneg d n o c :
  keeps balances_nonneg (Db.update_balance d n o c).
Proof.
  intros w Hw. unfold Db.update_balance, bind, get, put, throw. simpl.
  destruct (existsb _ _) eqn:Ex; [exact Hw|].
  unfold balances_nonneg, nonneg_rows in *. simpl.
  apply Forall_map. rewrite Forall_forall in *. intros a Ha.
  destruct (Db.owns o c a) eqn:Eo; [|auto].
  simpl.
  destruct (Z.ltb_spec (Account.balance a + d) 0) as [Hlt|]; [|lia].
  exfalso. rewrite <- not_true_iff_false in Ex. apply Ex.
  apply existsb_exists. exists a. split; [exact Ha|].
  rewrite Eo. simpl. now apply Z.ltb_lt.
Qed.

#[export] Hint Resolve insert_account_nonneg update_balance_nonneg : keeps.

Lemma updateBalances_nonneg env p q a c :
  keeps balances_nonneg (LedgerManager.updateBalances env p q a c).
Proof.
  unfold LedgerManager.updateBalances, LedgerManager.ensureAccount,
    LedgerManager.now, Db.select_account_ids.
  keeps_accounts nonneg_rows.
Qed.

#[export] Hint Resolve updateBalances_nonneg : keeps.

Lemma processTransaction_nonneg env cfg req :
  keeps balances_nonneg (PaymentService.processTransaction env cfg req).
Proof.
  unfold PaymentService.processTransaction,
    PaymentService.processTransaction_body.
  keeps_accounts nonneg_rows.
Qed.

Lemma processRefund_nonneg env cfg req :
  keeps balances_nonneg (PaymentService.processRefund env cfg req).
Proof.
  unfold PaymentService.processRefund, PaymentService.processRefund_body.
  keeps_accounts nonneg_rows.
Qed.

Lemma keeps_snd {A} (I : World -> Prop) (m : M A) w :
  keeps I m -> I w -> I (snd (m w)).
Proof.
  intros H Hw. specialize (H w Hw). destruct (m w) as [[a|e] w']; exact H.
Qed.

Lemma after_calls_nonneg env cfg calls :
  forall w, balances_nonneg w -> balances_nonneg (after_calls env cfg calls w).
Proof.
  induction calls as [|c calls IH]; intros w Hw; [exact Hw|].
  simpl. apply IH. destruct c as [req|req]; simpl.
  - apply keeps_snd; [apply processTransaction_nonneg|exact Hw].
  - apply keeps_snd; [apply processRefund_nonneg|exact Hw].
Qed.

Lemma Currency_eqb_refl c : Currency_eqb c c = true.
Proof. destruct c; reflexivity. Qed.

Lemma owns_own id o ty b c st t1 t2 :
  Db.owns o c (Account.mk id o ty b c st t1 t2) = true.
Proof.
  unfold Db.owns. simpl. now rewrite String.eqb_refl, Currency_eqb_refl.
Qed.

Lemma row_balance_app rows extra o c :
  row_balance (rows ++ extra) o c
  = match row_balance rows o c with
    | Some b => Some b
    | None => row_balance extra o c
    end.
Proof.
  unfold row_balance. rewrite find_app.
  destruct (find (Db.owns o c) rows); reflexivity.
Qed.

(** ** A transfer the payer cannot cover *)

Section Overdraw.

Variables (rows0 : list Account.t) (payer : string) (cur : Currency)
          (amount : Z).

Let J (b : bool) (w : World) : Prop :=
  overdrawn rows0 payer cur amount b (accounts w).

Lemma insert_zero_row_overdrawn b id o c n :
  hoare (J b)
    (Db.insert_account (Account.mk id o user 0 c active n n))
    (fun _ w => J b w /\ row_balance (accounts w) o c <> None) (J b).
Proof.
  intros w Hw. unfold Db.insert_account, bind, get, put, throw. simpl.
  destruct (existsb _ _); [exact Hw|].
  destruct (existsb _ _); [exact Hw|].
  unfold J, overdrawn, balances_kept in *. simpl.
  destruct Hw as (Hk & Hlt & Hrow).
  assert (Hnew : row_balance [Account.mk id o user 0 c active n n] o c
                 = Some 0).
  { unfold row_balance. simpl. now rewrite owns_own. }
  split.
  - split; [|split].
    + intros o' c' b' Hb. rewrite row_balance_app, (Hk o' c' b' Hb).
      reflexivity.
    + rewrite row_balance_app.
      destruct (row_balance (accounts w) payer cur); [exact Hlt|].
      unfold row_balance. simpl.
      destruct (Db.owns payer cur _); simpl; exact Hlt.
    + intros Hb. rewrite row_balance_app.
      specialize (Hrow Hb).
      destruct (row_balance (accounts w) payer cur); [discriminate|].
      contradiction.
  - rewrite row_balance_app, Hnew.
    destruct (row_balance (accounts w) o c); discriminate.
Qed.

Lemma ensureAccount_overdrawn env b o c :
  o <> SELF_ENTITY ->
  hoare (J b) (LedgerManager.ensureAccount env o c)
    (fun _ w => J b w /\ row_balance (accounts w) o c <> None) (J b).
Proof.
  intros Ho. unfold LedgerManager.ensureAccount.
  destruct (String.eqb_spec o SELF_ENTITY); [contradiction|].
  intros w Hw. unfold bind at 1. unfold Db.select_account_ids at 1.
  unfold bind at 1. simpl.
  destruct (filter (Db.owns o c) (accounts w)) as [|x rest] eqn:Ef; simpl.
  - unfold bind at 1. simpl. unfold bind at 1. simpl.
    apply (insert_zero_row_overdrawn b). exact Hw.
  - split; [exact Hw|].
    unfold row_balance. rewrite <- hd_filter_find, Ef. discriminate.
Qed.

Lemma overdrawn_weaken b w : J true w -> J b w.
Proof.
  unfold J, overdrawn. intros (Hk & Hlt & Hrow).
  repeat split; auto.
Qed.

Lemma update_balance_overdrawn n :
  hoare (J true) (Db.update_balance (- amount) n payer cur)
    (fun _ _ => False) (J true).
Proof.
  intros w Hw. unfold Db.update_balance, bind, get, put, throw. simpl.
  destruct (existsb _ _) eqn:Ex; [exact Hw|].
  exfalso. rewrite <- not_true_iff_false in Ex. apply Ex. clear Ex.
  destruct Hw as (_ & Hlt & Hrow). specialize (Hrow eq_refl).
  unfold row_balance in *.
  destruct (find (Db.owns payer cur) (accounts w)) as [x|] eqn:Ef;
    [|contradiction].
  simpl in Hlt. apply find_some in Ef as [Hin Hown].
  apply existsb_exists. exists x. split; [exact Hin|].
  rewrite Hown. simpl. apply Z.ltb_lt. lia.
Qed.

Lemma hoare_false {A} (m : M A) Q (E : World -> Prop) :
  hoare (fun _ => False) m Q E.
Proof. intros w []. Qed.

Lemma updateBalances_overdrawn env payee :
  payer <> SELF_ENTITY ->
  hoare (J false) (LedgerManager.updateBalances env payer payee amount cur)
    (fun _ _ => False) (J false).
Proof.
  intros Hp. unfold LedgerManager.updateBalances.
  eapply hoare_bind with (R := fun _ w => J true w).
  { eapply hoare_conseq;
      [apply (ensureAccount_overdrawn env false payer cur Hp)|auto| |auto].
    intros _ w [(Hk & Hlt & _) Hrow]. repeat split; auto. }
  intros _.
  eapply hoare_bind with (R := fun _ w => J true w).
  { destruct (String.eqb_spec payee SELF_ENTITY) as [->|Hq].
    - unfold LedgerManager.ensureAccount. simpl. apply hoare_ret; auto.
    - eapply hoare_conseq;
        [apply (ensureAccount_overdrawn env true payee cur Hq)
        |auto|simpl; tauto|apply overdrawn_weaken]. }
  intros _.
  eapply hoare_bind with (R := fun _ _ => False);
    [|intros _; apply hoare_false].
  destruct (String.eqb_spec payer SELF_ENTITY); [contradiction|]. simpl.
  eapply hoare_bind with (R := fun _ w => J true w).
  { intros w Hw. exact Hw. }
  intros n'. eapply hoare_conseq;
    [apply update_balance_overdrawn|auto|auto|apply overdrawn_weaken].
Qed.

End Overdraw.

Lemma createTransaction_currency env d (I : World -> Prop)
    (P : list Account.t -> Prop) :
  (forall w, I w <-> P (accounts w)) ->
  hoare I (LedgerManager.createTransaction env d)
    (fun t w => I w /\ Transaction.currency t = LedgerManager.d_currency d) I.
Proof.
  intros HI w Hw.
  pose proof (createTransaction_accounts env d w) as Ha.
  destruct (LedgerManager.createTransaction env d w) as [[t|e] w'] eqn:E;
    simpl in Ha.
  - split; [apply HI; rewrite Ha; now apply HI|].
    apply createTransaction_inv in E as (Ht & _). now rewrite Ht.
  - apply HI. rewrite Ha. now apply HI.
Qed.

Lemma overdrawn_initially w payer cur amount :
  balance_or_zero w payer cur < amount ->
  overdrawn (accounts w) payer cur amount false (accounts w).
Proof.
  unfold balance_or_zero, balanceOf, overdrawn, balances_kept.
  intros H. repeat split; auto; [|discriminate].
  destruct (row_balance (accounts w) payer cur); exact H.
Qed.

(** C1 as stated fails on the scenario of the specification: user_2 holds
    10.00 and transfers 25.00 to user_3 without a payment method.  The
    rejection is the store's: the result carries the code TRANSACTION_ERROR,
    not InsufficientFunds, and the transaction is left in status 'pending',
    not 'failed'. *)
Lemma overdraft_counterexample :
  let run := PaymentService.processTransaction Scenario.env Scenario.config
               Scenario.overdraft_request Scenario.overdraft_world in
  balanceOf Scenario.overdraft_world "user_2" USD = Some 100000
  /\ req_amount Scenario.overdraft_request = 250000
  /\ (exists info, error (match fst run with
                          | Ok r => r
                          | Throw _ => mkResult true None None
                          end) = Some info
                   /\ code info = "TRANSACTION_ERROR"
                   /\ code info <> "InsufficientFunds")
  /\ (exists t, transactions (snd run) = [t]
                /\ Transaction.status t = pending
                /\ Transaction.status t <> failed).
Proof.
  vm_compute. repeat split.
  - eexists. repeat split. discriminate.
  - eexists. repeat split. discriminate.
Qed.

(** ** Transactions left open *)

(** C2 fails on the code.  A valid transfer whose balance shift is rejected
    by the store is answered with TRANSACTION_ERROR while its row stays
    'pending'; and a valid card payment through the live Stripe
    configuration, whose charge throws, is answered with TRANSACTION_ERROR
    while its row stays 'processing'.  The [catch] block of
    [processTransaction] never marks the transaction 'failed'. *)
Theorem failed_ledger_step_leaves_transaction_open :
  (let req := Scenario.overdraft_request in
   let w := Scenario.overdraft_world in
   let run := PaymentService.processTransaction Scenario.env Scenario.config
                req w in
   fst (PaymentService.validateTransaction Scenario.config req w) = Ok tt
   /\ fst run = Ok (PaymentService.failure "TRANSACTION_ERROR"
                      "violates constraint positive_balance")
   /\ exists t, find_tx (snd run) "id-00" = Some t
                /\ transactions (snd run) = [t]
                /\ Transaction.status t = pending)
  /\
  (let req := Scenario.charge_request in
   let w := Scenario.charge_world in
   let run := PaymentService.processTransaction Scenario.env
                Scenario.config_stripe_live req w in
   fst (PaymentService.validateTransaction Scenario.config_stripe_live req w)
   = Ok tt
   /\ fst run = Ok (PaymentService.failure "TRANSACTION_ERROR"
                      "Stripe integration not yet implemented")
   /\ exists t, find_tx (snd run) "id-00" = Some t
                /\ transactions (snd run) = [t]
                /\ Transaction.status t = processing).
Proof.
  vm_compute. repeat split; eexists; repeat split.
Qed.

(** ** A card payment to the platform *)

(** C5 fails on the code.  user_1 holds 0 and pays SELF 49.99 by card
    through a processor that succeeds.  The charge is made and its reference
    attached, but [updateBalances] then debits the payer's own ledger
    balance, the store rejects the negative balance, and the call returns
    TRANSACTION_ERROR with the transaction left in status 'processing'.
    The balance stays 0 because the statement failed. *)
Theorem card_payment_to_platform_is_not_completed :
  let w := Scenario.world_with [Scenario.account "acc-1" "user_1" 0] in
  let req := Scenario.transfer "user_1" SELF_ENTITY 499900
               (Some credit_card) None in
  let run := PaymentService.processTransaction Scenario.env Scenario.config
               req w in
  balanceOf w "user_1" USD = Some 0
  /\ fst run = Ok (PaymentService.failure "TRANSACTION_ERROR"
                     "violates constraint positive_balance")
  /\ gateway_calls (snd run) = [ChargeCall 499900 USD credit_card]
  /\ (exists t, transactions (snd run) = [t]
                /\ Transaction.status t = processing
                /\ Transaction.processorReference t = Some "mock_ref-02")
  /\ balanceOf (snd run) "user_1" USD = Some 0.
Proof.
  vm_compute. repeat split. eexists. repeat split.
Qed.

(** ** The accounts table under a balance shift *)

Lemma Currency_eqb_eq a b : Currency_eqb a b = true <-> a = b.
Proof. destruct a, b; simpl; split; congruence. Qed.

Lemma owns_true o c r :
  Db.owns o c r = true <-> Account.ownerId r = o /\ Account.currency r = c.
Proof.
  unfold Db.owns. rewrite andb_true_iff, String.eqb_eq, Currency_eqb_eq.
  tauto.
Qed.

Lemma owns_shift o c d n r : Db.owns o c (Db.shift d n r) = Db.owns o c r.
Proof. reflexivity. Qed.

Lemma owns_same_key o c o' c' r :
  Db.owns o c r = true ->
  Db.owns o' c' r = (o =? o')%string && Currency_eqb c c'.
Proof.
  intros H. apply owns_true in H as [Ho Hc]. unfold Db.owns.
  now rewrite Ho, Hc.
Qed.

(** The rows after [UPDATE accounts SET balance = balance + d]. *)
Lemma row_balance_shifted rows o1 c1 d n o c :
  row_balance
    (map (fun r => if Db.owns o1 c1 r then Db.shift d n r else r) rows) o c
  = option_map
      (fun b => if (o =? o1)%string && Currency_eqb c c1 then b + d else b)
      (row_balance rows o c).
Proof.
  unfold row_balance. rewrite find_map_stable.
  2:{ intros r. destruct (Db.owns o1 c1 r); reflexivity. }
  destruct (find (Db.owns o c) rows) as [x|] eqn:Ef; [|reflexivity].
  simpl. apply find_some in Ef as [_ Hx].
  rewrite (owns_same_key o c o1 c1 x Hx).
  destruct ((o =? o1)%string && Currency_eqb c c1); reflexivity.
Qed.

Lemma unique_owner_currency_found rows o c x :
  unique_owner_currencyb rows = true ->
  find (Db.owns o c) rows = Some x ->
  forall r, In r rows -> Db.owns o c r = true -> r = x.
Proof.
  induction rows as [|r0 rest IH]; simpl; [discriminate|].
  intros Hu Hf r Hin Hr. apply andb_true_iff in Hu as [Hn Hu].
  destruct (Db.owns o c r0) eqn:E0.
  - inversion Hf; subst x. destruct Hin as [->|Hin]; [reflexivity|].
    exfalso. apply negb_true_iff in Hn.
    rewrite <- not_true_iff_false in Hn. apply Hn.
    apply existsb_exists. exists r. split; [exact Hin|].
    apply owns_true in E0 as [-> ->]. exact Hr.
  - destruct Hin as [->|Hin]; [congruence|]. now apply IH.
Qed.

Lemma existsb_mapped {A B} (p : B -> bool) (f : A -> B) (l : list A) :
  existsb p (map f l) = existsb (fun x => p (f x)) l.
Proof.
  induction l as [|x l IH]; simpl; [reflexivity|]. now rewrite IH.
Qed.

Lemma existsb_same {A} (p q : A -> bool) (l : list A) :
  (forall x, p x = q x) -> existsb p l = existsb q l.
Proof.
  intros H. induction l as [|x l IH]; simpl; [reflexivity|].
  now rewrite H, IH.
Qed.

Lemma unique_owner_currency_shifted rows o c d n :
  unique_owner_currencyb rows = true ->
  unique_owner_currencyb
    (map (fun r => if Db.owns o c r then Db.shift d n r else r) rows) = true.
Proof.
  induction rows as [|r0 rest IH]; simpl; [reflexivity|].
  intros Hu. apply andb_true_iff in Hu as [Hn Hu].
  apply andb_true_iff. split; [|now apply IH].
  rewrite existsb_mapped.
  assert (Hkey : Account.ownerId
                   (if Db.owns o c r0 then Db.shift d n r0 else r0)
                 = Account.ownerId r0
                 /\ Account.currency
                      (if Db.owns o c r0 then Db.shift d n r0 else r0)
                    = Account.currency r0)
    by (destruct (Db.owns o c r0); split; reflexivity).
  destruct Hkey as [-> ->].
  erewrite existsb_same; [exact Hn|].
  intros r. simpl. destruct (Db.owns o c r); reflexivity.
Qed.

Lemma unique_owner_currency_appended rows a :
  unique_owner_currencyb rows = true ->
  existsb (Db.owns (Account.ownerId a) (Account.currency a)) rows = false ->
  unique_owner_currencyb (rows ++ [a]) = true.
Proof.
  induction rows as [|r0 rest IH]; simpl; [reflexivity|].
  intros Hu Hex. apply andb_true_iff in Hu as [Hn Hu].
  apply orb_false_iff in Hex as [H0 Hex].
  apply andb_true_iff. split; [|now apply IH].
  rewrite existsb_app. simpl. rewrite orb_false_r.
  apply negb_true_iff in Hn. rewrite Hn. simpl.
  apply negb_true_iff.
  destruct (Db.owns (Account.ownerId r0) (Account.currency r0) a) eqn:E;
    [|reflexivity].
  apply owns_true in E as [E1 E2]. unfold Db.owns in H0.
  now rewrite E1, E2, String.eqb_refl, Currency_eqb_refl in H0.
Qed.

Lemma ensureAccount_inv env o c w w' :
  LedgerManager.ensureAccount env o c w = (Ok tt, w') ->
  transactions w' = transactions w
  /\ (unique_owner_currencyb (accounts w) = true ->
      unique_owner_currencyb (accounts w') = true)
  /\ forall o' c',
       row_balance (accounts w') o' c'
       = match row_balance (accounts w) o' c' with
         | Some b => Some b
         | None =>
             if (o' =? o)%string && Currency_eqb c' c
                && negb (o =? SELF_ENTITY)%string
             then Some 0 else None
         end.
Proof.
  unfold LedgerManager.ensureAccount.
  destruct (String.eqb_spec o SELF_ENTITY) as [Ho|Ho].
  { intros H. inversion H; subst w'. repeat split; auto.
    intros o' c'. rewrite andb_false_r.
    destruct (row_balance (accounts w) o' c'); reflexivity. }
  unfold Db.select_account_ids, bind at 1, bind at 1, get, ret.
  destruct (filter (Db.owns o c) (accounts w)) as [|x rest] eqn:Ef; simpl.
  - unfold LedgerManager.generateId, LedgerManager.now, Db.insert_account,
      bind, get, put, ret, throw. simpl.
    destruct (existsb _ _) eqn:Epk; [discriminate|].
    destruct (existsb (Db.owns o c) (accounts w)) eqn:Eu; [discriminate|].
    intros H. inversion H; subst w'; clear H. simpl.
    split; [reflexivity|]. split.
    + intros Hu. now apply unique_owner_currency_appended.
    + intros o' c'. rewrite row_balance_app.
      destruct (row_balance (accounts w) o' c'); [reflexivity|].
      unfold row_balance. simpl. unfold Db.owns at 1. simpl.
      rewrite (String.eqb_sym o o'), (andb_true_r).
      replace (Currency_eqb c c') with (Currency_eqb c' c)
        by (destruct c, c'; reflexivity).
      destruct ((o' =? o)%string && Currency_eqb c' c); reflexivity.
  - intros H. inversion H; subst w'. repeat split; auto.
    intros o' c'.
    destruct (row_balance (accounts w) o' c') eqn:Er; [reflexivity|].
    destruct (String.eqb_spec o' o) as [->|]; [|reflexivity].
    destruct (Currency_eqb c' c) eqn:Ec; [|reflexivity].
    apply Currency_eqb_eq in Ec as ->.
    unfold row_balance in Er. rewrite <- hd_filter_find, Ef in Er.
    discriminate.
Qed.

Lemma update_balance_inv d n o c w w' :
  Db.update_balance d n o c w = (Ok tt, w') ->
  transactions w' = transactions w
  /\ (unique_owner_currencyb (accounts w) = true ->
      unique_owner_currencyb (accounts w') = true)
  /\ forall o' c',
       row_balance (accounts w') o' c'
       = option_map
           (fun b => if (o' =? o)%string && Currency_eqb c' c
                     then b + d else b)
           (row_balance (accounts w) o' c').
Proof.
  unfold Db.update_balance, bind, get, put, throw. simpl.
  destruct (existsb _ _); [discriminate|].
  intros H. inversion H; subst w'; clear H. simpl.
  split; [reflexivity|]. split.
  - apply unique_owner_currency_shifted.
  - intros o' c'. apply row_balance_shifted.
Qed.

Lemma update_balance_ok d n o c w :
  unique_owner_currencyb (accounts w) = true ->
  (forall b, row_balance (accounts w) o c = Some b -> 0 <= b + d) ->
  exists w', Db.update_balance d n o c w = (Ok tt, w').
Proof.
  intros Hu Hb. unfold Db.update_balance, bind, get, put, throw. simpl.
  destruct (existsb _ _) eqn:Ex; [exfalso|eexists; reflexivity].
  apply existsb_exists in Ex as (r & Hin & Hr).
  apply andb_true_iff in Hr as [Hown Hneg]. apply Z.ltb_lt in Hneg.
  destruct (find (Db.owns o c) (accounts w)) as [x|] eqn:Ef.
  - rewrite (unique_owner_currency_found _ o c x Hu Ef r Hin Hown) in Hneg.
    specialize (Hb (Account.balance x)). unfold row_balance in Hb.
    rewrite Ef in Hb. specialize (Hb eq_refl). lia.
  - pose proof (find_none _ _ Ef r Hin) as Hno. congruence.
Qed.

Lemma ensureAccount_ok env o c w :
  o = SELF_ENTITY \/ row_balance (accounts w) o c <> None ->
  LedgerManager.ensureAccount env o c w = (Ok tt, w).
Proof.
  intros H. unfold LedgerManager.ensureAccount.
  destruct (String.eqb_spec o SELF_ENTITY) as [Ho|Ho]; [reflexivity|].
  destruct H as [H|H]; [contradiction|].
  unfold Db.select_account_ids, bind at 1, bind at 1, get, ret.
  unfold row_balance in H. rewrite <- hd_filter_find in H.
  destruct (filter (Db.owns o c) (accounts w)); [contradiction|reflexivity].
Qed.

Lemma now_run env w : LedgerManager.now env w = (Ok (clock env (tick w)), w).
Proof. reflexivity. Qed.

Lemma conditional_update_inv env (run_it : bool) d o c w w' :
  (if run_it then n <- LedgerManager.now env ;; Db.update_balance d n o c
   else ret tt) w = (Ok tt, w') ->
  transactions w' = transactions w
  /\ (unique_owner_currencyb (accounts w) = true ->
      unique_owner_currencyb (accounts w') = true)
  /\ forall o' c',
       row_balance (accounts w') o' c'
       = option_map
           (fun b => if run_it && (o' =? o)%string && Currency_eqb c' c
                     then b + d else b)
           (row_balance (accounts w) o' c').
Proof.
  destruct run_it; simpl.
  - rewrite (bind_ok _ _ _ _ _ (now_run env w)). apply update_balance_inv.
  - intros H. inversion H; subst w'. repeat split; auto.
    intros o' c'. now destruct (row_balance (accounts w) o' c').
Qed.

(** What a successful [updateBalances] leaves in the accounts table. *)
Lemma updateBalances_inv env payer payee a cur w w' :
  LedgerManager.updateBalances env payer payee a cur w = (Ok tt, w') ->
  payer <> payee ->
  transactions w' = transactions w
  /\ (unique_owner_currencyb (accounts w) = true ->
      unique_owner_currencyb (accounts w') = true)
  /\ forall o c,
       row_balance (accounts w') o c
       = shifted_balance (accounts w) payer payee a cur o c.
Proof.
  intros H Hne. unfold LedgerManager.updateBalances in H.
  apply bind_inv_ok in H as ([] & w1 & H1 & H).
  apply bind_inv_ok in H as ([] & w2 & H2 & H).
  apply bind_inv_ok in H as ([] & w3 & H3 & H4).
  apply ensureAccount_inv in H1 as (T1 & U1 & B1).
  apply ensureAccount_inv in H2 as (T2 & U2 & B2).
  apply conditional_update_inv in H3 as (T3 & U3 & B3).
  apply conditional_update_inv in H4 as (T4 & U4 & B4).
  split; [congruence|]. split; [auto|].
  intros o c. rewrite B4, B3, B2, B1. unfold shifted_balance.
  destruct (String.eqb_spec o payer) as [Hop|Hop];
    destruct (String.eqb_spec o payee) as [Hoe|Hoe];
    destruct (String.eqb_spec payer SELF_ENTITY) as [Hps|Hps];
    destruct (String.eqb_spec payee SELF_ENTITY) as [Hes|Hes];
    destruct (String.eqb_spec o SELF_ENTITY) as [Hos|Hos];
    try congruence;
    destruct (Currency_eqb c cur);
    destruct (row_balance (accounts w) o c);
    simpl; try reflexivity; f_equal; lia.
Qed.

(** [updateBalances] goes through when both parties other than SELF have an
    account and the payer's covers the amount. *)
Lemma updateBalances_ok env payer payee a cur w :
  payer <> payee ->
  unique_owner_currencyb (accounts w) = true ->
  (payer = SELF_ENTITY
   \/ exists b, row_balance (accounts w) payer cur = Some b /\ a <= b) ->
  (payee = SELF_ENTITY
   \/ exists b, row_balance (accounts w) payee cur = Some b /\ 0 <= b + a) ->
  exists w', LedgerManager.updateBalances env payer payee a cur w
             = (Ok tt, w').
Proof.
  intros Hne Hu Hp He. unfold LedgerManager.updateBalances.
  rewrite (bind_ok _ _ _ _ _ (ensureAccount_ok env payer cur w
             ltac:(destruct Hp as [?|(b & -> & _)];
                   [now left|right; discriminate]))).
  rewrite (bind_ok _ _ _ _ _ (ensureAccount_ok env payee cur w
             ltac:(destruct He as [?|(b & -> & _)];
                   [now left|right; discriminate]))).
  assert (Hdebit : exists w3,
            (if negb (payer =? SELF_ENTITY)%string
             then n <- LedgerManager.now env ;;
                  Db.update_balance (- a) n payer cur
             else ret tt) w = (Ok tt, w3)).
  { destruct (String.eqb_spec payer SELF_ENTITY) as [Hs|Hs]; simpl;
      [eexists; reflexivity|].
    rewrite (bind_ok _ _ _ _ _ (now_run env w)).
    apply update_balance_ok; [exact Hu|].
    destruct Hp as [?|(b & Hb & Hle)]; [contradiction|].
    intros b' Hb'. rewrite Hb in Hb'. inversion Hb'; subst. lia. }
  destruct Hdebit as (w3 & H3). rewrite (bind_ok _ _ _ _ _ H3).
  apply conditional_update_inv in H3 as (_ & U3 & B3).
  destruct (String.eqb_spec payee SELF_ENTITY) as [Hs|Hs]; simpl;
    [eexists; reflexivity|].
  rewrite (bind_ok _ _ _ _ _ (now_run env w3)).
  apply update_balance_ok; [auto|].
  destruct He as [?|(b & Hb & Hle)]; [contradiction|].
  intros b'. rewrite B3, Hb. simpl.
  destruct (String.eqb_spec payee payer); [congruence|].
  rewrite andb_false_r. simpl. intros Hb'. inversion Hb'; subst. lia.
Qed.

(** ** A refund that goes through *)

Lemma rows_after_update_other id0 u old t :
  Transaction.id t <> id0 ->
  rows_after_update id0 u (old ++ [t])
  = (rows_after_update id0 u old ++ [t])%list.
Proof.
  intros Hne. unfold rows_after_update. rewrite map_app. simpl.
  unfold Db.has_id at 2.
  destruct (String.eqb_spec (Transaction.id t) id0); [contradiction|].
  reflexivity.
Qed.

Lemma find_rows_after_update i id0 u old :
  find (Db.has_id i) (rows_after_update id0 u old)
  = option_map
      (fun t => if Db.has_id id0 t
                then Db.set_row (Transaction.status u)
                       (Transaction.processorReference u)
                       (Transaction.metadata u) (Transaction.updatedAt u)
                       (Transaction.completedAt u) t
                else t)
      (find (Db.has_id i) old).
Proof.
  unfold rows_after_update. apply find_map_stable.
  intros t. apply has_id_after_update.
Qed.

Lemma find_tx_has_id w id t : find_tx w id = Some t -> Transaction.id t = id.
Proof.
  unfold find_tx. intros H. apply find_some in H as [_ H].
  now apply String.eqb_eq in H.
Qed.

Lemma processRefund_success env cfg rreq w orig rt wc :
  truthy_bool (refundsEnabled cfg) = true ->
  find_tx w (transactionId rreq) = Some orig ->
  Transaction.status orig = completed ->
  LedgerManager.createTransaction env
    (PaymentService.refund_data rreq orig) w = (Ok rt, wc) ->
  (forall reference,
      Transaction.processorReference orig = Some reference ->
      reference <> "" ->
      refund_accepted (processor cfg) reference
        (PaymentService.refundAmount rreq orig) (Transaction.currency orig)) ->
  unique_owner_currencyb (accounts w) = true ->
  (Transaction.payeeId orig = SELF_ENTITY
   \/ exists b, balanceOf w (Transaction.payeeId orig)
                  (Transaction.currency orig) = Some b
                /\ PaymentService.refundAmount rreq orig <= b) ->
  (Transaction.payerId orig = SELF_ENTITY
   \/ exists b, balanceOf w (Transaction.payerId orig)
                  (Transaction.currency orig) = Some b
                /\ 0 <= b + PaymentService.refundAmount rreq orig) ->
  exists n1 n2 wf,
    PaymentService.processRefund env cfg rreq w
    = (Ok (PaymentService.succeeded (with_status rt completed n2)), wf)
    /\ transactions wf
       = (rows_after_update (transactionId rreq)
            (with_status orig refunded n1) (transactions w)
          ++ [with_status rt completed n2])%list
    /\ (forall o c,
           balanceOf wf o c
           = shifted_balance (accounts w) (Transaction.payeeId orig)
               (Transaction.payerId orig)
               (PaymentService.refundAmount rreq orig)
               (Transaction.currency orig) o c)
    /\ unique_owner_currencyb (accounts wf) = true.
Proof.
  intros Hen Horig Hst Hc Hproc Hu Hx Hy.
  pose proof (createTransaction_inv env _ w rt wc Hc)
    as (Ht & Hfresh & _ & Hparties & Hwc).
  simpl in Hparties.
  set (tid := Transaction.id rt) in *.
  assert (Htid : gen_id env (tick w) = tid) by (unfold tid; now rewrite Ht).
  rewrite Htid in Hfresh.
  assert (Htx : transactions wc = (transactions w ++ [rt])%list)
    by now rewrite Hwc.
  assert (Hacc : accounts wc = accounts w) by now rewrite Hwc.
  set (a := PaymentService.refundAmount rreq orig) in *.
  set (cur := Transaction.currency orig) in *.
  assert (Hne : tid <> transactionId rreq).
  { intros E. rewrite E in Hfresh. congruence. }
  (* the processor step *)
  assert (Hdecl : exists wp,
    (if truthy_string (Transaction.processorReference orig)
     then
       match Transaction.processorReference orig with
       | Some reference =>
           result <- PaymentProcessor.processRefund (processor cfg)
                       reference a cur ;;
           if negb (refund_success result)
           then
             LedgerManager.updateTransactionStatus env tid failed ;;;
             ret (Some (PaymentService.failure "REFUND_FAILED"
                          (or_string (refund_error result)
                             "Refund processing failed")))
           else ret None
       | None => ret None
       end
     else ret None) wc = (Ok None, wp)
    /\ transactions wp = transactions wc /\ accounts wp = accounts wc).
  { destruct (Transaction.processorReference orig) as [reference|] eqn:Eref;
      [|exists wc; repeat split].
    simpl. destruct (String.eqb_spec reference "") as [|Hr];
      [exists wc; repeat split|]. simpl.
    destruct (Hproc reference eq_refl Hr wc) as (result & Hres & Hok).
    destruct (PaymentProcessor.processRefund (processor cfg) reference a cur
                wc) as [o wp] eqn:Ep.
    simpl in Hres. subst o.
    destruct (frame_run _ wc (processRefund_transactions _ _ _ _)
                (processRefund_accounts _ _ _ _) _ _ Ep) as [Htp Hap].
    exists wp. rewrite (bind_ok _ _ _ _ _ Ep), Hok. repeat split; auto. }
  destruct Hdecl as (wp & Hdecl & Htp & Hap).
  rewrite Htx in Htp. rewrite Hacc in Hap.
  (* the balance shift *)
  destruct (updateBalances_ok env (Transaction.payeeId orig)
              (Transaction.payerId orig) a cur wp)
    as (wb & Hb); [congruence|now rewrite Hap|now rewrite Hap|now rewrite Hap|].
  destruct (updateBalances_inv env _ _ a cur wp wb Hb ltac:(congruence))
    as (Htb & Hub & Hbal).
  rewrite Htp in Htb. rewrite Hap in Hub, Hbal.
  (* the two status changes *)
  assert (Hfo : find_tx wb (transactionId rreq) = Some orig).
  { unfold find_tx in *. now rewrite Htb, find_app, Horig. }
  pose proof (updateTransactionStatus_run env (transactionId rreq) refunded
                wb orig Hfo) as Hs1.
  cbv zeta in Hs1. simpl TransactionStatus_eqb in Hs1. cbv iota in Hs1.
  fold (with_status orig refunded (clock env (tick wb))) in Hs1.
  set (orig' := with_status orig refunded (clock env (tick wb))) in *.
  rewrite Htb, (rows_after_update_other _ _ _ rt Hne) in Hs1.
  set (old' := rows_after_update (transactionId rreq) orig' (transactions w))
    in *.
  assert (Hfresh' : find (Db.has_id tid) old' = None).
  { unfold old'. rewrite find_rows_after_update.
    unfold find_tx in Hfresh. now rewrite Hfresh. }
  match type of Hs1 with _ = (_, ?x) => set (w1 := x) in * end.
  pose proof (updateTransactionStatus_on_appended env old' tid rt completed
                w1 Hfresh' eq_refl eq_refl) as Hs2.
  cbv zeta in Hs2. simpl TransactionStatus_eqb in Hs2. cbv iota in Hs2.
  fold (with_status rt completed (clock env (tick w1))) in Hs2.
  set (rt' := with_status rt completed (clock env (tick w1))) in *.
  match type of Hs2 with _ = (_, ?x) => set (w2 := x) in * end.
  destruct (emit_run env "refund:completed" rt' w2) as (wf & He & Htf & Haf).
  exists (clock env (tick wb)), (clock env (tick w1)), wf.
  split; [|split; [|split]].
  - unfold PaymentService.processRefund, try_catch,
      PaymentService.processRefund_body.
    rewrite Hen. cbn [negb].
    rewrite (bind_ok _ _ _ _ _ (getTransaction_run _ w)), Horig.
    rewrite Hst. cbn [TransactionStatus_eqb negb]. cbv zeta.
    rewrite (bind_ok _ _ _ _ _ Hc).
    fold tid a cur.
    rewrite (bind_ok _ _ _ _ _ Hdecl).
    replace (Transaction.payerId rt) with (Transaction.payeeId orig)
      by (rewrite Ht; reflexivity).
    replace (Transaction.payeeId rt) with (Transaction.payerId orig)
      by (rewrite Ht; reflexivity).
    rewrite (bind_ok _ _ _ _ _ Hb).
    replace (Transaction.id orig) with (transactionId rreq)
      by (symmetry; now apply (find_tx_has_id w)).
    rewrite (bind_ok _ _ _ _ _ Hs1).
    rewrite (bind_ok _ _ _ _ _ Hs2).
    rewrite (bind_ok _ _ _ _ _ He).
    reflexivity.
  - rewrite Htf. reflexivity.
  - intros o c. unfold balanceOf. rewrite Haf. simpl. apply Hbal.
  - rewrite Haf. simpl. now apply Hub.
Qed.

Lemma createTransaction_ok env d w :
  0 < LedgerManager.d_amount d ->
  LedgerManager.d_payerId d <> LedgerManager.d_payeeId d ->
  find_tx w (gen_id env (tick w)) = None ->
  exists t w', LedgerManager.createTransaction env d w = (Ok t, w').
Proof.
  intros Ha Hp Hf.
  unfold LedgerManager.createTransaction, LedgerManager.generateId,
    LedgerManager.now, Db.insert_transaction, bind, get, put, ret, throw.
  simpl.
  destruct (Z.ltb_spec 0 (LedgerManager.d_amount d)); [|lia]. simpl.
  destruct (String.eqb_spec (LedgerManager.d_payerId d)
              (LedgerManager.d_payeeId d)); [contradiction|].
  apply find_none_existsb in Hf. unfold find_tx in Hf.
  rewrite Hf. eexists _, _. reflexivity.
Qed.

Lemma keeps_and {A} (I J : World -> Prop) (m : M A) :
  keeps I m -> keeps J m -> keeps (fun w => I w /\ J w) m.
Proof.
  intros HI HJ w [Hi Hj]. specialize (HI w Hi). specialize (HJ w Hj).
  destruct (m w) as [[a|e] w']; now split.
Qed.

Lemma validateTransaction_inv cfg req w :
  fst (PaymentService.validateTransaction cfg req w) = Ok tt ->
  0 < req_amount req /\ req_payerId req <> req_payeeId req.
Proof.
  unfold PaymentService.validateTransaction.
  destruct (Z.leb_spec (req_amount req) 0); [discriminate|].
  destruct (_ && _); [discriminate|].
  destruct (_ && _); [discriminate|].
  destruct (String.eqb_spec (req_payerId req) (req_payeeId req));
    [discriminate|].
  intros _. split; [lia|assumption].
Qed.

(** What a successful call that is no replay has done. *)
Lemma processTransaction_success_inv env cfg req w0 r1 w1 t1 :
  no_replay req w0 ->
  PaymentService.processTransaction env cfg req w0 = (Ok r1, w1) ->
  success r1 = true ->
  transaction r1 = Some t1 ->
  req_payerId req <> req_payeeId req
  /\ 0 < req_amount req
  /\ Transaction.status t1 = completed
  /\ Transaction.payerId t1 = req_payerId req
  /\ Transaction.payeeId t1 = req_payeeId req
  /\ Transaction.amount t1 = req_amount req
  /\ Transaction.currency t1 = request_currency cfg req
  /\ Transaction.metadata t1
     = PaymentService.with_key (req_metadata req) (req_idempotencyKey req)
  /\ find_tx w0 (Transaction.id t1) = None
  /\ transactions w1 = (transactions w0 ++ [t1])%list
  /\ (forall o c,
         balanceOf w1 o c
         = shifted_balance (accounts w0) (req_payerId req) (req_payeeId req)
             (req_amount req) (request_currency cfg req) o c)
  /\ (unique_owner_currencyb (accounts w0) = true ->
      unique_owner_currencyb (accounts w1) = true).
Proof.
  intros Hnew Hrun Hs Ht1.
  unfold PaymentService.processTransaction, try_catch in Hrun.
  destruct (PaymentService.processTransaction_body env cfg req w0)
    as [[r|e] wb] eqn:Eb.
  2:{ inversion Hrun; subst. discriminate. }
  inversion Hrun; subst r1 w1; clear Hrun.
  unfold PaymentService.processTransaction_body in Eb.
  apply bind_inv_ok in Eb as ([] & wv & Ev & Eb).
  assert (wv = w0) as ->.
  { pose proof (validateTransaction_pure cfg req w0) as Hp.
    now rewrite Ev in Hp. }
  destruct (validateTransaction_inv cfg req w0) as [Hpos Hparties];
    [now rewrite Ev|].
  rewrite (bind_ok _ _ _ _ _ (lookup_finds_nothing req w0 Hnew)) in Eb.
  apply bind_inv_ok in Eb as (t & wc & Ec & Eb).
  pose proof (createTransaction_inv env _ w0 t wc Ec)
    as (Ht & Hfresh & _ & _ & Hwc).
  simpl in Ht.
  set (tid := Transaction.id t) in *.
  assert (Htid : tid = gen_id env (tick w0)) by (unfold tid; now rewrite Ht).
  rewrite <- Htid in Hfresh.
  set (I := fun w' => appended_row (transactions w0) tid (same_core t) w'
                      /\ accounts w' = accounts w0).
  assert (HI : I wc).
  { split; [|now rewrite Hwc]. exists t. rewrite Hwc.
    repeat split. }
  assert (Hupd : forall u, keeps I (LedgerManager.updateTransaction env tid u)).
  { intros u. apply keeps_and.
    - eapply hoare_value.
      apply updateTransaction_appended;
        [exact Hfresh|intros x n Hx; exact Hx].
    - apply (keeps_by_accounts (fun l => l = accounts w0)).
      auto with frames. }
  assert (Hstatus : forall s, keeps I
            (LedgerManager.updateTransactionStatus env tid s)).
  { intros s. apply keeps_and.
    - eapply hoare_value.
      apply updateTransactionStatus_appended;
        [exact Hfresh|intros x u n Hx; exact Hx].
    - apply (keeps_by_accounts (fun l => l = accounts w0)).
      auto with frames. }
  apply bind_inv_ok in Eb as (d & wd & Ed & Eb).
  match type of Ed with
  | ?m wc = _ =>
      assert (Hh : hoare I m
                (fun d w' => I w' /\
                   forall r', d = Some r' -> success r' = false) I)
  end.
  { destruct (req_paymentMethod req) as [pm|];
      [destruct (PaymentService.requiresPaymentProcessing _ _)|];
      try (apply hoare_ret; intros w' Hw'; split; [auto|discriminate]).
    apply hoare_bind_keeps; [apply Hstatus|intros _].
    apply hoare_bind_keeps.
    { apply keeps_and.
      - apply keeps_appended_row; auto with frames.
      - apply (keeps_by_accounts (fun l => l = accounts w0)).
        auto with frames. }
    intros result.
    destruct (negb (charge_success result)).
    + apply hoare_bind_keeps; [apply Hstatus|intros _].
      apply hoare_ret. intros w' Hw'. split; [auto|].
      intros r' Hr'. inversion Hr'. reflexivity.
    + apply hoare_bind_keeps; [apply Hupd|intros _].
      apply hoare_ret. intros w' Hw'. split; [auto|discriminate]. }
  specialize (Hh wc HI). rewrite Ed in Hh.
  destruct Hh as [[(td & Htd & Hidd & Hcore) Hacc] Hd].
  destruct d as [r'|].
  { inversion Eb; subst. rewrite (Hd r eq_refl) in Hs. discriminate. }
  apply bind_inv_ok in Eb as ([] & wbal & Ebal & Eb).
  replace (Transaction.currency t) with (request_currency cfg req) in Ebal
    by (rewrite Ht; reflexivity).
  destruct (updateBalances_inv env _ _ _ _ wd wbal Ebal Hparties)
    as (Htb & Hub & Hbal).
  rewrite Htd in Htb. rewrite Hacc in Hub, Hbal.
  rewrite (bind_ok _ _ _ _ _
             (updateTransactionStatus_on_appended env (transactions w0) tid
                td completed wbal Hfresh Htb Hidd)) in Eb.
  cbv zeta in Eb.
  match type of Eb with
  | bind (PaymentService.emit env ?ev ?x) _ ?y = _ =>
      destruct (emit_run env ev x y) as (wf & He & Htf & Haf)
  end.
  rewrite (bind_ok _ _ _ _ _ He) in Eb. inversion Eb; subst r wb; clear Eb.
  simpl in Ht1. inversion Ht1; subst t1; clear Ht1.
  destruct Hcore as (C1 & C2 & C3 & C4 & C5).
  simpl. rewrite C1, C2, C3, C4, C5, Hidd, Ht. simpl.
  repeat split; auto.
  - intros o c. unfold balanceOf. rewrite Haf. simpl. apply Hbal.
  - rewrite Haf. simpl. exact Hub.
Qed.

Lemma nonneg_row_balance w o c b :
  balances_nonneg w -> row_balance (accounts w) o c = Some b -> 0 <= b.
Proof.
  unfold balances_nonneg, nonneg_rows, row_balance. intros Hnn Hb.
  destruct (find (Db.owns o c) (accounts w)) as [x|] eqn:Ef; [|discriminate].
  apply find_some in Ef as [Hin _]. rewrite Forall_forall in Hnn.
  inversion Hb; subst. now apply Hnn.
Qed.

Lemma refundAmount_full rreq t :
  0 < Transaction.amount t ->
  refund_amount rreq = None
  \/ refund_amount rreq = Some (Transaction.amount t) ->
  PaymentService.refundAmount rreq t = Transaction.amount t.
Proof.
  intros Hpos [H|H]; unfold PaymentService.refundAmount; rewrite H;
    [reflexivity|].
  simpl. destruct (Z.eqb_spec (Transaction.amount t) 0); reflexivity.
Qed.

(** ** Refund symmetry *)

(** C4, as amended: let a call that is no replay complete a transaction
    [t1] from a world with non-negative balances and one account per owner
    and currency, and let it be refunded at once for its full amount (the
    refund's id being fresh and the processor accepting the refund of a
    charge).  Then [processRefund] succeeds and leaves exactly two records
    in place of [t1]: the original, now 'refunded' and otherwise as it was
    up to its update time, and a new 'completed' refund transaction with
    payer and payee swapped and the same amount.  The refund references the
    original through [metadata.originalTransactionId]; the original's
    metadata is untouched, so it holds no reference to the refund.  Every
    balance that existed before the transaction is back to its value, and a
    party whose account the transaction created holds 0. *)
Theorem full_refund_restores_balances env cfg req w0 r1 w1 t1 rreq :
  balances_nonneg w0 ->
  unique_owner_currencyb (accounts w0) = true ->
  no_replay req w0 ->
  PaymentService.processTransaction env cfg req w0 = (Ok r1, w1) ->
  success r1 = true ->
  transaction r1 = Some t1 ->
  truthy_bool (refundsEnabled cfg) = true ->
  transactionId rreq = Transaction.id t1 ->
  refund_amount rreq = None
  \/ refund_amount rreq = Some (Transaction.amount t1) ->
  find_tx w1 (gen_id env (tick w1)) = None ->
  (forall reference,
      Transaction.processorReference t1 = Some reference ->
      reference <> "" ->
      refund_accepted (processor cfg) reference (Transaction.amount t1)
        (Transaction.currency t1)) ->
  exists original refund n w2,
    PaymentService.processRefund env cfg rreq w1
    = (Ok (PaymentService.succeeded refund), w2)
    /\ transactions w2 = (transactions w0 ++ [original; refund])%list
    /\ original = with_status t1 refunded n
    /\ Transaction.metadata original = Transaction.metadata t1
    /\ Transaction.status refund = completed
    /\ Transaction.payerId refund = Transaction.payeeId t1
    /\ Transaction.payeeId refund = Transaction.payerId t1
    /\ Transaction.amount refund = Transaction.amount t1
    /\ Transaction.currency refund = Transaction.currency t1
    /\ originalTransactionId (Transaction.metadata refund)
       = Some (Transaction.id t1)
    /\ balances_kept (accounts w0) (accounts w2)
    /\ (forall o,
           o = Transaction.payerId t1 \/ o = Transaction.payeeId t1 ->
           o <> SELF_ENTITY ->
           balanceOf w2 o (Transaction.currency t1)
           = Some (balance_or_zero w0 o (Transaction.currency t1))).
Proof.
  intros Hnn Hu Hnew Hrun Hs Ht1 Hen Hid Hfull Hfresh1 Hproc.
  destruct (processTransaction_success_inv env cfg req w0 r1 w1 t1 Hnew Hrun
              Hs Ht1)
    as (Hparties & Hpos & Hst & Hp & He & Ha & Hc & Hmd & Hfresh0 & Htx
        & Hbal1 & Hu1).
  specialize (Hu1 Hu).
  assert (Hamt : PaymentService.refundAmount rreq t1 = Transaction.amount t1)
    by (apply refundAmount_full; [lia|exact Hfull]).
  assert (Hfind : find_tx w1 (transactionId rreq) = Some t1).
  { rewrite Hid.
    apply (find_tx_on_appended (transactions w0) (Transaction.id t1));
      auto. }
  destruct (createTransaction_ok env (PaymentService.refund_data rreq t1) w1)
    as (rt & wc & Hcreate).
  { simpl. rewrite Hamt. lia. }
  { simpl. congruence. }
  { exact Hfresh1. }
  set (P := req_payerId req) in *. set (E := req_payeeId req) in *.
  set (a := req_amount req) in *. set (cur := request_currency cfg req) in *.
  assert (HheldP : forall o, 0 <= match row_balance (accounts w0) o cur with
                                  | Some b => b | None => 0 end).
  { intros o. destruct (row_balance (accounts w0) o cur) eqn:Er; [|lia].
    now apply (nonneg_row_balance w0 o cur). }
  destruct (processRefund_success env cfg rreq w1 t1 rt wc Hen Hfind Hst
              Hcreate)
    as (n1 & n2 & w2 & Hrun2 & Htx2 & Hbal2 & _).
  { intros reference Href Hne. rewrite Hamt. now apply Hproc. }
  { exact Hu1. }
  { rewrite He, Hc, Hamt, Ha.
    destruct (String.eqb_spec E SELF_ENTITY) as [Hs'|Hs']; [now left|right].
    rewrite Hbal1. unfold shifted_balance.
    rewrite Currency_eqb_refl.
    destruct (String.eqb_spec E SELF_ENTITY); [contradiction|]. simpl.
    destruct (String.eqb_spec E P); [congruence|].
    rewrite String.eqb_refl. eexists. split; [reflexivity|].
    specialize (HheldP E). lia. }
  { rewrite Hp, Hc, Hamt, Ha.
    destruct (String.eqb_spec P SELF_ENTITY) as [Hs'|Hs']; [now left|right].
    rewrite Hbal1. unfold shifted_balance.
    rewrite Currency_eqb_refl.
    destruct (String.eqb_spec P SELF_ENTITY); [contradiction|]. simpl.
    rewrite String.eqb_refl. eexists. split; [reflexivity|]. 
    specialize (HheldP P). lia. }
  pose proof (createTransaction_inv env _ w1 rt wc Hcreate)
    as (Hrt & _).
  simpl in Hrt.
  assert (Hbal : forall o c,
             balanceOf w2 o c
             = match row_balance (accounts w0) o c with
               | Some b => Some b
               | None =>
                   if Currency_eqb c cur && negb (o =? SELF_ENTITY)%string
                      && ((o =? P)%string || (o =? E)%string)
                   then Some 0 else None
               end).
  { intros o c. rewrite Hbal2, He, Hp, Hc, Hamt, Ha.
    unfold shifted_balance at 1.
    fold (balanceOf w1 o c). rewrite Hbal1. unfold shifted_balance.
    destruct (Currency_eqb c cur); simpl;
      [|destruct (row_balance (accounts w0) o c); reflexivity].
    destruct (String.eqb_spec o SELF_ENTITY); simpl;
      [destruct (row_balance (accounts w0) o c); reflexivity|].
    destruct (String.eqb_spec o P) as [Hop|Hop];
      destruct (String.eqb_spec o E) as [Hoe|Hoe]; simpl;
      try congruence;
      destruct (row_balance (accounts w0) o c); simpl;
      try reflexivity; f_equal; lia. }
  exists (with_status t1 refunded n1), (with_status rt completed n2), n1, w2.
  split; [exact Hrun2|].
  split.
  { rewrite Htx2, Hid, Htx.
    rewrite (rows_after_update_appended (transactions w0)
               (Transaction.id t1) t1 _ Hfresh0 eq_refl).
    unfold with_status at 1. rewrite set_row_spread.
    rewrite <- app_assoc. reflexivity. }
  split; [reflexivity|].
  split; [reflexivity|].
  rewrite Hrt. simpl. rewrite Hamt.
  repeat split; auto.
  - now rewrite Hid.
  - intros o c b Hb. fold (balanceOf w2 o c). rewrite Hbal. now rewrite Hb.
  - intros o Ho Hns. rewrite Hp, He in Ho.
    rewrite Hbal. unfold balance_or_zero, balanceOf. rewrite Hc.
    destruct (row_balance (accounts w0) o cur); [reflexivity|].
    rewrite Currency_eqb_refl.
    destruct (String.eqb_spec o SELF_ENTITY); [contradiction|]. simpl.
    destruct Ho as [->| ->]; rewrite String.eqb_refl; simpl;
      [reflexivity|now rewrite orb_true_r].
Qed.

Lemma full_refund_restores_balances_witness :
  exists original refund n w2,
    PaymentService.processRefund Scenario.env Scenario.config
      Scenario.full_refund_request (snd Scenario.refundable_run)
    = (Ok (PaymentService.succeeded refund), w2)
    /\ transactions w2
       = (transactions Scenario.refundable_world ++ [original; refund])%list
    /\ original = with_status Scenario.refundable_transaction refunded n
    /\ Transaction.metadata original
       = Transaction.metadata Scenario.refundable_transaction
    /\ Transaction.status refund = completed
    /\ Transaction.payerId refund
       = Transaction.payeeId Scenario.refundable_transaction
    /\ Transaction.payeeId refund
       = Transaction.payerId Scenario.refundable_transaction
    /\ Transaction.amount refund
       = Transaction.amount Scenario.refundable_transaction
    /\ Transaction.currency refund
       = Transaction.currency Scenario.refundable_transaction
    /\ originalTransactionId (Transaction.metadata refund)
       = Some (Transaction.id Scenario.refundable_transaction)
    /\ balances_kept (accounts Scenario.refundable_world) (accounts w2)
    /\ (forall o,
           o = Transaction.payerId Scenario.refundable_transaction
           \/ o = Transaction.payeeId Scenario.refundable_transaction ->
           o <> SELF_ENTITY ->
           balanceOf w2 o
             (Transaction.currency Scenario.refundable_transaction)
           = Some (balance_or_zero Scenario.refundable_world o
                     (Transaction.currency
                        Scenario.refundable_transaction))).
Proof.
  apply (full_refund_restores_balances Scenario.env Scenario.config
           Scenario.refundable_request Scenario.refundable_world
           (PaymentService.succeeded Scenario.refundable_transaction)
           (snd Scenario.refundable_run) Scenario.refundable_transaction
           Scenario.full_refund_request).
  - unfold balances_nonneg, nonneg_rows. simpl.
    repeat constructor; simpl; lia.
  - reflexivity.
  - intros key Hkey. discriminate Hkey.
  - vm_compute. reflexivity.
  - reflexivity.
  - reflexivity.
  - reflexivity.
  - reflexivity.
  - left. reflexivity.
  - vm_compute. reflexivity.
  - intros reference Href. discriminate Href.
Defined.

(** C4 as stated fails on its last clause.  After a transfer and its full
    refund the ledger holds the original, 'refunded', and the refund,
    'completed'; the refund names the original in
    [metadata.originalTransactionId], but the original names nothing: its
    metadata is the empty object it was created with and it has no
    processor reference. *)
Lemma refund_reference_counterexample :
  let run := PaymentService.processRefund Scenario.env Scenario.config
               Scenario.full_refund_request (snd Scenario.refundable_run) in
  exists original refund,
    fst run = Ok (PaymentService.succeeded refund)
    /\ transactions (snd run) = [original; refund]
    /\ Transaction.status original = refunded
    /\ Transaction.status refund = completed
    /\ originalTransactionId (Transaction.metadata refund)
       = Some (Transaction.id original)
    /\ Transaction.metadata original = empty_metadata
    /\ Transaction.processorReference original = None
    /\ Transaction.id refund <> Transaction.id original.
Proof.
  vm_compute. eexists _, _. repeat split. discriminate.
Qed.

(** ** The amount of a refund *)

(** C9, as amended: whenever a refund of a completed transaction goes
    through, the refund transaction is booked for the amount of the request
    as given, whether it is below, equal to or above the amount of the
    original, and for the amount of the original when the request gives
    none (or gives 0).  No bound on the amount is checked. *)
Theorem refund_amount_is_taken_as_given env cfg rreq w orig rt wc :
  truthy_bool (refundsEnabled cfg) = true ->
  find_tx w (transactionId rreq) = Some orig ->
  Transaction.status orig = completed ->
  LedgerManager.createTransaction env
    (PaymentService.refund_data rreq orig) w = (Ok rt, wc) ->
  (forall reference,
      Transaction.processorReference orig = Some reference ->
      reference <> "" ->
      refund_accepted (processor cfg) reference
        (PaymentService.refundAmount rreq orig) (Transaction.currency orig)) ->
  unique_owner_currencyb (accounts w) = true ->
  (Transaction.payeeId orig = SELF_ENTITY
   \/ exists b, balanceOf w (Transaction.payeeId orig)
                  (Transaction.currency orig) = Some b
                /\ PaymentService.refundAmount rreq orig <= b) ->
  (Transaction.payerId orig = SELF_ENTITY
   \/ exists b, balanceOf w (Transaction.payerId orig)
                  (Transaction.currency orig) = Some b
                /\ 0 <= b + PaymentService.refundAmount rreq orig) ->
  exists refund wf,
    PaymentService.processRefund env cfg rreq w
    = (Ok (PaymentService.succeeded refund), wf)
    /\ find_tx wf (Transaction.id rt) = Some refund
    /\ Transaction.status refund = completed
    /\ Transaction.amount refund
       = match refund_amount rreq with
         | Some a => if a =? 0 then Transaction.amount orig else a
         | None => Transaction.amount orig
         end.
Proof.
  intros Hen Horig Hst Hc Hproc Hu Hx Hy.
  destruct (processRefund_success env cfg rreq w orig rt wc Hen Horig Hst Hc
              Hproc Hu Hx Hy)
    as (n1 & n2 & wf & Hrun & Htx & _).
  pose proof (createTransaction_inv env _ w rt wc Hc)
    as (Hrt & Hfresh & _).
  exists (with_status rt completed n2), wf.
  split; [exact Hrun|]. split; [|split].
  - apply (find_tx_on_appended
             (rows_after_update (transactionId rreq)
                (with_status orig refunded n1) (transactions w))
             (Transaction.id rt)); [|exact Htx|reflexivity].
    rewrite find_rows_after_update. unfold find_tx in Hfresh.
    rewrite Hrt. simpl. now rewrite Hfresh.
  - reflexivity.
  - rewrite Hrt. simpl. unfold PaymentService.refundAmount.
    destruct (refund_amount rreq) as [a|]; [|reflexivity].
    simpl. destruct (a =? 0); reflexivity.
Qed.

Lemma refund_amount_is_taken_as_given_witness :
  exists refund wf,
    PaymentService.processRefund Scenario.env Scenario.config
      Scenario.partial_refund_request Scenario.settled_world
    = (Ok (PaymentService.succeeded refund), wf)
    /\ find_tx wf (Transaction.id Scenario.partial_refund_tx) = Some refund
    /\ Transaction.status refund = completed
    /\ Transaction.amount refund
       = match refund_amount Scenario.partial_refund_request with
         | Some a =>
             if a =? 0
             then Transaction.amount
                    (Scenario.stored "tx-1" "k1" 100000 completed)
             else a
         | None =>
             Transaction.amount (Scenario.stored "tx-1" "k1" 100000 completed)
         end.
Proof.
  apply (refund_amount_is_taken_as_given Scenario.env Scenario.config
           Scenario.partial_refund_request Scenario.settled_world
           (Scenario.stored "tx-1" "k1" 100000 completed)
           Scenario.partial_refund_tx (snd Scenario.partial_refund_created)).
  - reflexivity.
  - reflexivity.
  - reflexivity.
  - vm_compute. reflexivity.
  - intros reference Href. discriminate Href.
  - reflexivity.
  - right. exists 500000. split; [reflexivity|]. vm_compute. discriminate.
  - right. exists 0. split; [reflexivity|]. vm_compute. discriminate.
Defined.

(** C9 as stated fails on its last clause: a refund of 25.00 against a
    completed transfer of 10.00 is accepted.  The refund transaction is
    completed for 25.00, the original is marked 'refunded', and 25.00 moves
    from the original payee to the original payer. *)
Lemma excess_refund_counterexample :
  let run := PaymentService.processRefund Scenario.env Scenario.config
               Scenario.excess_refund_request Scenario.settled_world in
  find_tx Scenario.settled_world "tx-1"
  = Some (Scenario.stored "tx-1" "k1" 100000 completed)
  /\ refund_amount Scenario.excess_refund_request = Some 250000
  /\ (exists refund,
         fst run = Ok (PaymentService.succeeded refund)
         /\ Transaction.status refund = completed
         /\ Transaction.amount refund = 250000)
  /\ balanceOf Scenario.settled_world "user_2" USD = Some 500000
  /\ balanceOf (snd run) "user_2" USD = Some 250000
  /\ balanceOf Scenario.settled_world "user_1" USD = Some 0
  /\ balanceOf (snd run) "user_1" USD = Some 250000.
Proof.
  vm_compute. repeat split. eexists. repeat split.
Qed.

(** ** Frames for the two logs *)

Lemma preserves_logs_bind {A B} (m : M A) (k : A -> M B) :
  preserves_logs m -> (forall a, preserves_logs (k a)) ->
  preserves_logs (bind m k).
Proof.
  intros Hm Hk w. unfold bind. specialize (Hm w).
  destruct (m w) as [[a|e] w']; simpl in *; [|exact Hm].
  destruct (Hk a w') as [H1 H2]. destruct Hm as [H3 H4].
  split; congruence.
Qed.

Lemma preserves_logs_try_catch {A} (m : M A) h :
  preserves_logs m -> (forall e, preserves_logs (h e)) ->
  preserves_logs (try_catch m h).
Proof.
  intros Hm Hh w. unfold try_catch. specialize (Hm w).
  destruct (m w) as [[a|e] w']; simpl in *; [exact Hm|].
  destruct (Hh e w') as [H1 H2]. destruct Hm as [H3 H4].
  split; congruence.
Qed.

Create HintDb logs.

(** Splits a goal on the logs along the structure of the computation. *)
Ltac logs :=
  repeat first
    [ solve [auto with logs]
    | solve [intros w; split; reflexivity]
    | apply preserves_logs_bind; [|intros ?]
    | apply preserves_logs_try_catch; [|intros ?]
    | match goal with
      | |- preserves_logs (if ?b then _ else _) => destruct b
      | |- preserves_logs (match ?x with _ => _ end) => destruct x
      end ].

Lemma insert_transaction_logs t : preserves_logs (Db.insert_transaction t).
Proof.
  intros w. unfold Db.insert_transaction, bind, get, put, throw. simpl.
  repeat match goal with
         | |- context [if ?b then _ else _] => destruct b
         end; split; reflexivity.
Qed.

Lemma insert_account_logs a : preserves_logs (Db.insert_account a).
Proof.
  intros w. unfold Db.insert_account, bind, get, put, throw. simpl.
  repeat match goal with
         | |- context [if ?b then _ else _] => destruct b
         end; split; reflexivity.
Qed.

Lemma update_balance_logs d n o c :
  preserves_logs (Db.update_balance d n o c).
Proof.
  intros w. unfold Db.update_balance, bind, get, put, throw. simpl.
  destruct (existsb _ _); split; reflexivity.
Qed.

Lemma generateId_logs env : preserves_logs (LedgerManager.generateId env).
Proof. intros w. split; reflexivity. Qed.

#[export] Hint Resolve insert_transaction_logs insert_account_logs
  update_balance_logs generateId_logs : logs.

Lemma createTransaction_logs env d :
  preserves_logs (LedgerManager.createTransaction env d).
Proof. unfold LedgerManager.createTransaction, LedgerManager.now. logs. Qed.

Lemma getTransaction_logs id : preserves_logs (LedgerManager.getTransaction id).
Proof. intros w. rewrite getTransaction_run. split; reflexivity. Qed.

Lemma findByIdempotencyKey_logs key :
  preserves_logs (LedgerManager.findByIdempotencyKey key).
Proof. intros w. rewrite findByIdempotencyKey_run. split; reflexivity. Qed.

Lemma validateTransaction_logs cfg req :
  preserves_logs (PaymentService.validateTransaction cfg req).
Proof. intros w. rewrite validateTransaction_pure. split; reflexivity. Qed.

#[export] Hint Resolve createTransaction_logs getTransaction_logs
  findByIdempotencyKey_logs validateTransaction_logs : logs.

Lemma updateTransaction_logs env id u :
  preserves_logs (LedgerManager.updateTransaction env id u).
Proof.
  unfold LedgerManager.updateTransaction, LedgerManager.now,
    Db.update_transaction.
  logs.
Qed.

#[export] Hint Resolve updateTransaction_logs : logs.

Lemma updateTransactionStatus_logs env id s :
  preserves_logs (LedgerManager.updateTransactionStatus env id s).
Proof.
  unfold LedgerManager.updateTransactionStatus, LedgerManager.now. logs.
Qed.

Lemma ensureAccount_logs env o c :
  preserves_logs (LedgerManager.ensureAccount env o c).
Proof.
  unfold LedgerManager.ensureAccount, Db.select_account_ids,
    LedgerManager.now.
  logs.
Qed.

#[export] Hint Resolve updateTransactionStatus_logs ensureAccount_logs : logs.

Lemma updateBalances_logs env p q a c :
  preserves_logs (LedgerManager.updateBalances env p q a c).
Proof. unfold LedgerManager.updateBalances, LedgerManager.now. logs. Qed.

#[export] Hint Resolve updateBalances_logs : logs.

Lemma keeps_by_logs {A} (P : list ProcessorCall ->
                              list (string * Transaction.t) -> Prop)
    (m : M A) :
  preserves_logs m -> keeps (fun w => P (gateway_calls w) (events w)) m.
Proof.
  intros H w Hw. destruct (H w) as [H1 H2].
  destruct (m w) as [[a|e] w']; simpl in *; now rewrite H1, H2.
Qed.

(** What one call of the processor writes into the world: its entry in the
    log of gateway calls, and nothing into the tables or the events. *)
Lemma processPayment_log env pc a c m w :
  let w' := snd (PaymentProcessor.processPayment env pc a c m w) in
  gateway_calls w' = (gateway_calls w ++ [ChargeCall a c m])%list
  /\ events w' = events w.
Proof.
  unfold PaymentProcessor.processPayment,
    PaymentProcessor.processStripePayment,
    PaymentProcessor.processPayPalPayment,
    PaymentProcessor.processSquarePayment,
    PaymentProcessor.processMockPayment,
    PaymentProcessor.test_mode_payment, PaymentProcessor.fresh_token,
    PaymentProcessor.math_random, returned_without_await, bind, get,
    put, ret, throw.
  simpl.
  destruct (provider pc); simpl; try (split; reflexivity);
    repeat match goal with
           | |- context [if ?b then _ else _] => destruct b
           end; split; reflexivity.
Qed.

Lemma processRefund_log pc r a c w :
  let w' := snd (PaymentProcessor.processRefund pc r a c w) in
  gateway_calls w' = (gateway_calls w ++ [RefundCall r a c])%list
  /\ events w' = events w.
Proof.
  unfold PaymentProcessor.processRefund, PaymentProcessor.processStripeRefund,
    PaymentProcessor.processPayPalRefund,
    PaymentProcessor.processSquareRefund, PaymentProcessor.processMockRefund,
    PaymentProcessor.test_mode_refund, returned_without_await, bind, get,
    put, ret, throw.
  simpl.
  destruct (provider pc); simpl; try (split; reflexivity);
    repeat match goal with
           | |- context [if ?b then _ else _] => destruct b
           end; split; reflexivity.
Qed.

Lemma emit_effect env ev t w :
  PaymentService.emit env ev t w
  = (Ok tt, if eventBus env
            then log_event (("service:payment:" ++ ev)%string, t) w
            else w).
Proof. unfold PaymentService.emit. destruct (eventBus env); reflexivity. Qed.

(** [updateTransactionStatus] on the appended row returns the row it
    leaves in the table. *)
Lemma updateTransactionStatus_returns_row env old tid
    (P : Transaction.t -> Prop) s :
  find (Db.has_id tid) old = None ->
  (forall t u n, P t -> P (LedgerManager.spread t
                              (LedgerManager.mkUpdates (Some s) None u) n)) ->
  hoare (appended_row old tid P)
    (LedgerManager.updateTransactionStatus env tid s)
    (fun c w => transactions w = (old ++ [c])%list
                /\ Transaction.id c = tid /\ P c
                /\ Transaction.status c = s)
    (appended_row old tid P).
Proof.
  intros Hold HP w Hw.
  destruct (find_tx_appended old tid P w Hold Hw) as (t & Ht & Hid & HPt & _).
  rewrite (updateTransactionStatus_on_appended env old tid t s w Hold Ht Hid).
  cbv zeta. simpl. repeat split; auto.
Qed.

(** ** A call of [processTransaction] that stores a new row *)

Section NewRow.

Variables (env : Env) (cfg : PaymentServiceConfig)
          (req : ProcessTransactionRequest) (w : World) (t : Transaction.t).

Let old := transactions w.
Let tid := Transaction.id t.

Hypothesis Hfresh : find (Db.has_id tid) old = None.

(** The new row is the last one and still open, the log of gateway calls
    is [g], and no event has been emitted. *)
Let I (g : list ProcessorCall) (w' : World) : Prop :=
  appended_row old tid (open_copy t) w'
  /\ gateway_calls w' = g /\ events w' = events w.

Lemma updateTransactionStatus_open g s (E : World -> Prop) :
  s <> completed ->
  hoare (I g) (LedgerManager.updateTransactionStatus env tid s)
    (fun _ => I g) E.
Proof.
  intros Hs w' ((x & Hx & Hid & Hcore & Hst) & Hg & He).
  rewrite (updateTransactionStatus_on_appended env old tid x s w' Hfresh Hx
             Hid).
  cbv zeta. split; [|split; [exact Hg|exact He]].
  eexists. split; [reflexivity|]. split; [exact Hid|].
  split; [exact Hcore|exact Hs].
Qed.

Lemma updateTransaction_reference_open g r (E : World -> Prop) :
  hoare (I g)
    (LedgerManager.updateTransaction env tid
       (LedgerManager.mkUpdates None (Some r) None))
    (fun _ => I g) E.
Proof.
  intros w' ((x & Hx & Hid & Hcore & Hst) & Hg & He).
  rewrite (updateTransaction_on_appended env old tid x _ w' Hfresh Hx Hid).
  split; [|split; [exact Hg|exact He]].
  eexists. split; [reflexivity|]. split; [exact Hid|].
  split; [exact Hcore|exact Hst].
Qed.

Lemma processPayment_open g a c m :
  hoare (I g) (PaymentProcessor.processPayment env (processor cfg) a c m)
    (fun _ => I (g ++ [ChargeCall a c m])%list)
    (I (g ++ [ChargeCall a c m])%list).
Proof.
  intros w' (Hrow & Hg & He).
  pose proof (processPayment_transactions env (processor cfg) a c m w') as Ht.
  pose proof (processPayment_log env (processor cfg) a c m w') as [Hl1 Hl2].
  destruct (PaymentProcessor.processPayment env (processor cfg) a c m w')
    as [[x|e] w2]; simpl in *;
    (split; [|split; [now rewrite Hl1, Hg | now rewrite Hl2]]);
    destruct Hrow as (x0 & Hx0 & Hrest); exists x0;
    (split; [now rewrite Ht|exact Hrest]).
Qed.

Lemma updateBalances_open g p q a c :
  keeps (I g) (LedgerManager.updateBalances env p q a c).
Proof.
  apply keeps_and.
  - apply keeps_appended_row, updateBalances_transactions.
  - apply (keeps_by_logs (fun gc ev => gc = g /\ ev = events w)),
      updateBalances_logs.
Qed.

Hypothesis Hcur : Transaction.currency t = request_currency cfg req.

(** From the world that holds the freshly created row, the rest of
    [processTransaction_body]. *)
Lemma processTransaction_rest :
  hoare (I (gateway_calls w))
    (declined <-
       match req_paymentMethod req with
       | Some paymentMethod =>
           if PaymentService.requiresPaymentProcessing (req_payerId req)
                (req_payeeId req)
           then
             LedgerManager.updateTransactionStatus env tid processing ;;;
             result <- PaymentProcessor.processPayment env
                         (processor cfg) (req_amount req)
                         (Transaction.currency t)
                         paymentMethod ;;
             if negb (charge_success result)
             then
               LedgerManager.updateTransactionStatus env tid failed ;;;
               ret (Some (PaymentService.failure "PAYMENT_FAILED"
                            (or_string (charge_error result)
                               "Payment processing failed")))
             else
               LedgerManager.updateTransaction env tid
                 (LedgerManager.mkUpdates None
                    (Some (charge_reference result)) None) ;;;
               ret None
           else ret None
       | None => ret None
       end ;;
     match declined with
     | Some r => ret r
     | None =>
         LedgerManager.updateBalances env (req_payerId req)
           (req_payeeId req) (req_amount req)
           (Transaction.currency t) ;;;
         completedTransaction <-
           LedgerManager.updateTransactionStatus env tid completed ;;
         PaymentService.emit env "transaction:completed"
           completedTransaction ;;;
         ret (PaymentService.succeeded completedTransaction)
     end)
    (stored_new env cfg req w t)
    (I (gateway_calls w ++ charges_of cfg req)%list).
Proof.
  set (g := (gateway_calls w ++ charges_of cfg req)%list).
  eapply hoare_bind
    with (R := fun d w' =>
                 I g w'
                 /\ forall r, d = Some r ->
                      success r = false /\ transaction r = None
                      /\ error r <> None).
  - unfold g, charges_of. rewrite Hcur.
    destruct (req_paymentMethod req) as [method|].
    2:{ rewrite app_nil_r. apply hoare_ret. intros w' Hw'.
        split; [exact Hw'|discriminate]. }
    destruct (PaymentService.requiresPaymentProcessing _ _).
    2:{ rewrite app_nil_r. apply hoare_ret. intros w' Hw'.
        split; [exact Hw'|discriminate]. }
    eapply hoare_bind;
      [apply updateTransactionStatus_open; discriminate|intros ?].
    eapply hoare_bind; [apply processPayment_open|intros result].
    destruct (charge_success result); cbn [negb].
    + eapply hoare_bind;
        [apply updateTransaction_reference_open|intros ?].
      apply hoare_ret. intros w' Hw'. split; [exact Hw'|discriminate].
    + eapply hoare_bind;
        [apply updateTransactionStatus_open; discriminate|intros ?].
      apply hoare_ret. intros w' Hw'. split; [exact Hw'|].
      intros r [= <-]. simpl. repeat split; discriminate.
  - intros [r|].
    + apply hoare_ret. intros w' (((x & Hx & Hid & Hcore & Hst) & Hg & He)
                                  & Hr).
      destruct (Hr r eq_refl) as (Hs & Htr & Her).
      exists x. unfold stored_new. rewrite Hs. repeat split; auto;
        apply Hcore.
    + eapply hoare_conseq with (P := I g) (E := I g);
        [|intros ? [? _]; assumption|intros ? ? H; exact H|auto].
      eapply hoare_bind; [apply updateBalances_open|intros ?].
      intros w' ((x & Hx & Hid & Hcore & Hst) & Hg & He).
      unfold bind at 1.
      rewrite (updateTransactionStatus_on_appended env old tid x completed
                 w' Hfresh Hx Hid).
      cbv zeta. cbn [TransactionStatus_eqb].
      unfold bind. rewrite emit_effect. cbn [ret].
      eexists. unfold events_of.
      destruct (eventBus env); simpl;
        (split; [reflexivity|]); (split; [exact Hid|]);
        (split; [exact Hcore|]); (split; [exact Hg|]);
        rewrite He, ?app_nil_r; repeat split; reflexivity.
Qed.

End NewRow.

Lemma createTransaction_throw env d w e w1 :
  LedgerManager.createTransaction env d w = (Throw e, w1) ->
  untouched w w1.
Proof.
  unfold LedgerManager.createTransaction, LedgerManager.generateId,
    LedgerManager.now, Db.insert_transaction, bind, get, put, ret, throw.
  simpl.
  repeat match goal with
         | |- context [if ?b then _ else _] => destruct b
         end; intros H; inversion H; subst; repeat split.
Qed.

Lemma no_replay_dec req w :
  no_replay req w
  \/ exists key stored, req_idempotencyKey req = Some key /\ key <> ""
                        /\ find_key w key = Some stored.
Proof.
  unfold no_replay.
  destruct (req_idempotencyKey req) as [key|]; [|left; discriminate].
  destruct (String.eqb_spec key "") as [->|Hne].
  - left. intros k [= <-]. congruence.
  - destruct (find_key w key) as [stored|] eqn:Ef.
    + right. now exists key, stored.
    + left. intros k [= <-] _. exact Ef.
Qed.

(** Every call of [processTransaction] returns a result.  Either it stores
    nothing, and leaves the tables and the logs alone, or it is no replay
    and stores one new row. *)
Lemma processTransaction_cases env cfg req w :
  exists r w',
    PaymentService.processTransaction env cfg req w = (Ok r, w')
    /\ ((untouched w w' /\ (is_failure r \/ replayed req w r))
        \/ (no_replay req w
            /\ fst (PaymentService.validateTransaction cfg req w) = Ok tt
            /\ exists t wc,
                 LedgerManager.createTransaction env
                   (PaymentService.pending_data cfg req) w = (Ok t, wc)
                 /\ stored_new env cfg req w t r w')).
Proof.
  destruct (fst (PaymentService.validateTransaction cfg req w)) as [[]|e]
    eqn:Hv.
  2:{ assert (Ev : PaymentService.validateTransaction cfg req w
                   = (Throw e, w)).
      { rewrite (surjective_pairing (_ cfg req w)), Hv.
        now rewrite validateTransaction_pure. }
      eexists _, w. split.
      - unfold PaymentService.processTransaction,
          PaymentService.processTransaction_body.
        unfold try_catch. rewrite (bind_throw _ _ _ _ _ Ev). reflexivity.
      - left. split; [repeat split|]. left. repeat split; discriminate. }
  destruct (no_replay_dec req w) as [Hnew|(key & stored & Hk & Hne & Hf)].
  2:{ eexists _, w. split.
      - exact (processTransaction_replay env cfg req w key stored Hv Hk Hne
                 Hf).
      - left. split; [repeat split|]. right. now exists key, stored. }
  destruct (LedgerManager.createTransaction env
              (PaymentService.pending_data cfg req) w) as [[t|e] wc] eqn:Ec.
  2:{ eexists _, wc. split.
      - unfold PaymentService.processTransaction,
          PaymentService.processTransaction_body.
        unfold try_catch.
        rewrite (bind_ok _ _ _ _ _ (validateTransaction_ok _ _ _ Hv)).
        rewrite (bind_ok _ _ _ _ _ (lookup_finds_nothing req w Hnew)).
        rewrite (bind_throw _ _ _ _ _ Ec). reflexivity.
      - left. split; [exact (createTransaction_throw _ _ _ _ _ Ec)|].
        left. repeat split; discriminate. }
  pose proof (createTransaction_inv env _ w t wc Ec)
    as (Ht & Hfresh & _ & _ & Hwc).
  assert (Htid : gen_id env (tick w) = Transaction.id t) by now rewrite Ht.
  rewrite Htid in Hfresh.
  assert (Hcur : Transaction.currency t = request_currency cfg req)
    by now rewrite Ht.
  pose proof (processTransaction_rest env cfg req w t Hfresh Hcur wc) as Hrest.
  unfold PaymentService.processTransaction, try_catch,
    PaymentService.processTransaction_body.
  rewrite (bind_ok _ _ _ _ _ (validateTransaction_ok _ _ _ Hv)).
  rewrite (bind_ok _ _ _ _ _ (lookup_finds_nothing req w Hnew)).
  rewrite (bind_ok _ _ _ _ _ Ec). cbv zeta.
  match type of Hrest with
  | ?P -> match ?m with _ => _ end =>
      assert (Hpre : P);
      [|specialize (Hrest Hpre); destruct m as [[r|e] w'] eqn:Em]
  end.
  - rewrite Hwc. simpl. split; [|split; reflexivity].
    exists t. split; [reflexivity|]. split; [reflexivity|].
    split; [repeat split|]. rewrite Ht. simpl. discriminate.
  - exists r, w'. split; [reflexivity|]. right.
    split; [exact Hnew|]. split; [reflexivity|]. now exists t, wc.
  - destruct Hrest as ((x & Hx & Hid & Hcore & Hst) & Hg & He).
    eexists _, w'. split; [reflexivity|]. right.
    split; [exact Hnew|]. split; [reflexivity|]. exists t, wc.
    split; [reflexivity|]. exists x. simpl.
    repeat split; auto; try apply Hcore. discriminate.
Qed.

(** ** A call of [processRefund] that stores a refund row *)

Section NewRefund.

Variables (env : Env) (cfg : PaymentServiceConfig) (rreq : RefundRequest)
          (w : World) (orig rt : Transaction.t).

Let old := transactions w.
Let tid := Transaction.id rt.
Let oid := transactionId rreq.

Hypothesis Hfresh : find (Db.has_id tid) old = None.
Hypothesis Horig : find (Db.has_id oid) old = Some orig.

Let I (g : list ProcessorCall) (w' : World) : Prop :=
  appended_row old tid (open_copy rt) w'
  /\ gateway_calls w' = g /\ events w' = events w.

Lemma processRefund_open g r a c :
  hoare (I g) (PaymentProcessor.processRefund (processor cfg) r a c)
    (fun _ => I (g ++ [RefundCall r a c])%list)
    (I (g ++ [RefundCall r a c])%list).
Proof.
  intros w' (Hrow & Hg & He).
  pose proof (processRefund_transactions (processor cfg) r a c w') as Ht.
  pose proof (processRefund_log (processor cfg) r a c w') as [Hl1 Hl2].
  destruct (PaymentProcessor.processRefund (processor cfg) r a c w')
    as [[x|e] w2]; simpl in *;
    (split; [|split; [now rewrite Hl1, Hg | now rewrite Hl2]]);
    destruct Hrow as (x0 & Hx0 & Hrest); exists x0;
    (split; [now rewrite Ht|exact Hrest]).
Qed.

Lemma processRefund_rest :
  hoare (I (gateway_calls w))
    (declined <-
       (if truthy_string (Transaction.processorReference orig)
        then
          match Transaction.processorReference orig with
          | Some reference =>
              result <- PaymentProcessor.processRefund
                          (processor cfg) reference
                          (PaymentService.refundAmount rreq orig)
                          (Transaction.currency orig) ;;
              if negb (refund_success result)
              then
                LedgerManager.updateTransactionStatus env tid failed ;;;
                ret (Some (PaymentService.failure "REFUND_FAILED"
                             (or_string (refund_error result)
                                "Refund processing failed")))
              else ret None
          | None => ret None
          end
        else ret None) ;;
     match declined with
     | Some r => ret r
     | None =>
         LedgerManager.updateBalances env
           (Transaction.payerId rt) (Transaction.payeeId rt)
           (PaymentService.refundAmount rreq orig)
           (Transaction.currency orig) ;;;
         LedgerManager.updateTransactionStatus env oid refunded ;;;
         completedRefund <-
           LedgerManager.updateTransactionStatus env tid completed ;;
         PaymentService.emit env "refund:completed" completedRefund ;;;
         ret (PaymentService.succeeded completedRefund)
     end)
    (stored_refund env rreq w orig rt)
    (I (gateway_calls w ++ refunds_of rreq orig)%list).
Proof.
  set (g := (gateway_calls w ++ refunds_of rreq orig)%list).
  assert (Hne : tid <> oid).
  { intros E. rewrite E in Hfresh. congruence. }
  eapply hoare_bind
    with (R := fun d w' => I g w' /\ forall r, d = Some r -> is_failure r).
  - unfold g, refunds_of.
    destruct (Transaction.processorReference orig) as [reference|].
    2:{ rewrite app_nil_r. apply hoare_ret. intros w' Hw'.
        split; [exact Hw'|discriminate]. }
    destruct (truthy_string (Some reference)).
    2:{ rewrite app_nil_r. apply hoare_ret. intros w' Hw'.
        split; [exact Hw'|discriminate]. }
    eapply hoare_bind; [apply processRefund_open|intros result].
    destruct (refund_success result); cbn [negb].
    + apply hoare_ret. intros w' Hw'. split; [exact Hw'|discriminate].
    + eapply hoare_bind;
        [apply (updateTransactionStatus_open env w rt Hfresh);
         discriminate|intros ?].
      apply hoare_ret. intros w' Hw'. split; [exact Hw'|].
      intros r [= <-]. repeat split; discriminate.
  - intros [r|].
    + apply hoare_ret. intros w' (((x & Hx & Hid & Hcore & Hst) & Hg & He)
                                  & Hr).
      pose proof (Hr r eq_refl) as Hf.
      exists x. destruct Hf as (Hs & Hf). unfold is_failure. rewrite Hs.
      split; [exact Hid|]. split; [exact Hcore|]. split; [exact Hg|].
      repeat split; auto; apply Hf.
    + eapply hoare_conseq with (P := I g) (E := I g);
        [|intros ? [? _]; assumption|intros ? ? H; exact H|auto].
      eapply hoare_bind;
        [apply (updateBalances_open env w rt)|intros ?].
      intros w' ((x & Hx & Hid & Hcore & Hst) & Hg & He).
      fold old in Hx. fold tid in Hid.
      assert (Hfo : find_tx w' oid = Some orig).
      { unfold find_tx. now rewrite Hx, find_app, Horig. }
      unfold bind at 1.
      rewrite (updateTransactionStatus_run env oid refunded w' orig Hfo).
      cbv zeta.
      set (orig' := LedgerManager.spread orig _ _).
      rewrite Hx, (rows_after_update_other oid orig' old x
                     ltac:(now rewrite Hid)).
      set (old' := rows_after_update oid orig' old).
      assert (Hfresh' : find (Db.has_id tid) old' = None).
      { unfold old'. now rewrite find_rows_after_update, Hfresh. }
      unfold bind at 1.
      rewrite (updateTransactionStatus_on_appended env old' tid x completed
                 (set_transactions (old' ++ [x]) w') Hfresh' eq_refl Hid).
      cbv zeta. cbn [TransactionStatus_eqb].
      unfold bind. rewrite emit_effect. cbn [ret].
      exists (with_status x completed (clock env (tick w'))).
      unfold events_of.
      destruct (eventBus env); simpl;
        (split; [exact Hid|]); (split; [exact Hcore|]);
        (split; [exact Hg|]);
        rewrite He, ?app_nil_r;
        (split; [reflexivity|]); (split; [reflexivity|]);
        (split; [|reflexivity]);
        exists (clock env (tick w')); reflexivity.
Qed.

End NewRefund.

Lemma TransactionStatus_eqb_eq a b :
  TransactionStatus_eqb a b = true <-> a = b.
Proof. destruct a, b; simpl; split; congruence. Qed.

(** The three guards of [processRefund]: each answers with its own code and
    leaves the world as it was. *)
Lemma processRefund_guarded env cfg rreq w :
  truthy_bool (refundsEnabled cfg) = false
  \/ find_tx w (transactionId rreq) = None
  \/ (exists orig, find_tx w (transactionId rreq) = Some orig
                   /\ Transaction.status orig <> completed) ->
  exists c m,
    PaymentService.processRefund env cfg rreq w
    = (Ok (PaymentService.failure c m), w)
    /\ c = (if negb (truthy_bool (refundsEnabled cfg))
            then "REFUNDS_DISABLED"
            else match find_tx w (transactionId rreq) with
                 | None => "TRANSACTION_NOT_FOUND"
                 | Some _ => "INVALID_TRANSACTION_STATUS"
                 end).
Proof.
  intros H.
  unfold PaymentService.processRefund, try_catch,
    PaymentService.processRefund_body.
  destruct (truthy_bool (refundsEnabled cfg)); cbn [negb].
  2:{ eexists _, _. split; reflexivity. }
  rewrite (bind_ok _ _ _ _ _ (getTransaction_run _ w)).
  destruct (find_tx w (transactionId rreq)) as [orig|].
  2:{ eexists _, _. split; reflexivity. }
  destruct H as [H|[H|(o & [= <-] & H)]]; try discriminate.
  destruct (TransactionStatus_eqb (Transaction.status orig) completed) eqn:Es.
  - apply TransactionStatus_eqb_eq in Es. contradiction.
  - cbn [negb]. eexists _, _. split; reflexivity.
Qed.

(** Every call of [processRefund] returns a result.  Either it stores
    nothing, and leaves the tables and the logs alone, or the original is
    stored as completed and one refund row is stored. *)
Lemma processRefund_cases env cfg rreq w :
  exists r w',
    PaymentService.processRefund env cfg rreq w = (Ok r, w')
    /\ ((untouched w w' /\ is_failure r)
        \/ (truthy_bool (refundsEnabled cfg) = true
            /\ exists orig rt wc,
                 find_tx w (transactionId rreq) = Some orig
                 /\ Transaction.status orig = completed
                 /\ LedgerManager.createTransaction env
                      (PaymentService.refund_data rreq orig) w = (Ok rt, wc)
                 /\ stored_refund env rreq w orig rt r w')).
Proof.
  assert (Hguard :
    (truthy_bool (refundsEnabled cfg) = false
     \/ find_tx w (transactionId rreq) = None
     \/ (exists orig, find_tx w (transactionId rreq) = Some orig
                      /\ Transaction.status orig <> completed))
    \/ (truthy_bool (refundsEnabled cfg) = true
        /\ exists orig, find_tx w (transactionId rreq) = Some orig
                        /\ Transaction.status orig = completed)).
  { destruct (truthy_bool (refundsEnabled cfg)); [|now left; left].
    destruct (find_tx w (transactionId rreq)) as [orig|];
      [|now left; right; left].
    destruct (TransactionStatus_eqb (Transaction.status orig) completed)
      eqn:Es.
    - right. split; [reflexivity|]. exists orig. split; [reflexivity|].
      now apply TransactionStatus_eqb_eq.
    - left. right. right. exists orig. split; [reflexivity|].
      intros E. rewrite E in Es. discriminate. }
  destruct Hguard as [Hg|(Hen & orig & Horig & Hst)].
  { destruct (processRefund_guarded env cfg rreq w Hg) as (c & m & Hrun & _).
    eexists _, w. split; [exact Hrun|]. left.
    split; repeat split; discriminate. }
  unfold PaymentService.processRefund, try_catch,
    PaymentService.processRefund_body.
  rewrite Hen. cbn [negb].
  rewrite (bind_ok _ _ _ _ _ (getTransaction_run _ w)), Horig.
  rewrite Hst. cbn [TransactionStatus_eqb negb]. cbv zeta.
  destruct (LedgerManager.createTransaction env
              (PaymentService.refund_data rreq orig) w) as [[rt|e] wc] eqn:Ec.
  2:{ rewrite (bind_throw _ _ _ _ _ Ec).
      eexists _, wc. split; [reflexivity|]. left.
      split; [exact (createTransaction_throw _ _ _ _ _ Ec)|].
      repeat split; discriminate. }
  rewrite (bind_ok _ _ _ _ _ Ec).
  pose proof (createTransaction_inv env _ w rt wc Ec)
    as (Ht & Hfresh & _ & _ & Hwc).
  assert (Htid : gen_id env (tick w) = Transaction.id rt) by now rewrite Ht.
  rewrite Htid in Hfresh.
  pose proof (find_tx_has_id w _ _ Horig) as Hoid.
  pose proof (processRefund_rest env cfg rreq w orig rt Hfresh Horig wc)
    as Hrest.
  rewrite Hoid.
  match type of Hrest with
  | ?P -> match ?m with _ => _ end =>
      assert (Hpre : P);
      [|specialize (Hrest Hpre); destruct m as [[r|e] w'] eqn:Em]
  end.
  - rewrite Hwc. simpl. split; [|split; reflexivity].
    exists rt. split; [reflexivity|]. split; [reflexivity|].
    split; [repeat split|]. rewrite Ht. simpl. discriminate.
  - exists r, w'. split; [reflexivity|]. right.
    split; [reflexivity|]. now exists orig, rt, wc.
  - destruct Hrest as ((x & Hx & Hid & Hcore & Hstx) & Hg & He).
    eexists _, w'. split; [reflexivity|]. right.
    split; [reflexivity|]. exists orig, rt, wc.
    split; [first [exact Horig|reflexivity]|].
    split; [first [exact Hst|reflexivity]|].
    split; [first [exact Ec|reflexivity]|].
    exists x. simpl. split; [exact Hid|]. split; [exact Hcore|].
    split; [exact Hg|]. repeat split; auto; discriminate.
Qed.

(** ** What [processTransaction] does to the tables and the logs *)

Lemma requiresPaymentProcessing_true p q :
  PaymentService.requiresPaymentProcessing p q = true <-> p <> SELF_ENTITY.
Proof.
  unfold PaymentService.requiresPaymentProcessing.
  destruct (String.eqb_spec p SELF_ENTITY) as [->|Hp].
  - split; [discriminate|congruence].
  - destruct (q =? SELF_ENTITY)%string; tauto.
Qed.

Lemma stored_new_row env cfg req w t wc r w' :
  LedgerManager.createTransaction env (PaymentService.pending_data cfg req) w
  = (Ok t, wc) ->
  stored_new env cfg req w t r w' ->
  exists t',
    transactions w' = (transactions w ++ [t'])%list
    /\ find_tx w (Transaction.id t') = None
    /\ Transaction.payerId t' = req_payerId req
    /\ Transaction.payeeId t' = req_payeeId req
    /\ Transaction.amount t' = req_amount req
    /\ Transaction.currency t' = request_currency cfg req
    /\ Transaction.metadata t'
       = PaymentService.with_key (req_metadata req) (req_idempotencyKey req).
Proof.
  intros Hc (t' & Htx & Hid & (C1 & C2 & C3 & C4 & C5) & _).
  pose proof (createTransaction_inv env _ w t wc Hc) as (Ht & Hfresh & _).
  exists t'. split; [exact Htx|].
  rewrite Hid, C1, C2, C3, C4, C5, Ht. simpl.
  split; [exact Hfresh|]. repeat split.
Qed.

(** X1: [processTransaction] never rewrites or deletes a stored
    transaction.  The table after the call is the table before it, or the
    table before it followed by one new row; the new row has an id that was
    not stored, and the payer, payee, amount and currency of the request
    (the default currency when the request names none). *)
Theorem processTransaction_only_appends env cfg req w :
  let w' := snd (PaymentService.processTransaction env cfg req w) in
  transactions w' = transactions w
  \/ exists t',
       transactions w' = (transactions w ++ [t'])%list
       /\ find_tx w (Transaction.id t') = None
       /\ Transaction.payerId t' = req_payerId req
       /\ Transaction.payeeId t' = req_payeeId req
       /\ Transaction.amount t' = req_amount req
       /\ Transaction.currency t' = request_currency cfg req.
Proof.
  destruct (processTransaction_cases env cfg req w)
    as (r & w' & Hrun & [[(Ht & _) _]|(_ & _ & t & wc & Hc & Hnew)]);
    rewrite Hrun; simpl.
  - now left.
  - right.
    destruct (stored_new_row env cfg req w t wc r w' Hc Hnew)
      as (t' & H1 & H2 & H3 & H4 & H5 & H6 & _).
    exists t'. repeat split; assumption.
Qed.

(** X2: [processTransaction] asks the processor for at most one charge, and
    only for a request that carries a payment method and whose payer is not
    the platform; the charge is for the amount and currency of the request,
    and the call that made it has stored a transaction row. *)
Theorem processTransaction_charges_at_most_once env cfg req w :
  let w' := snd (PaymentService.processTransaction env cfg req w) in
  gateway_calls w' = gateway_calls w
  \/ exists method t',
       req_paymentMethod req = Some method
       /\ req_payerId req <> SELF_ENTITY
       /\ gateway_calls w'
          = (gateway_calls w
             ++ [ChargeCall (req_amount req) (request_currency cfg req)
                   method])%list
       /\ transactions w' = (transactions w ++ [t'])%list.
Proof.
  destruct (processTransaction_cases env cfg req w)
    as (r & w' & Hrun & [[(_ & _ & Hg & _) _]|(_ & _ & t & wc & Hc & Hnew)]);
    rewrite Hrun; simpl.
  - now left.
  - destruct Hnew as (t' & Htx & _ & _ & Hg & _).
    unfold charges_of in Hg.
    destruct (req_paymentMethod req) as [method|];
      [|left; now rewrite Hg, app_nil_r].
    destruct (PaymentService.requiresPaymentProcessing _ _) eqn:Er;
      [|left; now rewrite Hg, app_nil_r].
    right. exists method, t'. repeat split; auto.
    now apply (requiresPaymentProcessing_true _ (req_payeeId req)).
Qed.

(** X3: [processTransaction] emits an event only for a transaction it has
    just stored and completed: the log of events is left as it was, or the
    service has an event bus, the call returned success with the new row,
    that row is completed, and the one event added is
    'service:payment:transaction:completed' with that row.  A replay emits
    nothing. *)
Theorem processTransaction_emits_on_completion_only env cfg req w :
  let run := PaymentService.processTransaction env cfg req w in
  (events (snd run) = events w
   \/ exists t',
        eventBus env = true
        /\ fst run = Ok (PaymentService.succeeded t')
        /\ Transaction.status t' = completed
        /\ transactions (snd run) = (transactions w ++ [t'])%list
        /\ events (snd run)
           = (events w
              ++ [("service:payment:transaction:completed", t')])%list)
  /\ (forall r, replayed req w r -> fst run = Ok r ->
        events (snd run) = events w).
Proof.
  destruct (processTransaction_cases env cfg req w)
    as (r & w' & Hrun & [[(_ & _ & _ & He) _]|(Hno & _ & t & wc & Hc & Hnew)]);
    rewrite Hrun; simpl.
  - split; [now left|]. intros; exact He.
  - destruct Hnew as (t' & Htx & _ & _ & _ & Hr).
    split.
    + destruct (success r).
      * destruct Hr as (-> & Hst & He). unfold events_of in He.
        destruct (eventBus env) eqn:Eb;
          [|left; now rewrite He, app_nil_r].
        right. exists t'. repeat split; assumption.
      * left. apply Hr.
    + intros r0 (key & stored & Hk & Hne & Hf & _) _.
      rewrite (Hno key Hk Hne) in Hf. discriminate.
Qed.

(** X4: a call of [processTransaction] that is no replay reports success
    exactly when it has stored a new row with status 'completed'; the
    result then carries that row. *)
Theorem new_transaction_succeeds_iff_row_completed env cfg req w r w' :
  no_replay req w ->
  PaymentService.processTransaction env cfg req w = (Ok r, w') ->
  (success r = true
   <-> exists t', transactions w' = (transactions w ++ [t'])%list
                  /\ Transaction.status t' = completed)
  /\ (success r = true ->
      exists t', transaction r = Some t'
                 /\ transactions w' = (transactions w ++ [t'])%list).
Proof.
  intros Hno Hrun.
  destruct (processTransaction_cases env cfg req w)
    as (r0 & w0 & Hrun0 & Hcases).
  rewrite Hrun in Hrun0. inversion Hrun0; subst r0 w0; clear Hrun0.
  destruct Hcases as [[(Ht & _) [(Hs & _)|Hrep]]
                     |(_ & _ & t & wc & Hc & t' & Htx & _ & _ & _ & Hr)].
  - rewrite Hs. split; [split; [discriminate|]|discriminate].
    intros (t' & Htx & _). rewrite Ht in Htx.
    apply (f_equal (@List.length Transaction.t)) in Htx.
    rewrite List.length_app in Htx.
    simpl in Htx. lia.
  - destruct Hrep as (key & stored & Hk & Hne & Hf & _).
    rewrite (Hno key Hk Hne) in Hf. discriminate.
  - destruct (success r).
    + destruct Hr as (-> & Hst & _).
      split; [split; [intros _; now exists t'|reflexivity]|].
      intros _. now exists t'.
    + destruct Hr as (_ & _ & _ & Hst).
      split; [split; [discriminate|]|discriminate].
      intros (t2 & Htx2 & Hst2). rewrite Htx in Htx2.
      apply app_inj_tail in Htx2 as [_ ->]. contradiction.
Qed.

(** X5: [processTransaction] always returns a result, it never throws.  A
    failure result carries an error and no transaction; a success result
    carries no error and a transaction that is stored in the table. *)
Theorem processTransaction_result_shape env cfg req w :
  exists r w',
    PaymentService.processTransaction env cfg req w = (Ok r, w')
    /\ (is_failure r
        \/ (success r = true /\ error r = None
            /\ exists t, transaction r = Some t
                         /\ In t (transactions w'))).
Proof.
  destruct (processTransaction_cases env cfg req w)
    as (r & w' & Hrun & Hcases).
  exists r, w'. split; [exact Hrun|].
  destruct Hcases as [[(Ht & _) [Hf|Hrep]]
                     |(_ & _ & t & wc & Hc & t' & Htx & _ & _ & _ & Hr)].
  - now left.
  - right. destruct Hrep as (key & stored & _ & _ & Hf & ->).
    repeat split. exists stored. split; [reflexivity|].
    rewrite Ht. unfold find_key in Hf. now apply find_some in Hf.
  - destruct (success r) eqn:Es.
    + right. destruct Hr as (-> & _). repeat split.
      exists t'. split; [reflexivity|]. rewrite Htx.
      apply in_or_app. right. now left.
    + left. destruct Hr as (H1 & H2 & _). now repeat split.
Qed.

(** ** What [processRefund] does to the tables and the logs *)

Lemma find_tx_after_refund w old oid orig' rt' i :
  transactions w = (rows_after_update oid orig' old ++ [rt'])%list ->
  forall t, find (Db.has_id i) old = Some t ->
  find_tx w i
  = Some (if Db.has_id oid t
          then Db.set_row (Transaction.status orig')
                 (Transaction.processorReference orig')
                 (Transaction.metadata orig') (Transaction.updatedAt orig')
                 (Transaction.completedAt orig') t
          else t).
Proof.
  intros Htx t Ht. unfold find_tx.
  now rewrite Htx, find_app, find_rows_after_update, Ht.
Qed.

(** The stored form of the original after a refund that went through. *)
Lemma stored_refund_original env rreq w orig rt r w' :
  find_tx w (transactionId rreq) = Some orig ->
  stored_refund env rreq w orig rt r w' ->
  success r = true ->
  exists n, find_tx w' (transactionId rreq)
            = Some (with_status orig refunded n).
Proof.
  intros Horig (rt' & _ & _ & _ & Hr) Hs. rewrite Hs in Hr.
  destruct Hr as (_ & _ & (n & Htx) & _). exists n.
  rewrite (find_tx_after_refund w' _ _ _ _ _ Htx orig Horig).
  unfold Db.has_id. rewrite (find_tx_has_id w _ _ Horig), String.eqb_refl.
  reflexivity.
Qed.

(** X6: [processRefund] always returns a result, it never throws.  A
    failure result carries an error and no transaction; a success result
    carries no error and a transaction that is stored in the table with
    status 'completed'. *)
Theorem processRefund_result_shape env cfg rreq w :
  exists r w',
    PaymentService.processRefund env cfg rreq w = (Ok r, w')
    /\ (is_failure r
        \/ (success r = true /\ error r = None
            /\ exists t, transaction r = Some t
                         /\ In t (transactions w')
                         /\ Transaction.status t = completed)).
Proof.
  destruct (processRefund_cases env cfg rreq w) as (r & w' & Hrun & Hcases).
  exists r, w'. split; [exact Hrun|].
  destruct Hcases as [[_ Hf]|(_ & orig & rt & wc & _ & _ & _ & rt' & _ & _
                              & _ & Hr)].
  - now left.
  - destruct (success r) eqn:Es.
    + right. destruct Hr as (-> & Hst & (n & Htx) & _). repeat split.
      exists rt'. split; [reflexivity|]. split; [|exact Hst].
      rewrite Htx. apply in_or_app. right. now left.
    + left. apply Hr.
Qed.

(** X7: the three guards of [processRefund].  With refunds not enabled the
    call answers REFUNDS_DISABLED; otherwise, with no stored transaction of
    the requested id, TRANSACTION_NOT_FOUND; otherwise, with a stored
    transaction whose status is not 'completed',
    INVALID_TRANSACTION_STATUS.  In each case the world is left as it was:
    no row, no balance change, no processor call, no event, no id drawn. *)
Theorem refund_guards_leave_world_alone env cfg rreq w :
  truthy_bool (refundsEnabled cfg) = false
  \/ find_tx w (transactionId rreq) = None
  \/ (exists orig, find_tx w (transactionId rreq) = Some orig
                   /\ Transaction.status orig <> completed) ->
  exists m,
    PaymentService.processRefund env cfg rreq w
    = (Ok (PaymentService.failure
             (if negb (truthy_bool (refundsEnabled cfg))
              then "REFUNDS_DISABLED"
              else match find_tx w (transactionId rreq) with
                   | None => "TRANSACTION_NOT_FOUND"
                   | Some _ => "INVALID_TRANSACTION_STATUS"
                   end) m), w).
Proof.
  intros H.
  destruct (processRefund_guarded env cfg rreq w H) as (c & m & Hrun & ->).
  now exists m.
Qed.

(** X8: a refund that reports success was asked for a stored transaction
    with status 'completed', while refunds are enabled.  Afterwards that
    transaction is stored with status 'refunded' and is otherwise the same
    (parties, amount, currency, metadata, processor reference); the
    transaction of the result is a new completed row that reverses payer
    and payee, in the currency of the original, for the requested amount
    (the original's when the request names none or 0), and names the
    original in [metadata.originalTransactionId]. *)
Theorem successful_refund_marks_original env cfg rreq w r w' :
  PaymentService.processRefund env cfg rreq w = (Ok r, w') ->
  success r = true ->
  truthy_bool (refundsEnabled cfg) = true
  /\ exists orig n refund,
       find_tx w (transactionId rreq) = Some orig
       /\ Transaction.status orig = completed
       /\ find_tx w' (transactionId rreq)
          = Some (with_status orig refunded n)
       /\ transaction r = Some refund
       /\ find_tx w (Transaction.id refund) = None
       /\ Transaction.status refund = completed
       /\ Transaction.payerId refund = Transaction.payeeId orig
       /\ Transaction.payeeId refund = Transaction.payerId orig
       /\ Transaction.amount refund = PaymentService.refundAmount rreq orig
       /\ Transaction.currency refund = Transaction.currency orig
       /\ originalTransactionId (Transaction.metadata refund)
          = Some (transactionId rreq).
Proof.
  intros Hrun Hs.
  destruct (processRefund_cases env cfg rreq w) as (r0 & w0 & Hrun0 & Hcases).
  rewrite Hrun in Hrun0. inversion Hrun0; subst r0 w0; clear Hrun0.
  destruct Hcases as [[_ (Hf & _)]|(Hen & orig & rt & wc & Horig & Hst & Hc
                                    & Hnew)]; [congruence|].
  split; [exact Hen|].
  destruct (stored_refund_original env rreq w orig rt r w' Horig Hnew Hs)
    as (n & Hfo).
  destruct Hnew as (rt' & Hid & (C1 & C2 & C3 & C4 & C5) & _ & Hr).
  rewrite Hs in Hr. destruct Hr as (-> & Hst' & _).
  pose proof (createTransaction_inv env _ w rt wc Hc) as (Ht & Hfresh & _).
  exists orig, n, rt'. split; [exact Horig|]. split; [exact Hst|].
  split; [exact Hfo|]. split; [reflexivity|].
  rewrite Hid, C1, C2, C3, C4, C5, Ht. simpl.
  split; [exact Hfresh|]. split; [exact Hst'|]. repeat split.
Qed.

(** X9: [processRefund] asks the processor for at most one refund, and only
    when the original transaction is stored with a non-empty processor
    reference; it emits at most one event, 'service:payment:refund:completed'
    with the completed refund row, and only when it reports success and the
    service has an event bus. *)
Theorem processRefund_calls_and_events env cfg rreq w :
  let run := PaymentService.processRefund env cfg rreq w in
  (gateway_calls (snd run) = gateway_calls w
   \/ exists orig reference,
        find_tx w (transactionId rreq) = Some orig
        /\ Transaction.processorReference orig = Some reference
        /\ reference <> ""
        /\ gateway_calls (snd run)
           = (gateway_calls w
              ++ [RefundCall reference
                    (PaymentService.refundAmount rreq orig)
                    (Transaction.currency orig)])%list)
  /\ (events (snd run) = events w
      \/ exists refund,
           eventBus env = true
           /\ fst run = Ok (PaymentService.succeeded refund)
           /\ events (snd run)
              = (events w
                 ++ [("service:payment:refund:completed", refund)])%list).
Proof.
  destruct (processRefund_cases env cfg rreq w) as (r & w' & Hrun & Hcases).
  rewrite Hrun. simpl.
  destruct Hcases as [[(_ & _ & Hg & He) _]
                     |(_ & orig & rt & wc & Horig & _ & _ & rt' & _ & _
                       & Hg & Hr)].
  - split; now left.
  - split.
    + unfold refunds_of in Hg.
      destruct (Transaction.processorReference orig) as [reference|] eqn:Er;
        [|left; now rewrite Hg, app_nil_r].
      simpl in Hg.
      destruct (String.eqb_spec reference "") as [|Hne];
        [left; now rewrite Hg, app_nil_r|].
      right. exists orig, reference. repeat split; auto.
    + destruct (success r).
      * destruct Hr as (-> & _ & _ & He). unfold events_of in He.
        destruct (eventBus env);
          [|left; now rewrite He, app_nil_r].
        right. exists rt'. repeat split. exact He.
      * left. apply Hr.
Qed.

(** ** The life of a stored transaction *)

Lemma find_tx_same w w' i :
  transactions w' = transactions w -> find_tx w' i = find_tx w i.
Proof. unfold find_tx. now intros ->. Qed.

Lemma find_tx_behind w w' x i t :
  transactions w' = (transactions w ++ [x])%list ->
  find_tx w i = Some t -> find_tx w' i = Some t.
Proof. unfold find_tx. intros -> H. now rewrite find_app, H. Qed.

(** One call leaves a stored transaction as it is, unless the call is a
    refund of that transaction, which is then completed and becomes
    refunded. *)
Lemma after_call_row env cfg c w i t :
  find_tx w i = Some t ->
  find_tx (after_call env cfg w c) i = Some t
  \/ (Transaction.status t = completed
      /\ exists rreq n,
           c = Refund rreq /\ transactionId rreq = i
           /\ find_tx (after_call env cfg w c) i
              = Some (with_status t refunded n)).
Proof.
  intros Hf. destruct c as [req|rreq]; simpl.
  - left.
    destruct (processTransaction_cases env cfg req w)
      as (r & w' & Hrun & [[(Ht & _) _]|(_ & _ & t0 & wc & _ & t' & Htx & _)]);
      rewrite Hrun; simpl.
    + now rewrite (find_tx_same w w' i Ht).
    + exact (find_tx_behind w w' t' i t Htx Hf).
  - destruct (processRefund_cases env cfg rreq w)
      as (r & w' & Hrun & [[(Ht & _) _]
                          |(_ & orig & rt & wc & Horig & Hst & _ & Hnew)]);
      rewrite Hrun; simpl.
    + left. now rewrite (find_tx_same w w' i Ht).
    + destruct (success r) eqn:Es.
      * destruct (String.eqb_spec (transactionId rreq) i) as [Hi|Hi].
        -- right. rewrite <- Hi in Hf. rewrite Hf in Horig.
           inversion Horig; subst orig. split; [exact Hst|].
           destruct (stored_refund_original env rreq w t rt r w' Hf Hnew Es)
             as (n & Hn).
           exists rreq, n. rewrite <- Hi. now repeat split.
        -- left. destruct Hnew as (rt' & _ & _ & _ & Hr). rewrite Es in Hr.
           destruct Hr as (_ & _ & (n & Htx) & _).
           rewrite (find_tx_after_refund w' _ _ _ _ _ Htx t Hf).
           unfold Db.has_id. rewrite (find_tx_has_id w _ _ Hf).
           destruct (String.eqb_spec i (transactionId rreq));
             [congruence|reflexivity].
      * left. destruct Hnew as (rt' & _ & _ & _ & Hr). rewrite Es in Hr.
        destruct Hr as (_ & Htx & _).
        exact (find_tx_behind w w' rt' i t Htx Hf).
Qed.

Lemma after_calls_keeps_closed env cfg calls :
  forall w i t,
    find_tx w i = Some t -> Transaction.status t <> completed ->
    find_tx (after_calls env cfg calls w) i = Some t.
Proof.
  induction calls as [|c calls IH]; intros w i t Hf Hst; [exact Hf|].
  simpl. apply IH; [|exact Hst].
  destruct (after_call_row env cfg c w i t Hf) as [H|(Hc & _)];
    [exact H|contradiction].
Qed.

(** X10: over any sequence of calls of [processTransaction] and
    [processRefund], a stored transaction stays stored under its id, with
    the payer, payee, amount, currency and metadata it has; its status
    either stays what it is, or it was 'completed' and is 'refunded'.  In
    particular a transaction left 'pending', 'processing' or 'failed' is
    never picked up again. *)
Theorem stored_transaction_only_turns_refunded env cfg calls :
  forall w i t,
    find_tx w i = Some t ->
    exists t', find_tx (after_calls env cfg calls w) i = Some t'
               /\ same_core t t'
               /\ (Transaction.status t' = Transaction.status t
                   \/ (Transaction.status t = completed
                       /\ Transaction.status t' = refunded)).
Proof.
  induction calls as [|c calls IH]; intros w i t Hf.
  - exists t. split; [exact Hf|]. split; [repeat split|now left].
  - simpl.
    destruct (after_call_row env cfg c w i t Hf)
      as [H|(Hc & rreq & n & _ & _ & H)].
    + exact (IH _ i t H).
    + exists (with_status t refunded n). split; [|split].
      * apply (after_calls_keeps_closed env cfg calls _ i _ H). discriminate.
      * repeat split.
      * right. split; [exact Hc|reflexivity].
Qed.

(** X11: no transaction is refunded twice.  Once a refund of a transaction
    has reported success, every later refund request for that transaction,
    after whatever calls in between, is answered
    INVALID_TRANSACTION_STATUS and changes nothing. *)
Theorem no_second_refund env cfg rreq w r w' calls rreq2 :
  PaymentService.processRefund env cfg rreq w = (Ok r, w') ->
  success r = true ->
  transactionId rreq2 = transactionId rreq ->
  let w2 := after_calls env cfg calls w' in
  PaymentService.processRefund env cfg rreq2 w2
  = (Ok (PaymentService.failure "INVALID_TRANSACTION_STATUS"
           "Can only refund completed transactions"), w2).
Proof.
  intros Hrun Hs Hid w2.
  destruct (processRefund_cases env cfg rreq w) as (r0 & w0 & Hrun0 & Hcases).
  rewrite Hrun in Hrun0. inversion Hrun0; subst r0 w0; clear Hrun0.
  destruct Hcases as [[_ (Hf & _)]|(Hen & orig & rt & wc & Horig & Hst & Hc
                                    & Hnew)]; [congruence|].
  destruct (stored_refund_original env rreq w orig rt r w' Horig Hnew Hs)
    as (n & Hfo).
  assert (Hf2 : find_tx w2 (transactionId rreq2)
                = Some (with_status orig refunded n)).
  { rewrite Hid. apply after_calls_keeps_closed; [exact Hfo|discriminate]. }
  unfold PaymentService.processRefund, try_catch,
    PaymentService.processRefund_body.
  rewrite Hen. cbn [negb].
  now rewrite (bind_ok _ _ _ _ _ (getTransaction_run _ w2)), Hf2.
Qed.

(** The result of a call of [processTransaction] is a failure or carries a
    transaction. *)
Lemma processTransaction_answer env cfg req w r w' :
  PaymentService.processTransaction env cfg req w = (Ok r, w') ->
  is_failure r \/ (success r = true /\ error r = None
                   /\ exists t, transaction r = Some t).
Proof.
  intros Hrun.
  destruct (processTransaction_cases env cfg req w)
    as (r0 & w0 & Hrun0 & Hcases).
  rewrite Hrun in Hrun0. inversion Hrun0; subst r0 w0; clear Hrun0.
  destruct Hcases as [[_ [Hf|(key & stored & _ & _ & _ & ->)]]
                     |(_ & _ & t & wc & Hc & t' & _ & _ & _ & _ & Hr)].
  - now left.
  - right. repeat split. now exists stored.
  - destruct (success r) eqn:Es.
    + right. destruct Hr as (-> & _). repeat split. now exists t'.
    + left. destruct Hr as (H1 & H2 & _). now repeat split.
Qed.

(** ** Where the money goes *)

(** X12: a transfer that reports success, and is no replay, of an amount
    that the DECIMAL(19,4) columns hold exactly (at most four decimals, as
    every amount of the embedding, and within the range of the column, also
    once added to what the payee holds) has moved exactly the amount of the
    request, in the currency of the request: the payer holds that much less
    and the payee that much more than before (a party without an account
    counting for 0), except that the platform's own balance is not touched,
    and every other balance is what it was. *)
Theorem completed_transfer_moves_the_amount env cfg req w r w' :
  no_replay req w ->
  PaymentService.processTransaction env cfg req w = (Ok r, w') ->
  success r = true ->
  fits_decimal (req_amount req) ->
  fits_decimal (balance_or_zero w (req_payeeId req) (request_currency cfg req)
                + req_amount req) ->
  let cur := request_currency cfg req in
  (req_payerId req <> SELF_ENTITY ->
   balanceOf w' (req_payerId req) cur
   = Some (balance_or_zero w (req_payerId req) cur - req_amount req))
  /\ (req_payeeId req <> SELF_ENTITY ->
      balanceOf w' (req_payeeId req) cur
      = Some (balance_or_zero w (req_payeeId req) cur + req_amount req))
  /\ (forall o c,
         o = SELF_ENTITY \/ c <> cur
         \/ (o <> req_payerId req /\ o <> req_payeeId req) ->
         balanceOf w' o c = balanceOf w o c).
Proof.
  intros Hno Hrun Hs _ _ cur.
  destruct (processTransaction_answer env cfg req w r w' Hrun)
    as [(Hf & _)|(_ & _ & t & Ht)]; [congruence|].
  destruct (processTransaction_success_inv env cfg req w r w' t Hno Hrun Hs Ht)
    as (Hne & _ & _ & _ & _ & _ & _ & _ & _ & _ & Hbal & _).
  fold cur in Hbal.
  split; [|split].
  - intros Hp. rewrite Hbal. unfold shifted_balance, balance_or_zero, balanceOf.
    rewrite Currency_eqb_refl, String.eqb_refl.
    destruct (String.eqb_spec (req_payerId req) SELF_ENTITY);
      [contradiction|reflexivity].
  - intros Hq. rewrite Hbal. unfold shifted_balance, balance_or_zero, balanceOf.
    rewrite Currency_eqb_refl, String.eqb_refl.
    destruct (String.eqb_spec (req_payeeId req) SELF_ENTITY);
      [contradiction|]. simpl.
    destruct (String.eqb_spec (req_payeeId req) (req_payerId req));
      [congruence|reflexivity].
  - intros o c H. rewrite Hbal. unfold shifted_balance, balanceOf.
    destruct (Currency_eqb c cur) eqn:Ec; [|reflexivity].
    apply Currency_eqb_eq in Ec.
    destruct (String.eqb_spec o SELF_ENTITY); [reflexivity|]. simpl.
    destruct H as [H|[H|[H1 H2]]]; try contradiction.
    destruct (String.eqb_spec o (req_payerId req)); [contradiction|].
    destruct (String.eqb_spec o (req_payeeId req)); [contradiction|].
    reflexivity.
Qed.

(** ** The platform's own row *)

Lemma ensureAccount_platform env o c' c b :
  keeps (fun w => platform_holds c b (accounts w))
    (LedgerManager.ensureAccount env o c').
Proof.
  intros w Hw. unfold LedgerManager.ensureAccount.
  destruct (String.eqb_spec o SELF_ENTITY) as [Ho|Ho]; [exact Hw|].
  unfold Db.select_account_ids, LedgerManager.generateId, LedgerManager.now,
    Db.insert_account, bind, get, put, ret, throw. simpl.
  destruct (map Account.id _); [|exact Hw]. simpl.
  destruct (existsb _ _); [exact Hw|].
  destruct (existsb _ _); [exact Hw|].
  simpl. unfold platform_holds in *. rewrite row_balance_app, Hw.
  destruct b; [reflexivity|].
  unfold row_balance. simpl. unfold Db.owns. simpl.
  destruct (String.eqb_spec o SELF_ENTITY); [contradiction|reflexivity].
Qed.

Lemma update_balance_platform d n o c' c b :
  o <> SELF_ENTITY ->
  keeps (fun w => platform_holds c b (accounts w))
    (Db.update_balance d n o c').
Proof.
  intros Ho w Hw. unfold Db.update_balance, bind, get, put, throw. simpl.
  destruct (existsb _ _); [exact Hw|]. simpl.
  unfold platform_holds in *. rewrite row_balance_shifted, Hw.
  destruct (String.eqb_spec SELF_ENTITY o); [congruence|].
  simpl. now destruct b.
Qed.

Lemma updateBalances_platform env p q a c' c b :
  keeps (fun w => platform_holds c b (accounts w))
    (LedgerManager.updateBalances env p q a c').
Proof.
  unfold LedgerManager.updateBalances.
  apply keeps_bind; [apply ensureAccount_platform|intros _].
  apply keeps_bind; [apply ensureAccount_platform|intros _].
  apply keeps_bind; [|intros _].
  - destruct (String.eqb_spec p SELF_ENTITY); simpl; [apply keeps_ret|].
    apply keeps_bind; [|intros ?; now apply update_balance_platform].
    intros w Hw. exact Hw.
  - destruct (String.eqb_spec q SELF_ENTITY); simpl; [apply keeps_ret|].
    apply keeps_bind; [|intros ?; now apply update_balance_platform].
    intros w Hw. exact Hw.
Qed.

#[export] Hint Resolve updateBalances_platform : keeps.

Lemma processTransaction_platform env cfg req c b :
  keeps (fun w => platform_holds c b (accounts w))
    (PaymentService.processTransaction env cfg req).
Proof.
  unfold PaymentService.processTransaction,
    PaymentService.processTransaction_body.
  keeps_accounts (platform_holds c b).
Qed.

Lemma processRefund_platform env cfg rreq c b :
  keeps (fun w => platform_holds c b (accounts w))
    (PaymentService.processRefund env cfg rreq).
Proof.
  unfold PaymentService.processRefund, PaymentService.processRefund_body.
  keeps_accounts (platform_holds c b).
Qed.

(** X13: no sequence of calls of [processTransaction] and [processRefund]
    changes what the platform's own account shows, in any currency: charges
    paid to the platform are not credited to it, and payouts and refunds
    paid by it are not debited. *)
Theorem platform_balance_never_changes env cfg calls :
  forall w c,
    balanceOf (after_calls env cfg calls w) SELF_ENTITY c
    = balanceOf w SELF_ENTITY c.
Proof.
  induction calls as [|call calls IH]; intros w c; [reflexivity|].
  simpl. rewrite IH. unfold balanceOf.
  destruct call as [req|rreq]; simpl.
  - exact (keeps_snd _ _ w
             (processTransaction_platform env cfg req c
                (row_balance (accounts w) SELF_ENTITY c)) eq_refl).
  - exact (keeps_snd _ _ w
             (processRefund_platform env cfg rreq c
                (row_balance (accounts w) SELF_ENTITY c)) eq_refl).
Qed.

(** ** Round trips through the ledger *)

(** X14: what [createTransaction] has stored, [getTransaction] reads back:
    the created transaction under its id, and every transaction stored
    before under its own id; [findByIdempotencyKey] finds the created
    transaction under the key of its metadata, when no stored transaction
    carried that key. *)
Theorem created_transaction_is_read_back env d w t w' :
  LedgerManager.createTransaction env d w = (Ok t, w') ->
  LedgerManager.getTransaction (Transaction.id t) w' = (Ok (Some t), w')
  /\ (forall i u, find_tx w i = Some u ->
        LedgerManager.getTransaction i w' = (Ok (Some u), w'))
  /\ (forall key, idempotencyKey (LedgerManager.d_metadata d) = Some key ->
        find_key w key = None ->
        LedgerManager.findByIdempotencyKey key w' = (Ok (Some t), w')).
Proof.
  intros Hc.
  pose proof (createTransaction_inv env d w t w' Hc)
    as (Ht & Hfresh & _ & _ & Hw').
  assert (Htx : transactions w' = (transactions w ++ [t])%list)
    by now rewrite Hw'.
  assert (Hid : gen_id env (tick w) = Transaction.id t) by now rewrite Ht.
  rewrite Hid in Hfresh.
  split; [|split].
  - rewrite getTransaction_run.
    now rewrite (find_tx_on_appended (transactions w) _ t w' Hfresh Htx
                   eq_refl).
  - intros i u Hu. rewrite getTransaction_run.
    now rewrite (find_tx_behind w w' t i u Htx Hu).
  - intros key Hk Hnone. rewrite findByIdempotencyKey_run.
    unfold find_key in *. rewrite Htx, find_app, Hnone. simpl.
    unfold Db.has_key. rewrite Ht. simpl. rewrite Hk, String.eqb_refl.
    reflexivity.
Qed.

(** X16: [ensureAccount] settles: after a call that returned, a second call
    for the same owner and currency changes nothing.  It never opens an
    account for the platform, opens an account with balance 0 exactly when
    the owner had none in that currency, and leaves every other balance
    alone. *)
Theorem ensureAccount_settles env o c w w' :
  LedgerManager.ensureAccount env o c w = (Ok tt, w') ->
  LedgerManager.ensureAccount env o c w' = (Ok tt, w')
  /\ (o = SELF_ENTITY -> w' = w)
  /\ (o <> SELF_ENTITY ->
      balanceOf w' o c = Some (balance_or_zero w o c))
  /\ (forall o' c', o' <> o \/ c' <> c ->
        balanceOf w' o' c' = balanceOf w o' c').
Proof.
  intros H.
  pose proof (ensureAccount_inv env o c w w' H) as (_ & _ & Hb).
  split; [|split; [|split]].
  - apply ensureAccount_ok.
    destruct (String.eqb_spec o SELF_ENTITY) as [Ho|Ho]; [now left|right].
    rewrite Hb, String.eqb_refl, Currency_eqb_refl.
    destruct (row_balance (accounts w) o c); [discriminate|].
    destruct (String.eqb_spec o SELF_ENTITY); [contradiction|discriminate].
  - intros Ho. unfold LedgerManager.ensureAccount in H.
    rewrite Ho in H. simpl in H. now inversion H.
  - intros Ho. unfold balanceOf, balance_or_zero, balanceOf.
    rewrite Hb, String.eqb_refl, Currency_eqb_refl.
    destruct (row_balance (accounts w) o c); [reflexivity|].
    destruct (String.eqb_spec o SELF_ENTITY); [contradiction|reflexivity].
  - intros o' c' Hne. unfold balanceOf. rewrite Hb.
    destruct (row_balance (accounts w) o' c'); [reflexivity|].
    destruct (String.eqb_spec o' o) as [->|]; [|reflexivity].
    destruct (Currency_eqb c' c) eqn:Ec; [|reflexivity].
    apply Currency_eqb_eq in Ec. destruct Hne; contradiction.
Qed.


(** ** Listing the transactions of an owner *)

Lemma insert_newest_perm t rows :
  Permutation (Db.insert_newest t rows) (t :: rows).
Proof.
  induction rows as [|r rows IH]; simpl; [reflexivity|].
  destruct (Transaction.createdAt r <=? Transaction.createdAt t);
    [reflexivity|].
  rewrite IH. apply perm_swap.
Qed.

Lemma order_by_created_at_desc_perm rows :
  Permutation (Db.order_by_created_at_desc rows) rows.
Proof.
  induction rows as [|r rows IH]; simpl; [reflexivity|].
  unfold Db.order_by_created_at_desc in *. simpl.
  rewrite insert_newest_perm. now apply perm_skip.
Qed.

Lemma insert_newest_sorted t rows :
  newest_first rows -> newest_first (Db.insert_newest t rows).
Proof.
  unfold newest_first. induction rows as [|r rows IH]; intros Hs; simpl.
  - repeat constructor.
  - destruct (Z.leb_spec (Transaction.createdAt r) (Transaction.createdAt t))
      as [Hle|Hlt].
    + constructor; [exact Hs|].
      apply StronglySorted_inv in Hs as [_ Hall].
      constructor; [exact Hle|].
      rewrite Forall_forall in *. intros x Hx. specialize (Hall x Hx). lia.
    + apply StronglySorted_inv in Hs as [Hs Hall].
      constructor; [now apply IH|].
      rewrite Forall_forall in *. intros x Hx.
      apply (Permutation_in _ (insert_newest_perm t rows)) in Hx.
      destruct Hx as [<-|Hx]; [lia|now apply Hall].
Qed.

Lemma order_by_created_at_desc_sorted rows :
  newest_first (Db.order_by_created_at_desc rows).
Proof.
  unfold Db.order_by_created_at_desc.
  induction rows as [|r rows IH]; simpl; [constructor|].
  now apply insert_newest_sorted.
Qed.

Lemma newest_first_skipn n rows :
  newest_first rows -> newest_first (skipn n rows).
Proof.
  unfold newest_first. revert rows.
  induction n as [|n IH]; intros rows Hs; [exact Hs|].
  destruct rows as [|r rows]; [exact Hs|]. simpl.
  apply IH. now apply StronglySorted_inv in Hs.
Qed.

Lemma newest_first_firstn n rows :
  newest_first rows -> newest_first (firstn n rows).
Proof.
  unfold newest_first. revert rows.
  induction n as [|n IH]; intros rows Hs; [constructor|].
  destruct rows as [|r rows]; [constructor|]. simpl.
  apply StronglySorted_inv in Hs as [Hs Hall].
  constructor; [now apply IH|].
  rewrite Forall_forall in *. intros x Hx. apply Hall.
  rewrite <- (firstn_skipn n rows). apply in_or_app. now left.
Qed.

Lemma involves_listed o st t :
  Db.involves o st t = true <-> listed o st t.
Proof.
  unfold Db.involves, listed.
  rewrite orb_true_iff, andb_true_iff, !String.eqb_eq.
  destruct st as [s|].
  - rewrite TransactionStatus_eqb_eq.
    split; (intros [H|[H1 H2]]; [now left|right; split; [exact H1|]]).
    + now intros s' [= <-].
    + now apply H2.
  - split; (intros [H|[H1 H2]]; [now left|right; split; [exact H1|]]).
    + discriminate.
    + reflexivity.
Qed.

(** The answer of [getTransactions] for a limit and an offset that are not
    negative. *)
Lemma getTransactions_run o st l k w :
  0 <= l -> 0 <= k ->
  LedgerManager.getTransactions o
    (Some (LedgerManager.mkListOptions st (Some l) (Some k))) w
  = (Ok (page l k
           (Db.order_by_created_at_desc
              (filter (Db.involves o st) (transactions w)))), w).
Proof.
  intros Hl Hk.
  unfold LedgerManager.getTransactions, Db.select_transactions_of, page,
    LedgerManager.mapRowToTransaction, bind, get, ret, throw. simpl.
  destruct (Z.eqb_spec l 0) as [->|Hl0];
    destruct (Z.eqb_spec k 0) as [->|Hk0]; simpl;
    repeat match goal with
           | |- context [?x <? 0] =>
               destruct (Z.ltb_spec x 0); [lia|]
           end; now rewrite map_id.
Qed.

Lemma firstn_plus {A} n m (l : list A) :
  firstn (n + m) l = (firstn n l ++ firstn m (skipn n l))%list.
Proof.
  revert l. induction n as [|n IH]; intros l; [reflexivity|].
  destruct l as [|x l]; simpl; [now destruct m|].
  now rewrite IH.
Qed.

Lemma skipn_plus {A} n m (l : list A) :
  skipn (n + m) l = skipn m (skipn n l).
Proof.
  revert l. induction n as [|n IH]; intros l; [reflexivity|].
  destruct l as [|x l]; simpl; [now destruct m|apply IH].
Qed.

(** X17: without LIMIT and OFFSET, [getTransactions] returns, and changes
    nothing; it lists every stored transaction in which the owner is the
    payer, whatever its status, and every stored transaction in which the
    owner is the payee and whose status is the one asked for, if one is
    asked for; it lists nothing else, and each row once per stored row.  The
    status filter does not apply to the rows the owner pays: in the WHERE
    clause, AND binds tighter than OR. *)
Theorem getTransactions_filters_status_on_payee_side o st w :
  exists rows,
    LedgerManager.getTransactions o
      (Some (LedgerManager.mkListOptions st None None)) w = (Ok rows, w)
    /\ Permutation rows (filter (Db.involves o st) (transactions w))
    /\ forall t, In t rows <-> In t (transactions w) /\ listed o st t.
Proof.
  eexists. split; [|split].
  - unfold LedgerManager.getTransactions, Db.select_transactions_of,
      LedgerManager.mapRowToTransaction, bind, get, ret. simpl.
    now rewrite map_id.
  - apply order_by_created_at_desc_perm.
  - intros t. rewrite <- involves_listed, <- filter_In.
    split; apply Permutation_in;
      [|symmetry]; apply order_by_created_at_desc_perm.
Qed.

(** X18: whatever the options, the rows that [getTransactions] returns are
    ordered newest first by creation time, are stored rows, and involve the
    owner as payer, or as payee with the status asked for; the call changes
    nothing. *)
Theorem getTransactions_newest_first o options w rows w' :
  LedgerManager.getTransactions o options w = (Ok rows, w') ->
  w' = w
  /\ newest_first rows
  /\ forall t, In t rows ->
       In t (transactions w)
       /\ listed o match options with
                   | Some x => LedgerManager.o_status x
                   | None => None
                   end t.
Proof.
  unfold LedgerManager.getTransactions, Db.select_transactions_of,
    LedgerManager.mapRowToTransaction, bind, get, ret, throw.
  set (st := match options with
             | Some x => LedgerManager.o_status x
             | None => None
             end).
  set (all := Db.order_by_created_at_desc
                (filter (Db.involves o st) (transactions w))).
  assert (Hall : forall t, In t all -> In t (transactions w) /\ listed o st t).
  { intros t Ht. rewrite <- involves_listed, <- filter_In.
    revert Ht. apply Permutation_in, order_by_created_at_desc_perm. }
  pose proof (order_by_created_at_desc_sorted
                (filter (Db.involves o st) (transactions w))) as Hsorted.
  fold all in Hsorted.
  set (limit := match options with
                | Some x => if truthy_number (LedgerManager.o_limit x)
                            then LedgerManager.o_limit x else None
                | None => None
                end).
  set (offset := match options with
                 | Some x => if truthy_number (LedgerManager.o_offset x)
                             then LedgerManager.o_offset x else None
                 | None => None
                 end).
  destruct (match offset with Some k => k <? 0 | None => false end);
    [discriminate|].
  destruct (match limit with Some l => l <? 0 | None => false end);
    [discriminate|].
  rewrite map_id. intros H. inversion H; subst rows w'; clear H.
  split; [reflexivity|].
  set (skipped := match offset with
                  | Some k => skipn (Z.to_nat k) all
                  | None => all
                  end).
  assert (Hsk : newest_first skipped /\ forall t, In t skipped -> In t all).
  { unfold skipped. destruct offset as [k|]; [|now split].
    split; [now apply newest_first_skipn|].
    intros t Ht. rewrite <- (firstn_skipn (Z.to_nat k) all).
    apply in_or_app. now right. }
  destruct Hsk as [Hs1 Hs2].
  destruct limit as [l|].
  - split; [now apply newest_first_firstn|].
    intros t Ht. apply Hall, Hs2.
    rewrite <- (firstn_skipn (Z.to_nat l) skipped).
    apply in_or_app. now left.
  - split; [exact Hs1|]. intros t Ht. now apply Hall, Hs2.
Qed.

(** X19: LIMIT and OFFSET of [getTransactions].  With a limit and an offset
    that are not negative, the answer is the listing without them, less its
    first [offset] rows, cut to [limit] rows; a limit of 0 is not passed on
    to the query, so it returns the whole listing, not an empty one.  A
    negative limit or offset makes the call throw. *)
Theorem getTransactions_limit_and_offset o st l k w all :
  LedgerManager.getTransactions o
    (Some (LedgerManager.mkListOptions st None None)) w = (Ok all, w) ->
  (0 <= l -> 0 <= k ->
   LedgerManager.getTransactions o
     (Some (LedgerManager.mkListOptions st (Some l) (Some k))) w
   = (Ok (if l =? 0 then skipn (Z.to_nat k) all
          else firstn (Z.to_nat l) (skipn (Z.to_nat k) all)), w))
  /\ LedgerManager.getTransactions o
       (Some (LedgerManager.mkListOptions st (Some 0) None)) w = (Ok all, w)
  /\ (l < 0 \/ k < 0 ->
      exists e,
        LedgerManager.getTransactions o
          (Some (LedgerManager.mkListOptions st (Some l) (Some k))) w
        = (Throw e, w)).
Proof.
  intros Hall.
  assert (Ha : all = Db.order_by_created_at_desc
                       (filter (Db.involves o st) (transactions w))).
  { revert Hall.
    unfold LedgerManager.getTransactions, Db.select_transactions_of,
      LedgerManager.mapRowToTransaction, bind, get, ret. simpl.
    rewrite map_id. now intros [= <-]. }
  split; [|split].
  - intros Hl Hk. rewrite (getTransactions_run o st l k w Hl Hk).
    unfold page. now rewrite Ha.
  - rewrite <- Hall. reflexivity.
  - intros Hneg.
    unfold LedgerManager.getTransactions, Db.select_transactions_of,
      LedgerManager.mapRowToTransaction, bind, get, ret, throw. simpl.
    destruct (Z.eqb_spec l 0) as [->|Hl0];
      destruct (Z.eqb_spec k 0) as [->|Hk0]; simpl; try lia;
      repeat match goal with
             | |- context [?x <? 0] => destruct (Z.ltb_spec x 0)
             end; try lia; eexists; reflexivity.
Qed.

(** ** Reading a balance *)

Lemma sum_app (l l' : list Z) :
  fold_right Z.add 0 (l ++ l') = fold_right Z.add 0 l + fold_right Z.add 0 l'.
Proof. induction l as [|x l IH]; simpl; lia. Qed.

Lemma getBalance_run o w :
  LedgerManager.getBalance o w
  = (Ok match filter (fun a => (Account.ownerId a =? o)%string) (accounts w)
        with
        | [] => None
        | account :: _ =>
            let p := Db.pending_total o (transactions w) in
            Some (BalanceInfo.mk (Account.id account)
                    (Account.ownerId account) (Account.balance account)
                    (Account.currency account)
                    (Account.balance account - p) p)
        end, w).
Proof.
  unfold LedgerManager.getBalance, Db.select_accounts_of,
    Db.select_pending_total, bind, get, ret. simpl.
  destruct (filter _ (accounts w)); reflexivity.
Qed.

(** X21: [getBalance] returns, and changes nothing.  It answers [null]
    exactly when the owner has no account row, in any currency.  Otherwise
    it reports one account row of the owner, with its id, balance and
    currency; the available balance and the pending balance add up to the
    balance. *)
Theorem getBalance_reports_an_account_of_the_owner o w :
  exists r,
    LedgerManager.getBalance o w = (Ok r, w)
    /\ (r = None <->
        forall a, In a (accounts w) -> Account.ownerId a <> o)
    /\ forall b, r = Some b ->
         BalanceInfo.ownerId b = o
         /\ BalanceInfo.availableBalance b + BalanceInfo.pendingBalance b
            = BalanceInfo.balance b
         /\ exists a, In a (accounts w)
                      /\ Account.ownerId a = o
                      /\ BalanceInfo.accountId b = Account.id a
                      /\ BalanceInfo.balance b = Account.balance a
                      /\ BalanceInfo.currency b = Account.currency a.
Proof.
  eexists. split; [apply getBalance_run|].
  destruct (filter (fun a => (Account.ownerId a =? o)%string) (accounts w))
    as [|x rest] eqn:Ef.
  - split.
    + split; [|reflexivity]. intros _ a Ha Ho.
      assert (Hin : In a (filter (fun a => (Account.ownerId a =? o)%string)
                            (accounts w))).
      { apply filter_In. split; [exact Ha|]. now apply String.eqb_eq. }
      rewrite Ef in Hin. contradiction.
    + discriminate.
  - assert (Hx : In x (accounts w) /\ Account.ownerId x = o).
    { assert (Hin : In x (filter (fun a => (Account.ownerId a =? o)%string)
                            (accounts w))) by (rewrite Ef; now left).
      apply filter_In in Hin as [H1 H2]. split; [exact H1|].
      now apply String.eqb_eq. }
    destruct Hx as [Hx1 Hx2]. simpl. split.
    + split; [discriminate|]. intros H. exfalso. exact (H x Hx1 Hx2).
    + intros b [= <-]. simpl. split; [exact Hx2|]. split; [lia|].
      exists x. repeat split; assumption.
Qed.

(** X22: the pending balance counts what comes in as well as what goes
    out.  Once [createTransaction] has stored a transaction with status
    'pending' or 'processing', [getBalance] reports, for the payer and for
    the payee alike and whatever the currency of the transaction, a pending
    balance raised by the amount and an available balance lowered by it;
    the balance itself is as before. *)
Theorem open_transaction_is_pending_for_both_parties env d w t w' o b :
  LedgerManager.createTransaction env d w = (Ok t, w') ->
  Db.is_open (LedgerManager.d_status d) = true ->
  o = LedgerManager.d_payerId d \/ o = LedgerManager.d_payeeId d ->
  LedgerManager.getBalance o w = (Ok (Some b), w) ->
  LedgerManager.getBalance o w'
  = (Ok (Some (BalanceInfo.mk (BalanceInfo.accountId b)
                 (BalanceInfo.ownerId b) (BalanceInfo.balance b)
                 (BalanceInfo.currency b)
                 (BalanceInfo.availableBalance b - LedgerManager.d_amount d)
                 (BalanceInfo.pendingBalance b
                  + LedgerManager.d_amount d))), w').
Proof.
  intros Hc Hopen Ho.
  pose proof (createTransaction_inv env d w t w' Hc)
    as (Ht & _ & _ & _ & Hw').
  rewrite !getBalance_run.
  assert (Ha : accounts w' = accounts w) by now rewrite Hw'.
  rewrite Ha.
  destruct (filter (fun a => (Account.ownerId a =? o)%string) (accounts w))
    as [|x rest]; [discriminate|].
  cbv zeta. intros [= <-]. simpl. f_equal. f_equal.
  rewrite Hw'. simpl. unfold Db.pending_total.
  rewrite filter_app, map_app, sum_app. simpl.
  assert (Hin : ((Transaction.payerId t =? o)%string
                 || (Transaction.payeeId t =? o)%string)
                && Db.is_open (Transaction.status t) = true).
  { rewrite Ht. simpl. rewrite Hopen, andb_true_r.
    destruct Ho as [-> | ->]; rewrite String.eqb_refl;
      [reflexivity|apply orb_true_r]. }
  rewrite Hin. simpl.
  assert (Hamt : Transaction.amount t = LedgerManager.d_amount d)
    by now rewrite Ht.
  rewrite Hamt. do 2 f_equal; lia.
Qed.

(** ** The answers of the processor *)

(** X23: the answers of [processPayment].  A success answer carries a
    non-empty reference and no error; a failure answer carries an error
    message and no reference, and comes only from the mock provider or from
    a provider the switch does not know.  The mock provider succeeds
    exactly when its random draw is at least 0.05.  Stripe, PayPal and
    Square never answer with a failure: in test mode they succeed, and
    otherwise the call throws, because the switch returns the promise of
    the provider method without awaiting it and the [catch] of
    [processPayment] never sees the rejection. *)
Theorem processPayment_answers env pc a c m w :
  let run := PaymentProcessor.processPayment env pc a c m w in
  (forall result, fst run = Ok result ->
     if charge_success result
     then charge_error result = None
          /\ exists reference, charge_reference result = Some reference
                               /\ reference <> ""
     else charge_reference result = None
          /\ (exists msg, charge_error result = Some msg)
          /\ (provider pc = mock
              \/ exists name, provider pc = other_provider name))
  /\ (provider pc = mock ->
      exists result,
        fst run = Ok result
        /\ charge_success result
           = Qle_bool (5 # 100) (random env (tick w)))
  /\ (provider pc = stripe \/ provider pc = paypal \/ provider pc = square ->
      if truthy_bool (testMode pc)
      then exists result, fst run = Ok result /\ charge_success result = true
      else exists e, fst run = Throw e)
  /\ (forall e, fst run = Throw e ->
        truthy_bool (testMode pc) = false
        /\ (provider pc = stripe \/ provider pc = paypal
            \/ provider pc = square)).
Proof.
  unfold PaymentProcessor.processPayment,
    PaymentProcessor.processStripePayment,
    PaymentProcessor.processPayPalPayment,
    PaymentProcessor.processSquarePayment,
    PaymentProcessor.processMockPayment,
    PaymentProcessor.test_mode_payment, PaymentProcessor.fresh_token,
    PaymentProcessor.math_random, returned_without_await, bind, get,
    put, ret, throw.
  simpl.
  destruct (provider pc) as [| | | |name] eqn:Ep; simpl;
    try destruct (truthy_bool (testMode pc)) eqn:Et; simpl;
    try destruct (Qle_bool (5 # 100) (random env (tick w))) eqn:Er; simpl;
    (split; [intros result [= <-]; simpl|split; [|split]]);
    try discriminate;
    try solve [intros [H|[H|H]]; discriminate H];
    try solve [intros _; eexists; split; reflexivity];
    try solve [intros _; eexists; reflexivity];
    try solve [intros e [= <-]; auto 6];
    try solve [intros e H; discriminate H];
    try solve [split; [reflexivity|]; eexists; split; [reflexivity|];
               discriminate];
    try solve [split; [reflexivity|]; split; [eexists; reflexivity|];
               eauto].
Qed.

Lemma getBalance_none_iff o w :
  exists r,
    LedgerManager.getBalance o w = (Ok r, w)
    /\ (r = None <->
        forall a, In a (accounts w) -> Account.ownerId a <> o).
Proof.
  eexists. split; [apply getBalance_run|].
  destruct (filter (fun a => (Account.ownerId a =? o)%string) (accounts w))
    as [|x rest] eqn:Ef.
  - split; [|reflexivity]. intros _ a Ha Ho.
    assert (Hin : In a (filter (fun a => (Account.ownerId a =? o)%string)
                          (accounts w))).
    { apply filter_In. split; [exact Ha|]. now apply String.eqb_eq. }
    rewrite Ef in Hin. contradiction.
  - assert (Hin : In x (filter (fun a => (Account.ownerId a =? o)%string)
                          (accounts w))) by (rewrite Ef; now left).
    apply filter_In in Hin as [H1 H2]. apply String.eqb_eq in H2.
    split; [discriminate|]. intros H. exfalso. exact (H x H1 H2).
Qed.

(** X24: the processor's answer to a refund depends on its configuration
    alone: [processRefund] gives the same answer whatever the reference,
    the amount and the currency, also for a reference that no charge ever
    returned. *)
Theorem processRefund_answer_ignores_the_charge pc r a c w r' a' c' w' :
  fst (PaymentProcessor.processRefund pc r a c w)
  = fst (PaymentProcessor.processRefund pc r' a' c' w').
Proof.
  unfold PaymentProcessor.processRefund, PaymentProcessor.processStripeRefund,
    PaymentProcessor.processPayPalRefund,
    PaymentProcessor.processSquareRefund, PaymentProcessor.processMockRefund,
    PaymentProcessor.test_mode_refund, returned_without_await, bind, get,
    put, ret, throw.
  simpl. destruct (provider pc); try reflexivity;
    destruct (truthy_bool (testMode pc)); reflexivity.
Qed.

(** ** The routes *)

Lemma user_is_not_false user id :
  PaymentApiRoutes.user_is_not user id = false <-> user = id.
Proof.
  unfold PaymentApiRoutes.user_is_not, strict_eq.
  destruct user as [u|], id as [i|]; simpl;
    try (split; [discriminate|congruence]); try tauto.
  rewrite negb_false_iff, String.eqb_eq. split; congruence.
Qed.

Lemma user_is_not_true user id :
  PaymentApiRoutes.user_is_not user id = true <-> user <> id.
Proof.
  rewrite <- user_is_not_false. destruct (PaymentApiRoutes.user_is_not _ _);
    split; congruence.
Qed.

(** X26: the route POST /api/payment/refunds.  It answers 404 when the
    transaction to refund is not stored, and 403 when the authenticated
    user is not the payee of the stored transaction, the payer included; in
    both cases the service's [processRefund] is not called and the world is
    left as it was.  For the payee it answers with the result of
    [processRefund], 200 when that reports success and 400 otherwise. *)
Theorem processRefund_route_is_for_the_payee env cfg req w :
  let request := ApiRequest.body req in
  let run := PaymentApiRoutes.processRefund env cfg req w in
  match find_tx w (transactionId request) with
  | None =>
      run = (Ok (ApiResponse.mk 404
                   (JsonError "NOT_FOUND" "Transaction not found")), w)
  | Some originalTx =>
      (ApiRequest.user req <> Some (Transaction.payeeId originalTx) ->
       run = (Ok (ApiResponse.mk 403
                    (JsonError "UNAUTHORIZED"
                       "Only payee can issue refund")), w))
      /\ (ApiRequest.user req = Some (Transaction.payeeId originalTx) ->
          exists result,
            PaymentService.processRefund env cfg request w
            = (Ok result, snd run)
            /\ fst run
               = Ok (ApiResponse.mk (if success result then 200 else 400)
                       (JsonResult result)))
  end.
Proof.
  intros request run. subst run.
  unfold PaymentApiRoutes.processRefund, try_catch,
    PaymentService.getTransaction. fold request.
  rewrite (bind_ok _ _ _ _ _ (getTransaction_run _ w)).
  destruct (find_tx w (transactionId request)) as [orig|]; [|reflexivity].
  split; intros Hu.
  - apply user_is_not_true in Hu. now rewrite Hu.
  - apply user_is_not_false in Hu. rewrite Hu.
    destruct (processRefund_cases env cfg request w) as (r & w' & Hrun & _).
    rewrite (bind_ok _ _ _ _ _ Hrun). simpl. now exists r.
Qed.

(** X27: the route GET /api/payment/transactions/:id never changes the
    world, and shows a stored transaction to its payer and to its payee
    only: it answers 404 when no transaction of that id is stored, 200 with
    the transaction when the authenticated user is its payer or its payee,
    and 403 otherwise, also when no user is authenticated. *)
Theorem getTransaction_route_shows_parties_only req w :
  let run := PaymentApiRoutes.getTransaction req w in
  snd run = w
  /\ match find_tx w (ApiRequest.params_id req) with
     | None =>
         fst run = Ok (ApiResponse.mk 404
                         (JsonError "NOT_FOUND" "Transaction not found"))
     | Some t =>
         (ApiRequest.user req = Some (Transaction.payerId t)
          \/ ApiRequest.user req = Some (Transaction.payeeId t) ->
          fst run = Ok (ApiResponse.mk 200 (JsonTransaction t)))
         /\ (ApiRequest.user req <> Some (Transaction.payerId t) ->
             ApiRequest.user req <> Some (Transaction.payeeId t) ->
             fst run
             = Ok (ApiResponse.mk 403
                     (JsonError "UNAUTHORIZED"
                        "Not authorized to view this transaction")))
     end.
Proof.
  intros run. subst run.
  unfold PaymentApiRoutes.getTransaction, try_catch,
    PaymentService.getTransaction.
  rewrite (bind_ok _ _ _ _ _ (getTransaction_run _ w)).
  destruct (find_tx w (ApiRequest.params_id req)) as [t|];
    [|split; reflexivity].
  destruct (PaymentApiRoutes.user_is_not (ApiRequest.user req)
              (Some (Transaction.payerId t))) eqn:E1;
    destruct (PaymentApiRoutes.user_is_not (ApiRequest.user req)
                (Some (Transaction.payeeId t))) eqn:E2;
    simpl; (split; [reflexivity|]);
    try apply user_is_not_true in E1; try apply user_is_not_true in E2;
    try apply user_is_not_false in E1; try apply user_is_not_false in E2;
    split; try reflexivity; try tauto; intros; try reflexivity;
    try contradiction.
Qed.

(** X28: the route GET /api/payment/balance never changes the world.  It
    answers 401 when no user is authenticated and when the authenticated
    user's id is the empty string; otherwise 404 when the user has no
    account row, and 200 with what [getBalance] reports for the user. *)
Theorem getBalance_route_needs_a_user req w :
  let run := PaymentApiRoutes.getBalance req w in
  snd run = w
  /\ match ApiRequest.user req with
     | None =>
         fst run = Ok (ApiResponse.mk 401
                         (JsonError "UNAUTHORIZED" "Authentication required"))
     | Some userId =>
         if (userId =? "")%string
         then fst run
              = Ok (ApiResponse.mk 401
                      (JsonError "UNAUTHORIZED" "Authentication required"))
         else match fst (LedgerManager.getBalance userId w) with
              | Ok (Some balance) =>
                  fst run = Ok (ApiResponse.mk 200 (JsonBalance balance))
              | _ =>
                  fst run
                  = Ok (ApiResponse.mk 404
                          (JsonError "NOT_FOUND" "Account not found"))
                    /\ forall a, In a (accounts w) ->
                                 Account.ownerId a <> userId
              end
     end.
Proof.
  intros run. subst run.
  unfold PaymentApiRoutes.getBalance, try_catch, PaymentService.getBalance.
  destruct (ApiRequest.user req) as [userId|]; [|split; reflexivity].
  simpl. destruct (String.eqb_spec userId ""); simpl; [split; reflexivity|].
  destruct (getBalance_none_iff userId w)
    as (r & Hrun & Hnone).
  rewrite (bind_ok _ _ _ _ _ Hrun), Hrun. simpl.
  destruct r as [b|]; simpl; [split; reflexivity|].
  split; [reflexivity|]. split; [reflexivity|]. now apply Hnone.
Qed.

(** ** The life cycle of the service *)

(** X29: [initialize] marks the service 'ready' and stores the
    configuration before it checks anything, so it does so even when it
    fails.  It returns exactly when the context carries a database whose
    [connect] returns, and then the ledger and the processor are set.
    Without a database it throws 'Database connection required for Payment
    Service', and when [connect] throws it throws the same error; in both
    cases the status stays 'ready', the configuration is readable, no
    processor is set, and the health route answers 200.  A later [shutdown]
    turns the status 'disabled' and the health route to 503. *)
Theorem initialize_marks_ready_before_it_checks cfg ctx s :
  let run := Service.initialize cfg ctx s in
  let database := match ctx with
                  | Some c => ctx_database c
                  | None => None
                  end in
  Service.getStatus (snd run) = ready
  /\ Service.config (snd run) = Ok cfg
  /\ PaymentApiRoutes.healthCheck (snd run)
     = ApiResponse.mk 200 (JsonHealth true ready)
  /\ PaymentApiRoutes.healthCheck (Service.shutdown (snd run))
     = ApiResponse.mk 503 (JsonHealth false disabled)
  /\ match database with
     | Some (Ok _) =>
         fst run = Ok tt
         /\ Service.ledger (snd run) = true
         /\ Service.processor (snd run) = Some (processor cfg)
     | Some (Throw e) =>
         fst run = Throw e
         /\ Service.ledger (snd run) = true
         /\ Service.processor (snd run) = Service.processor s
     | None =>
         fst run
         = Throw (JsError "Database connection required for Payment Service")
         /\ Service.ledger (snd run) = Service.ledger s
         /\ Service.processor (snd run) = Service.processor s
     end.
Proof.
  unfold Service.initialize.
  destruct (match ctx with Some c => ctx_database c | None => None end)
    as [[u|e]|]; simpl; repeat split.
Qed.




(** ** The further properties at concrete inputs *)

Lemma new_transaction_succeeds_iff_row_completed_witness :
  (success (PaymentService.succeeded Scenario.refundable_transaction) = true
   <-> exists t',
         transactions (snd Scenario.refundable_run)
         = (transactions Scenario.refundable_world ++ [t'])%list
         /\ Transaction.status t' = completed)
  /\ (success (PaymentService.succeeded Scenario.refundable_transaction)
      = true ->
      exists t',
        transaction (PaymentService.succeeded Scenario.refundable_transaction)
        = Some t'
        /\ transactions (snd Scenario.refundable_run)
           = (transactions Scenario.refundable_world ++ [t'])%list).
Proof.
  apply (new_transaction_succeeds_iff_row_completed Scenario.env
           Scenario.config Scenario.refundable_request
           Scenario.refundable_world
           (PaymentService.succeeded Scenario.refundable_transaction)
           (snd Scenario.refundable_run)).
  - intros key Hkey. discriminate Hkey.
  - vm_compute. reflexivity.
Defined.

Lemma refund_guards_leave_world_alone_witness :
  exists m,
    PaymentService.processRefund Scenario.env Scenario.config
      (mkRefundRequest "tx-9" None None) Scenario.settled_world
    = (Ok (PaymentService.failure
             (if negb (truthy_bool (refundsEnabled Scenario.config))
              then "REFUNDS_DISABLED"
              else match find_tx Scenario.settled_world
                           (transactionId (mkRefundRequest "tx-9" None None))
                   with
                   | None => "TRANSACTION_NOT_FOUND"
                   | Some _ => "INVALID_TRANSACTION_STATUS"
                   end) m), Scenario.settled_world).
Proof.
  apply (refund_guards_leave_world_alone Scenario.env Scenario.config
           (mkRefundRequest "tx-9" None None) Scenario.settled_world).
  right. left. reflexivity.
Defined.

Lemma successful_refund_marks_original_witness :
  truthy_bool (refundsEnabled Scenario.config) = true
  /\ exists orig n refund,
       find_tx (snd Scenario.refundable_run)
         (transactionId Scenario.full_refund_request) = Some orig
       /\ Transaction.status orig = completed
       /\ find_tx (snd Scenario.full_refund_run)
            (transactionId Scenario.full_refund_request)
          = Some (with_status orig refunded n)
       /\ transaction Scenario.full_refund_result = Some refund
       /\ find_tx (snd Scenario.refundable_run) (Transaction.id refund)
          = None
       /\ Transaction.status refund = completed
       /\ Transaction.payerId refund = Transaction.payeeId orig
       /\ Transaction.payeeId refund = Transaction.payerId orig
       /\ Transaction.amount refund
          = PaymentService.refundAmount Scenario.full_refund_request orig
       /\ Transaction.currency refund = Transaction.currency orig
       /\ originalTransactionId (Transaction.metadata refund)
          = Some (transactionId Scenario.full_refund_request).
Proof.
  apply (successful_refund_marks_original Scenario.env Scenario.config
           Scenario.full_refund_request (snd Scenario.refundable_run)
           Scenario.full_refund_result (snd Scenario.full_refund_run)).
  - vm_compute. reflexivity.
  - reflexivity.
Defined.

Lemma stored_transaction_only_turns_refunded_witness :
  exists t',
    find_tx (after_calls Scenario.env Scenario.config
               [Refund Scenario.full_refund_request;
                Transfer Scenario.refundable_request]
               (snd Scenario.refundable_run)) "id-00" = Some t'
    /\ same_core Scenario.refundable_transaction t'
    /\ (Transaction.status t'
        = Transaction.status Scenario.refundable_transaction
        \/ (Transaction.status Scenario.refundable_transaction = completed
            /\ Transaction.status t' = refunded)).
Proof.
  apply (stored_transaction_only_turns_refunded Scenario.env Scenario.config
           [Refund Scenario.full_refund_request;
            Transfer Scenario.refundable_request]
           (snd Scenario.refundable_run) "id-00"
           Scenario.refundable_transaction).
  vm_compute. reflexivity.
Defined.

Lemma no_second_refund_witness :
  let w2 := after_calls Scenario.env Scenario.config
              [Transfer Scenario.refundable_request]
              (snd Scenario.full_refund_run) in
  PaymentService.processRefund Scenario.env Scenario.config
    Scenario.full_refund_request w2
  = (Ok (PaymentService.failure "INVALID_TRANSACTION_STATUS"
           "Can only refund completed transactions"), w2).
Proof.
  apply (no_second_refund Scenario.env Scenario.config
           Scenario.full_refund_request (snd Scenario.refundable_run)
           Scenario.full_refund_result (snd Scenario.full_refund_run)
           [Transfer Scenario.refundable_request]
           Scenario.full_refund_request).
  - vm_compute. reflexivity.
  - reflexivity.
  - reflexivity.
Defined.

Lemma completed_transfer_moves_the_amount_witness :
  let req := Scenario.refundable_request in
  let w := Scenario.refundable_world in
  let w' := snd Scenario.refundable_run in
  let cur := request_currency Scenario.config req in
  (req_payerId req <> SELF_ENTITY ->
   balanceOf w' (req_payerId req) cur
   = Some (balance_or_zero w (req_payerId req) cur - req_amount req))
  /\ (req_payeeId req <> SELF_ENTITY ->
      balanceOf w' (req_payeeId req) cur
      = Some (balance_or_zero w (req_payeeId req) cur + req_amount req))
  /\ (forall o c,
         o = SELF_ENTITY \/ c <> cur
         \/ (o <> req_payerId req /\ o <> req_payeeId req) ->
         balanceOf w' o c = balanceOf w o c).
Proof.
  apply (completed_transfer_moves_the_amount Scenario.env Scenario.config
           Scenario.refundable_request Scenario.refundable_world
           (PaymentService.succeeded Scenario.refundable_transaction)
           (snd Scenario.refundable_run)).
  - intros key Hkey. discriminate Hkey.
  - vm_compute. reflexivity.
  - reflexivity.
  - vm_compute. reflexivity.
  - vm_compute. reflexivity.
Defined.

Lemma created_transaction_is_read_back_witness :
  let d := PaymentService.pending_data Scenario.config
             Scenario.charge_request in
  let w := Scenario.charge_world in
  let w' := snd Scenario.charge_created in
  LedgerManager.getTransaction (Transaction.id Scenario.charge_tx) w'
  = (Ok (Some Scenario.charge_tx), w')
  /\ (forall i u, find_tx w i = Some u ->
        LedgerManager.getTransaction i w' = (Ok (Some u), w'))
  /\ (forall key, idempotencyKey (LedgerManager.d_metadata d) = Some key ->
        find_key w key = None ->
        LedgerManager.findByIdempotencyKey key w'
        = (Ok (Some Scenario.charge_tx), w')).
Proof.
  apply (created_transaction_is_read_back Scenario.env_declining
           (PaymentService.pending_data Scenario.config
              Scenario.charge_request)
           Scenario.charge_world Scenario.charge_tx
           (snd Scenario.charge_created)).
  vm_compute. reflexivity.
Defined.

Lemma ensureAccount_settles_witness :
  LedgerManager.ensureAccount Scenario.env "user_2" USD
    Scenario.ensured_world = (Ok tt, Scenario.ensured_world)
  /\ ("user_2" = SELF_ENTITY ->
      Scenario.ensured_world = Scenario.refundable_world)
  /\ ("user_2" <> SELF_ENTITY ->
      balanceOf Scenario.ensured_world "user_2" USD
      = Some (balance_or_zero Scenario.refundable_world "user_2" USD))
  /\ (forall o' c', o' <> "user_2" \/ c' <> USD ->
        balanceOf Scenario.ensured_world o' c'
        = balanceOf Scenario.refundable_world o' c').
Proof.
  apply (ensureAccount_settles Scenario.env "user_2" USD
           Scenario.refundable_world Scenario.ensured_world).
  vm_compute. reflexivity.
Defined.

Lemma getTransactions_newest_first_witness :
  Scenario.history_world = Scenario.history_world
  /\ newest_first Scenario.history_listing
  /\ forall t, In t Scenario.history_listing ->
       In t (transactions Scenario.history_world)
       /\ listed "user_1" None t.
Proof.
  apply (getTransactions_newest_first "user_1" None Scenario.history_world
           Scenario.history_listing Scenario.history_world).
  vm_compute. reflexivity.
Defined.

Lemma getTransactions_limit_and_offset_witness :
  (0 <= 1 -> 0 <= 1 ->
   LedgerManager.getTransactions "user_1"
     (Some (LedgerManager.mkListOptions None (Some 1) (Some 1)))
     Scenario.history_world
   = (Ok (if 1 =? 0 then skipn (Z.to_nat 1) Scenario.history_listing
          else firstn (Z.to_nat 1)
                 (skipn (Z.to_nat 1) Scenario.history_listing)),
      Scenario.history_world))
  /\ LedgerManager.getTransactions "user_1"
       (Some (LedgerManager.mkListOptions None (Some 0) None))
       Scenario.history_world
     = (Ok Scenario.history_listing, Scenario.history_world)
  /\ (1 < 0 \/ 1 < 0 ->
      exists e,
        LedgerManager.getTransactions "user_1"
          (Some (LedgerManager.mkListOptions None (Some 1) (Some 1)))
          Scenario.history_world
        = (Throw e, Scenario.history_world)).
Proof.
  apply (getTransactions_limit_and_offset "user_1" None 1 1
           Scenario.history_world Scenario.history_listing).
  vm_compute. reflexivity.
Defined.

Lemma open_transaction_is_pending_for_both_parties_witness :
  let d := PaymentService.pending_data Scenario.config
             Scenario.charge_request in
  let b := Scenario.charge_balance in
  LedgerManager.getBalance "user_1" (snd Scenario.charge_created)
  = (Ok (Some (BalanceInfo.mk (BalanceInfo.accountId b)
                 (BalanceInfo.ownerId b) (BalanceInfo.balance b)
                 (BalanceInfo.currency b)
                 (BalanceInfo.availableBalance b - LedgerManager.d_amount d)
                 (BalanceInfo.pendingBalance b
                  + LedgerManager.d_amount d))),
     snd Scenario.charge_created).
Proof.
  apply (open_transaction_is_pending_for_both_parties Scenario.env_declining
           (PaymentService.pending_data Scenario.config
              Scenario.charge_request)
           Scenario.charge_world Scenario.charge_tx
           (snd Scenario.charge_created) "user_1" Scenario.charge_balance).
  - vm_compute. reflexivity.
  - reflexivity.
  - left. reflexivity.
  - vm_compute. reflexivity.
Defined.


(** ** What a rejected balance shift leaves behind *)

Lemma opened_for_refl rows payer payee cur :
  opened_for rows payer payee cur rows.
Proof. intros o c. now left. Qed.

Lemma opened_for_same rows0 payer payee cur rows rows' :
  (forall o c, row_balance rows' o c = row_balance rows o c) ->
  opened_for rows0 payer payee cur rows ->
  opened_for rows0 payer payee cur rows'.
Proof. intros H Ho o c. rewrite H. apply Ho. Qed.

(** A throw of the store: the statement is rejected and nothing is
    written. *)
Lemma insert_account_throw a w e w' :
  Db.insert_account a w = (Throw e, w') ->
  w' = w /\ exists k, e = DbError k.
Proof.
  unfold Db.insert_account, bind, get, put, throw. simpl.
  repeat match goal with
         | |- context [if ?b then _ else _] => destruct b
         end; intros [= <- <-]; split; eauto.
Qed.

Lemma update_balance_throw d n o c w e w' :
  Db.update_balance d n o c w = (Throw e, w') ->
  w' = w /\ e = DbError positive_balance.
Proof.
  unfold Db.update_balance, bind, get, put, throw. simpl.
  destruct (existsb _ _); intros [= <- <-]; now split.
Qed.

Lemma ensureAccount_throw env o c w e w' :
  LedgerManager.ensureAccount env o c w = (Throw e, w') ->
  accounts w' = accounts w /\ transactions w' = transactions w
  /\ exists k, e = DbError k.
Proof.
  unfold LedgerManager.ensureAccount.
  destruct (o =? SELF_ENTITY)%string; [discriminate|].
  unfold Db.select_account_ids, LedgerManager.generateId, LedgerManager.now,
    bind, get, put, ret. simpl.
  destruct (map Account.id _); [|discriminate].
  intros H. apply insert_account_throw in H as [-> Hk]. now repeat split.
Qed.

Lemma bind_inv_throw {A B} (m : M A) (k : A -> M B) w e w' :
  bind m k w = (Throw e, w') ->
  m w = (Throw e, w')
  \/ exists a w1, m w = (Ok a, w1) /\ k a w1 = (Throw e, w').
Proof.
  unfold bind. destruct (m w) as [[a|e0] w1]; intros H.
  - right. now exists a, w1.
  - left. now inversion H.
Qed.

Lemma ensureAccount_opened env o c w w' rows0 payer payee :
  o = payer \/ o = payee ->
  LedgerManager.ensureAccount env o c w = (Ok tt, w') ->
  opened_for rows0 payer payee c (accounts w) ->
  (forall o' c', row_balance rows0 o' c' <> None ->
                 row_balance (accounts w) o' c' = row_balance rows0 o' c') ->
  opened_for rows0 payer payee c (accounts w')
  /\ (forall o' c', row_balance rows0 o' c' <> None ->
                    row_balance (accounts w') o' c' = row_balance rows0 o' c').
Proof.
  intros Ho H Hop Hkept.
  apply ensureAccount_inv in H as (_ & _ & Hb). split.
  - intros o' c'. rewrite Hb.
    destruct (Hop o' c') as [Hsame|(H0 & H1 & H2 & H3 & H4)].
    + rewrite Hsame.
      destruct (row_balance rows0 o' c') eqn:E0; [now left|].
      destruct (String.eqb_spec o' o) as [->|]; simpl; [|now left].
      destruct (Currency_eqb c' c) eqn:Ec; simpl; [|now left].
      apply Currency_eqb_eq in Ec as ->.
      destruct (String.eqb_spec o SELF_ENTITY); simpl; [now left|].
      right. repeat split; auto.
    + rewrite H1. right. repeat split; auto.
  - intros o' c' Hsome. rewrite Hb, (Hkept o' c' Hsome).
    destruct (row_balance rows0 o' c'); [reflexivity|contradiction].
Qed.

(** [updateBalances] for a payer who cannot cover the amount: it throws an
    error of the store, after opening the accounts that the parties
    lacked. *)
Lemma updateBalances_overdraft env payer payee a cur w :
  payer <> SELF_ENTITY ->
  match row_balance (accounts w) payer cur with
  | Some b => b < a
  | None => 0 < a
  end ->
  exists e w',
    LedgerManager.updateBalances env payer payee a cur w = (Throw e, w')
    /\ (exists k, e = DbError k)
    /\ transactions w' = transactions w
    /\ opened_for (accounts w) payer payee cur (accounts w').
Proof.
  intros Hp Hlow.
  pose proof (updateBalances_transactions env payer payee a cur w) as Htx.
  pose proof (updateBalances_overdrawn (accounts w) payer cur a env payee Hp
                w) as Hthrows.
  destruct (LedgerManager.updateBalances env payer payee a cur w)
    as [[[]|e] w'] eqn:Erun.
  { exfalso. apply Hthrows. unfold overdrawn, balances_kept.
    repeat split; auto. discriminate. }
  exists e, w'. split; [reflexivity|]. simpl in Htx.
  clear Hthrows. unfold LedgerManager.updateBalances in Erun.
  assert (Hk0 : forall o' c',
             row_balance (accounts w) o' c' <> None ->
             row_balance (accounts w) o' c' = row_balance (accounts w) o' c')
    by reflexivity.
  pose proof (opened_for_refl (accounts w) payer payee cur) as Hop0.
  apply bind_inv_throw in Erun as [E1|([] & w1 & E1 & Erun)].
  { apply ensureAccount_throw in E1 as (Ha & _ & Hk).
    split; [exact Hk|]. split; [exact Htx|]. rewrite Ha. exact Hop0. }
  destruct (ensureAccount_opened env payer cur w w1 (accounts w) payer payee
              (or_introl eq_refl) E1 Hop0 Hk0) as [Hop1 Hk1].
  apply bind_inv_throw in Erun as [E2|([] & w2 & E2 & Erun)].
  { apply ensureAccount_throw in E2 as (Ha & _ & Hk).
    split; [exact Hk|]. split; [exact Htx|]. rewrite Ha. exact Hop1. }
  destruct (ensureAccount_opened env payee cur w1 w2 (accounts w) payer payee
              (or_intror eq_refl) E2 Hop1 Hk1) as [Hop2 Hk2].
  destruct (String.eqb_spec payer SELF_ENTITY); [contradiction|].
  cbn [negb] in Erun.
  apply bind_inv_throw in Erun as [E3|([] & w3 & E3 & Erun)].
  { apply bind_inv_throw in E3 as [E3|(n3 & w2' & E3 & E3')];
      [discriminate|].
    inversion E3; subst w2'.
    apply update_balance_throw in E3' as [-> ->].
    split; [eauto|]. split; [exact Htx|exact Hop2]. }
  exfalso.
  apply bind_inv_ok in E3 as (n3 & w2' & E3 & E3').
  inversion E3; subst w2'. clear E3.
  revert E3'. unfold Db.update_balance, bind, get, put, throw. simpl.
  destruct (existsb _ _) eqn:Ex; [discriminate|]. intros _.
  rewrite <- not_true_iff_false in Ex. apply Ex. clear Ex.
  assert (Hb : exists b, row_balance (accounts w2) payer cur = Some b
                         /\ b < a).
  { apply ensureAccount_inv in E1 as (_ & _ & Hb1).
    apply ensureAccount_inv in E2 as (_ & _ & Hb2).
    specialize (Hb1 payer cur). specialize (Hb2 payer cur).
    rewrite Hb1 in Hb2. rewrite Hb2.
    rewrite String.eqb_refl, Currency_eqb_refl.
    destruct (String.eqb_spec payer SELF_ENTITY); [contradiction|].
    destruct (row_balance (accounts w) payer cur) as [b|]; simpl;
      eexists; split; try reflexivity; exact Hlow. }
  destruct Hb as (b & Hb & Hlt). unfold row_balance in Hb.
  destruct (find (Db.owns payer cur) (accounts w2)) as [x|] eqn:Ef;
    [|discriminate].
  simpl in Hb. injection Hb as Hb.
  apply find_some in Ef as [Hin Hown].
  apply existsb_exists. exists x. split; [exact Hin|].
  rewrite Hown. simpl. apply Z.ltb_lt. lia.
Qed.

Lemma createTransaction_throws_store_error env d w e w1 :
  LedgerManager.createTransaction env d w = (Throw e, w1) ->
  exists k, e = DbError k.
Proof.
  unfold LedgerManager.createTransaction, LedgerManager.generateId,
    LedgerManager.now, Db.insert_transaction, bind, get, put, ret, throw.
  simpl.
  repeat match goal with
         | |- context [if ?b then _ else _] => destruct b
         end; intros H; inversion H; subst; eauto.
Qed.

(** What the call answers to a transfer that the payer cannot cover. *)
Lemma processTransaction_overdraft env cfg req w :
  req_payerId req <> SELF_ENTITY ->
  balance_or_zero w (req_payerId req) (request_currency cfg req)
  < req_amount req ->
  no_replay req w ->
  let run := PaymentService.processTransaction env cfg req w in
  exists c m,
    fst run = Ok (PaymentService.failure c m)
    /\ opened_for (accounts w) (req_payerId req) (req_payeeId req)
         (request_currency cfg req) (accounts (snd run))
    /\ ((c = "PAYMENT_FAILED" /\ req_paymentMethod req <> None
         /\ accounts (snd run) = accounts w)
        \/ (c = "TRANSACTION_ERROR"
            /\ (accounts (snd run) = accounts w
                \/ exists k, m = error_message (DbError k))))
    /\ (fst (PaymentService.validateTransaction cfg req w) = Ok tt ->
        req_paymentMethod req = None ->
        c = "TRANSACTION_ERROR"
        /\ exists k, m = error_message (DbError k)).
Proof.
  intros Hpayer Hlow Hnew run. subst run.
  set (payer := req_payerId req) in *. set (payee := req_payeeId req) in *.
  set (cur := request_currency cfg req) in *.
  pose proof (opened_for_refl (accounts w) payer payee cur) as Hsame.
  unfold PaymentService.processTransaction, try_catch,
    PaymentService.processTransaction_body.
  destruct (fst (PaymentService.validateTransaction cfg req w)) as [[]|e]
    eqn:Hv.
  2:{ assert (Ev : PaymentService.validateTransaction cfg req w
                   = (Throw e, w)).
      { rewrite (surjective_pairing (_ cfg req w)), Hv.
        now rewrite validateTransaction_pure. }
      rewrite (bind_throw _ _ _ _ _ Ev). simpl.
      eexists _, _. split; [reflexivity|]. split; [exact Hsame|].
      split; [right; split; [reflexivity|now left]|discriminate]. }
  rewrite (bind_ok _ _ _ _ _ (validateTransaction_ok _ _ _ Hv)).
  rewrite (bind_ok _ _ _ _ _ (lookup_finds_nothing req w Hnew)).
  destruct (LedgerManager.createTransaction env
              (PaymentService.pending_data cfg req) w) as [[t|e] wc] eqn:Ec.
  2:{ rewrite (bind_throw _ _ _ _ _ Ec). simpl.
      destruct (createTransaction_throw _ _ _ _ _ Ec) as (_ & Ha & _).
      destruct (createTransaction_throws_store_error _ _ _ _ _ Ec)
        as (k & ->).
      eexists _, _. split; [reflexivity|]. rewrite Ha.
      split; [exact Hsame|].
      split; [right; split; [reflexivity|now left]|].
      intros _ _. split; [reflexivity|now exists k]. }
  rewrite (bind_ok _ _ _ _ _ Ec). cbv zeta. fold payer payee.
  pose proof (createTransaction_inv env _ w t wc Ec)
    as (Ht & Hfresh & _ & _ & Hwc).
  set (tid := Transaction.id t) in *.
  assert (Htid : gen_id env (tick w) = tid) by (unfold tid; now rewrite Ht).
  rewrite Htid in Hfresh.
  assert (Htx : transactions wc = (transactions w ++ [t])%list)
    by now rewrite Hwc.
  assert (Hacc : accounts wc = accounts w) by now rewrite Hwc.
  assert (Hcur : Transaction.currency t = cur) by now rewrite Ht.
  rewrite Hcur.
  (* the balance shift, from any world with the accounts of [w] *)
  assert (Hshift : forall w3,
            accounts w3 = accounts w ->
            exists e w4,
              LedgerManager.updateBalances env payer payee (req_amount req)
                cur w3 = (Throw e, w4)
              /\ (exists k, e = DbError k)
              /\ opened_for (accounts w) payer payee cur (accounts w4)).
  { intros w3 Ha3.
    destruct (updateBalances_overdraft env payer payee (req_amount req) cur
                w3 Hpayer) as (e & w4 & Hrun & Hk & _ & Hop).
    - rewrite Ha3. unfold balance_or_zero, balanceOf in Hlow.
      destruct (row_balance (accounts w) payer cur); exact Hlow.
    - exists e, w4. rewrite Ha3 in Hop. now repeat split. }
  destruct (req_paymentMethod req) as [method|] eqn:Epm.
  2:{ rewrite (bind_ok _ _ _ _ _ (eq_refl : ret None wc = (Ok None, wc))).
      destruct (Hshift wc Hacc) as (e & w4 & Hrun & (k & ->) & Hop).
      rewrite (bind_throw _ _ _ _ _ Hrun). simpl.
      eexists _, _. split; [reflexivity|]. split; [exact Hop|].
      split; [right; split; [reflexivity|right; now exists k]|].
      intros _ _. split; [reflexivity|now exists k]. }
  assert (Hreq : PaymentService.requiresPaymentProcessing payer payee = true).
  { unfold PaymentService.requiresPaymentProcessing.
    destruct (String.eqb_spec payer SELF_ENTITY); [contradiction|].
    now destruct (payee =? SELF_ENTITY)%string. }
  rewrite Hreq. rewrite !bind_assoc.
  pose proof (updateTransactionStatus_on_appended env (transactions w) tid t
                processing wc Hfresh Htx eq_refl) as Hs1.
  cbv zeta in Hs1.
  match type of Hs1 with
  | _ = (Ok ?x, ?y) => set (t2 := x) in *; set (w2 := y) in *
  end.
  rewrite (bind_ok _ _ _ _ _ Hs1). rewrite !bind_assoc.
  destruct (PaymentProcessor.processPayment env (processor cfg)
              (req_amount req) cur method w2) as [[result|e] wp] eqn:Ep;
    destruct (frame_run _ w2 (processPayment_transactions env _ _ _ _)
                (processPayment_accounts env _ _ _ _) _ _ Ep) as [Htp Hap];
    assert (Htp' : transactions wp = (transactions w ++ [t2])%list)
      by (rewrite Htp; reflexivity);
    assert (Hap' : accounts wp = accounts w)
      by (rewrite Hap; exact Hacc).
  2:{ rewrite (bind_throw _ _ _ _ _ Ep). simpl.
      eexists _, _. split; [reflexivity|]. rewrite Hap'.
      split; [exact Hsame|].
      split; [right; split; [reflexivity|now left]|discriminate]. }
  rewrite (bind_ok _ _ _ _ _ Ep).
  destruct (charge_success result); cbn [negb]; rewrite !bind_assoc.
  - rewrite (bind_ok _ _ _ _ _
               (updateTransaction_on_appended env (transactions w) tid
                  t2 _ wp Hfresh Htp' eq_refl)).
    match goal with
    | |- context [set_transactions ?l wp] =>
        set (w3 := set_transactions l wp) in *
    end.
    rewrite (bind_ok _ _ _ _ _ (eq_refl : ret None w3 = (Ok None, w3))).
    destruct (Hshift w3 Hap') as (e & w4 & Hrun & (k & ->) & Hop).
    rewrite (bind_throw _ _ _ _ _ Hrun). simpl.
    eexists _, _. split; [reflexivity|]. split; [exact Hop|].
    split; [right; split; [reflexivity|right; now exists k]|discriminate].
  - rewrite (bind_ok _ _ _ _ _
               (updateTransactionStatus_on_appended env (transactions w) tid
                  t2 failed wp Hfresh Htp' eq_refl)).
    simpl. eexists _, _. split; [reflexivity|]. rewrite Hap'.
    split; [exact Hsame|].
    split; [left; repeat split; discriminate|discriminate].
Qed.

(** ** A refund that the processor fails *)

(** Outside test mode the refund of Stripe, PayPal and Square throws: the
    [switch] of [processRefund] returns the promise of the provider method
    without awaiting it, so its [catch] does not turn the rejection into an
    answer with [success: false]. *)
Lemma processRefund_throws pc r a c w :
  provider pc = stripe \/ provider pc = paypal \/ provider pc = square ->
  truthy_bool (testMode pc) = false ->
  exists msg,
    PaymentProcessor.processRefund pc r a c w
    = (Throw (JsError msg), log_call (RefundCall r a c) w)
    /\ In msg ["Stripe refund not yet implemented";
               "PayPal refund not yet implemented";
               "Square refund not yet implemented"].
Proof.
  intros Hp Ht.
  unfold PaymentProcessor.processRefund, PaymentProcessor.processStripeRefund,
    PaymentProcessor.processPayPalRefund,
    PaymentProcessor.processSquareRefund,
    PaymentProcessor.test_mode_refund, returned_without_await, bind, get,
    put, ret, throw.
  simpl. rewrite Ht.
  destruct Hp as [-> |[-> | ->]]; eexists; (split; [reflexivity|]);
    simpl; auto.
Qed.

(** C8 fails on the code.  For a refund of a completed original that
    carries a processor reference, with refunds enabled and the refund row
    [rt] created, let the processor be Stripe, PayPal or Square outside test
    mode, where the gateway refund fails: the processor's refund returns no
    answer, it throws.  [processRefund] then returns the code REFUND_ERROR,
    not REFUND_FAILED, with the provider's message, and the refund row is
    stored as it was created, with status 'processing', not 'failed'.  The
    accounts are as they were, the original is stored as before, status
    'completed' included, and the refund call was made. *)
Theorem thrown_gateway_refund_leaves_refund_open env cfg rreq w orig
    reference rt wc :
  truthy_bool (refundsEnabled cfg) = true ->
  find_tx w (transactionId rreq) = Some orig ->
  Transaction.status orig = completed ->
  Transaction.processorReference orig = Some reference ->
  reference <> "" ->
  LedgerManager.createTransaction env
    (PaymentService.refund_data rreq orig) w = (Ok rt, wc) ->
  provider (processor cfg) = stripe \/ provider (processor cfg) = paypal
  \/ provider (processor cfg) = square ->
  truthy_bool (testMode (processor cfg)) = false ->
  let run := PaymentService.processRefund env cfg rreq w in
  let amount := PaymentService.refundAmount rreq orig in
  (forall w0 result wp,
      PaymentProcessor.processRefund (processor cfg) reference amount
        (Transaction.currency orig) w0 <> (Ok result, wp))
  /\ (exists msg,
         fst run = Ok (PaymentService.failure "REFUND_ERROR" msg)
         /\ In msg ["Stripe refund not yet implemented";
                    "PayPal refund not yet implemented";
                    "Square refund not yet implemented"])
  /\ (forall msg,
         fst run <> Ok (PaymentService.failure "REFUND_FAILED" msg))
  /\ find_tx (snd run) (Transaction.id rt) = Some rt
  /\ Transaction.status rt = processing
  /\ accounts (snd run) = accounts w
  /\ find_tx (snd run) (transactionId rreq) = Some orig
  /\ gateway_calls (snd run)
     = (gateway_calls w
        ++ [RefundCall reference amount (Transaction.currency orig)])%list.
Proof.
  intros Hen Horig Hst Href Hne Hc Hprov Hmode run amount.
  pose proof (createTransaction_inv env _ w rt wc Hc)
    as (Ht & Hfresh & _ & _ & Hwc).
  assert (Htid : gen_id env (tick w) = Transaction.id rt) by now rewrite Ht.
  rewrite Htid in Hfresh.
  destruct (processRefund_throws (processor cfg) reference amount
              (Transaction.currency orig) wc Hprov Hmode)
    as (msg & Hp & Hmsg).
  split.
  { intros w0 result wp.
    destruct (processRefund_throws (processor cfg) reference amount
                (Transaction.currency orig) w0 Hprov Hmode)
      as (msg0 & Hp0 & _).
    rewrite Hp0. discriminate. }
  assert (Hrun : run = (Ok (PaymentService.failure "REFUND_ERROR" msg),
                        log_call (RefundCall reference amount
                                    (Transaction.currency orig)) wc)).
  { subst run.
    unfold PaymentService.processRefund, try_catch,
      PaymentService.processRefund_body.
    rewrite Hen. cbn [negb].
    rewrite (bind_ok _ _ _ _ _ (getTransaction_run _ w)), Horig.
    rewrite Hst. cbn [TransactionStatus_eqb negb]. cbv zeta.
    rewrite (bind_ok _ _ _ _ _ Hc).
    rewrite Href, (truthy_string_some _ Hne).
    rewrite !bind_assoc. fold amount.
    rewrite (bind_throw _ _ _ _ _ Hp). reflexivity. }
  rewrite Hrun. simpl.
  split; [now exists msg|].
  split; [discriminate|].
  split.
  { rewrite Hwc. unfold find_tx in *. simpl. rewrite find_app, Hfresh. simpl.
    unfold Db.has_id. now rewrite String.eqb_refl. }
  split; [now rewrite Ht|].
  split; [now rewrite Hwc|].
  split.
  { rewrite Hwc. unfold find_tx in *. simpl. now rewrite find_app, Horig. }
  now rewrite Hwc.
Qed.

Lemma thrown_gateway_refund_leaves_refund_open_witness :
  let run := PaymentService.processRefund Scenario.env
               Scenario.config_stripe_live Scenario.refund_request
               Scenario.refund_world in
  let amount := PaymentService.refundAmount Scenario.refund_request
                  Scenario.charged_original in
  (forall w0 result wp,
      PaymentProcessor.processRefund (processor Scenario.config_stripe_live)
        "ch_1" amount (Transaction.currency Scenario.charged_original) w0
      <> (Ok result, wp))
  /\ (exists msg,
         fst run = Ok (PaymentService.failure "REFUND_ERROR" msg)
         /\ In msg ["Stripe refund not yet implemented";
                    "PayPal refund not yet implemented";
                    "Square refund not yet implemented"])
  /\ (forall msg,
         fst run <> Ok (PaymentService.failure "REFUND_FAILED" msg))
  /\ find_tx (snd run) (Transaction.id Scenario.refund_tx)
     = Some Scenario.refund_tx
  /\ Transaction.status Scenario.refund_tx = processing
  /\ accounts (snd run) = accounts Scenario.refund_world
  /\ find_tx (snd run) (transactionId Scenario.refund_request)
     = Some Scenario.charged_original
  /\ gateway_calls (snd run)
     = (gateway_calls Scenario.refund_world
        ++ [RefundCall "ch_1" amount
              (Transaction.currency Scenario.charged_original)])%list.
Proof.
  apply (thrown_gateway_refund_leaves_refund_open Scenario.env
           Scenario.config_stripe_live Scenario.refund_request
           Scenario.refund_world Scenario.charged_original "ch_1"
           Scenario.refund_tx (snd Scenario.refund_created)).
  - reflexivity.
  - reflexivity.
  - reflexivity.
  - reflexivity.
  - discriminate.
  - vm_compute. reflexivity.
  - left. reflexivity.
  - reflexivity.
Defined.

Lemma opened_for_kept rows0 payer payee cur rows :
  opened_for rows0 payer payee cur rows -> balances_kept rows0 rows.
Proof.
  intros H o c b Hb. destruct (H o c) as [Hs|(H0 & _)]; congruence.
Qed.

(** C1, as amended: from a world whose balances are all non-negative, no
    sequence of transfers and refunds ever leaves an account with a balance
    below 0.  A transfer that is no replay and whose amount exceeds the
    balance of a payer other than SELF (a payer without an account holding
    nothing) is rejected: [processTransaction] returns a failure result
    and every balance there was is left unchanged; the accounts table
    differs from what it was at most by accounts with balance 0 opened for
    the payer or the payee where they had none in the currency of the
    transfer.  The code is PAYMENT_FAILED when a payment method was given
    and the charge was declined, and the accounts table is then exactly
    what it was; otherwise the code is TRANSACTION_ERROR, and then the
    accounts table is exactly what it was or the message is the error of
    the store.  For a request that passes [validateTransaction] and carries
    no payment method, the code is TRANSACTION_ERROR and the message is the
    error of the store. *)
Theorem balances_never_negative env cfg w :
  balances_nonneg w ->
  (forall calls, balances_nonneg (after_calls env cfg calls w))
  /\ (forall req,
        req_payerId req <> SELF_ENTITY ->
        balance_or_zero w (req_payerId req) (request_currency cfg req)
        < req_amount req ->
        no_replay req w ->
        let run := PaymentService.processTransaction env cfg req w in
        exists c m,
          fst run = Ok (PaymentService.failure c m)
          /\ balances_kept (accounts w) (accounts (snd run))
          /\ balances_nonneg (snd run)
          /\ opened_for (accounts w) (req_payerId req) (req_payeeId req)
               (request_currency cfg req) (accounts (snd run))
          /\ ((c = "PAYMENT_FAILED" /\ req_paymentMethod req <> None
               /\ accounts (snd run) = accounts w)
              \/ (c = "TRANSACTION_ERROR"
                  /\ (accounts (snd run) = accounts w
                      \/ exists k, m = error_message (DbError k))))
          /\ (fst (PaymentService.validateTransaction cfg req w) = Ok tt ->
              req_paymentMethod req = None ->
              c = "TRANSACTION_ERROR"
              /\ exists k, m = error_message (DbError k))).
Proof.
  intros Hnn. split; [intros calls; now apply after_calls_nonneg|].
  intros req Hpayer Hlow Hnew run.
  assert (Hnn' : balances_nonneg (snd run))
    by (apply keeps_snd; [apply processTransaction_nonneg|exact Hnn]).
  destruct (processTransaction_overdraft env cfg req w Hpayer Hlow Hnew)
    as (c & m & Hrun & Hop & Hcode & Hstore).
  exists c, m. split; [exact Hrun|].
  split; [exact (opened_for_kept _ _ _ _ _ Hop)|].
  split; [exact Hnn'|]. split; [exact Hop|]. split; [exact Hcode|].
  exact Hstore.
Qed.

Lemma balances_never_negative_witness :
  balances_nonneg
    (after_calls Scenario.env Scenario.config
       [Transfer Scenario.overdraft_request; Transfer Scenario.keyed_request;
        Refund (mkRefundRequest "id-03" None None)]
       Scenario.overdraft_world)
  /\ (let req := Scenario.overdraft_request in
      let w := Scenario.overdraft_world in
      let run := PaymentService.processTransaction Scenario.env
                   Scenario.config req w in
      exists c m,
        fst run = Ok (PaymentService.failure c m)
        /\ balances_kept (accounts w) (accounts (snd run))
        /\ balances_nonneg (snd run)
        /\ opened_for (accounts w) (req_payerId req) (req_payeeId req)
             (request_currency Scenario.config req) (accounts (snd run))
        /\ ((c = "PAYMENT_FAILED" /\ req_paymentMethod req <> None
             /\ accounts (snd run) = accounts w)
            \/ (c = "TRANSACTION_ERROR"
                /\ (accounts (snd run) = accounts w
                    \/ exists k, m = error_message (DbError k))))
        /\ (fst (PaymentService.validateTransaction Scenario.config req w)
            = Ok tt ->
            req_paymentMethod req = None ->
            c = "TRANSACTION_ERROR"
            /\ exists k, m = error_message (DbError k))).
Proof.
  assert (Hnn : balances_nonneg Scenario.overdraft_world).
  { unfold balances_nonneg, nonneg_rows. simpl.
    repeat constructor; simpl; lia. }
  destruct (balances_never_negative Scenario.env Scenario.config
              Scenario.overdraft_world Hnn) as [Hseq Hover].
  split; [apply Hseq|].
  apply Hover.
  - discriminate.
  - vm_compute. reflexivity.
  - intros key Hkey. discriminate Hkey.
Defined.



(** X15: [updateTransactionStatus] on an id that is not stored throws
    'Transaction not found' and changes nothing.  On a stored id it returns
    a transaction, and [getTransaction] then reads a row back, such that
    both carry the new status and the id, parties, amount, currency,
    metadata, processor reference and creation time of the stored
    transaction.  When the new status is 'completed' both carry one same
    completion time; otherwise both keep the completion time the
    transaction had, so that a transaction that turns 'refunded' keeps the
    time it was completed.  The accounts and the transactions stored under
    other ids are kept.  Nothing is said of the update time, which the
    store sets on its own. *)
Theorem updateTransactionStatus_round_trip env i s w :
  let run := LedgerManager.updateTransactionStatus env i s w in
  match find_tx w i with
  | None => run = (Throw (JsError "Transaction not found"), w)
  | Some t =>
      exists u x,
        fst run = Ok u
        /\ LedgerManager.getTransaction i (snd run) = (Ok (Some x), snd run)
        /\ (Transaction.status u = s /\ Transaction.status x = s)
        /\ (Transaction.id u = Transaction.id t
            /\ Transaction.id x = Transaction.id t)
        /\ (same_core t u /\ same_core t x)
        /\ (Transaction.processorReference u
            = Transaction.processorReference t
            /\ Transaction.processorReference x
               = Transaction.processorReference t)
        /\ (Transaction.createdAt u = Transaction.createdAt t
            /\ Transaction.createdAt x = Transaction.createdAt t)
        /\ (if TransactionStatus_eqb s completed
            then exists n, Transaction.completedAt u = Some n
                           /\ Transaction.completedAt x = Some n
            else Transaction.completedAt u = Transaction.completedAt t
                 /\ Transaction.completedAt x = Transaction.completedAt t)
        /\ accounts (snd run) = accounts w
        /\ forall j, j <> i -> find_tx (snd run) j = find_tx w j
  end.
Proof.
  intros run. subst run.
  destruct (find_tx w i) as [t|] eqn:Hf.
  - rewrite (updateTransactionStatus_run env i s w t Hf). cbv zeta.
    fold (with_status t s (clock env (tick w))).
    set (u := with_status t s (clock env (tick w))).
    exists u, u.
    split; [reflexivity|]. split.
    { rewrite getTransaction_run. unfold find_tx. simpl snd.
      cbn [transactions set_transactions].
      rewrite find_rows_after_update. unfold find_tx in Hf. rewrite Hf.
      simpl. unfold Db.has_id.
      rewrite (find_tx_has_id w i t Hf), String.eqb_refl. reflexivity. }
    split; [now split|]. split; [now split|].
    split; [split; repeat split|]. split; [now split|].
    split; [now split|].
    split.
    { unfold u, with_status; simpl.
      destruct (TransactionStatus_eqb s completed);
        [now exists (clock env (tick w))|now split]. }
    split; [reflexivity|].
    intros j Hj. unfold find_tx. simpl snd.
    cbn [transactions set_transactions].
    rewrite find_rows_after_update.
    destruct (find (Db.has_id j) (transactions w)) as [x|] eqn:Hx;
      [|reflexivity].
    simpl. apply find_some in Hx as [_ Hx]. unfold Db.has_id in *.
    apply String.eqb_eq in Hx. rewrite Hx.
    destruct (String.eqb_spec j i); [contradiction|reflexivity].
  - unfold LedgerManager.updateTransactionStatus. unfold bind at 1. simpl.
    now rewrite (updateTransaction_missing env i _ w Hf).
Qed.

(** ** Pages of a listing *)

Lemma created_at_injective (rows : list Transaction.t) x y :
  NoDup (map Transaction.createdAt rows) ->
  In x rows -> In y rows ->
  Transaction.createdAt x = Transaction.createdAt y -> x = y.
Proof.
  induction rows as [|r rows IH]; simpl; intros Hnd Hx Hy Hxy;
    [contradiction|].
  apply NoDup_cons_iff in Hnd as [Hr Hnd].
  destruct Hx as [->|Hx], Hy as [->|Hy].
  - reflexivity.
  - exfalso. apply Hr. rewrite Hxy. now apply in_map.
  - exfalso. apply Hr. rewrite <- Hxy. now apply in_map.
  - now apply IH.
Qed.

(** Rows with pairwise distinct creation times have one listing that is
    newest first. *)
Lemma newest_first_unique (a b : list Transaction.t) :
  NoDup (map Transaction.createdAt a) ->
  Permutation a b -> newest_first a -> newest_first b -> a = b.
Proof.
  unfold newest_first. revert b.
  induction a as [|x a IH]; intros b Hnd Hp Ha Hb.
  - now apply Permutation_nil in Hp.
  - destruct b as [|y b];
      [now apply Permutation_sym, Permutation_nil in Hp|].
    assert (Hxy : x = y).
    { apply (created_at_injective (x :: a)); [exact Hnd|now left| |].
      - apply (Permutation_in y (Permutation_sym Hp)). now left.
      - apply StronglySorted_inv in Ha as [_ Ha].
        apply StronglySorted_inv in Hb as [_ Hb].
        rewrite Forall_forall in Ha, Hb.
        assert (Hx : In x (y :: b))
          by (apply (Permutation_in x Hp); now left).
        assert (Hy : In y (x :: a))
          by (apply (Permutation_in y (Permutation_sym Hp)); now left).
        destruct Hx as [->|Hx]; [reflexivity|].
        destruct Hy as [->|Hy]; [reflexivity|].
        apply Hb in Hx. apply Ha in Hy. lia. }
    subst y. f_equal.
    apply IH.
    + simpl in Hnd. now apply NoDup_cons_iff in Hnd.
    + now apply Permutation_cons_inv in Hp.
    + now apply StronglySorted_inv in Ha.
    + now apply StronglySorted_inv in Hb.
Qed.

(** X20: when the rows selected for an owner were created at pairwise
    distinct times, the query of [getTransactions] has one answer for each
    limit and offset, whichever order the store gives to rows of the same
    age, and [getTransactions] returns it.  Consecutive pages then tile the
    listing: for a positive limit, the page at an offset followed by the
    page at that offset plus the limit is the page of twice the limit at
    that offset, so that paging neither skips nor repeats a row. *)
Theorem getTransactions_pages_tile o st l k w :
  0 < l -> 0 <= k ->
  NoDup (map Transaction.createdAt
           (filter (Db.involves o st) (transactions w))) ->
  (forall l' k' rows,
      0 <= l' -> 0 <= k' ->
      answers_listing o st l' k' w rows ->
      LedgerManager.getTransactions o
        (Some (LedgerManager.mkListOptions st (Some l') (Some k'))) w
      = (Ok rows, w))
  /\ (forall p1 p2 p12,
         answers_listing o st l k w p1 ->
         answers_listing o st l (k + l) w p2 ->
         answers_listing o st (2 * l) k w p12 ->
         p12 = (p1 ++ p2)%list)
  /\ exists p1 p2,
       LedgerManager.getTransactions o
         (Some (LedgerManager.mkListOptions st (Some l) (Some k))) w
       = (Ok p1, w)
       /\ LedgerManager.getTransactions o
            (Some (LedgerManager.mkListOptions st (Some l) (Some (k + l)))) w
          = (Ok p2, w)
       /\ LedgerManager.getTransactions o
            (Some (LedgerManager.mkListOptions st (Some (2 * l)) (Some k))) w
          = (Ok (p1 ++ p2)%list, w)
       /\ answers_listing o st l k w p1
       /\ answers_listing o st l (k + l) w p2.
Proof.
  intros Hl Hk Hnd.
  set (sel := filter (Db.involves o st) (transactions w)) in *.
  set (all := Db.order_by_created_at_desc sel).
  assert (Hone : forall a, Permutation a sel -> newest_first a -> a = all).
  { intros a Hp Ha. apply newest_first_unique.
    - apply (Permutation_NoDup (l := map Transaction.createdAt sel));
        [|exact Hnd].
      apply Permutation_map. now symmetry.
    - rewrite Hp. symmetry. apply order_by_created_at_desc_perm.
    - exact Ha.
    - apply order_by_created_at_desc_sorted. }
  assert (Hpage : forall l' k' rows,
             answers_listing o st l' k' w rows -> rows = page l' k' all).
  { intros l' k' rows (a & Hp & Ha & ->). now rewrite (Hone a Hp Ha). }
  assert (Hsplit : page (2 * l) k all
                   = (page l k all ++ page l (k + l) all)%list).
  { unfold page.
    destruct (Z.eqb_spec l 0); [lia|].
    destruct (Z.eqb_spec (2 * l) 0); [lia|].
    replace (Z.to_nat (2 * l)) with (Z.to_nat l + Z.to_nat l)%nat by lia.
    replace (Z.to_nat (k + l)) with (Z.to_nat k + Z.to_nat l)%nat by lia.
    now rewrite firstn_plus, skipn_plus. }
  assert (Hown : forall l' k', answers_listing o st l' k' w (page l' k' all)).
  { intros l' k'. exists all. split; [|split; [|reflexivity]].
    - apply order_by_created_at_desc_perm.
    - apply order_by_created_at_desc_sorted. }
  split; [|split].
  - intros l' k' rows Hl' Hk' Hrows.
    rewrite (Hpage _ _ _ Hrows). now apply getTransactions_run.
  - intros p1 p2 p12 H1 H2 H12.
    rewrite (Hpage _ _ _ H1), (Hpage _ _ _ H2), (Hpage _ _ _ H12).
    exact Hsplit.
  - exists (page l k all), (page l (k + l) all).
    rewrite <- Hsplit, !getTransactions_run by lia.
    repeat split; apply Hown.
Qed.

Lemma getTransactions_pages_tile_witness :
  (forall l' k' rows,
      0 <= l' -> 0 <= k' ->
      answers_listing "user_1" None l' k' Scenario.history_world rows ->
      LedgerManager.getTransactions "user_1"
        (Some (LedgerManager.mkListOptions None (Some l') (Some k')))
        Scenario.history_world
      = (Ok rows, Scenario.history_world))
  /\ (forall p1 p2 p12,
         answers_listing "user_1" None 1 1 Scenario.history_world p1 ->
         answers_listing "user_1" None 1 (1 + 1) Scenario.history_world p2 ->
         answers_listing "user_1" None (2 * 1) 1 Scenario.history_world p12 ->
         p12 = (p1 ++ p2)%list)
  /\ exists p1 p2,
       LedgerManager.getTransactions "user_1"
         (Some (LedgerManager.mkListOptions None (Some 1) (Some 1)))
         Scenario.history_world
       = (Ok p1, Scenario.history_world)
       /\ LedgerManager.getTransactions "user_1"
            (Some (LedgerManager.mkListOptions None (Some 1) (Some (1 + 1))))
            Scenario.history_world
          = (Ok p2, Scenario.history_world)
       /\ LedgerManager.getTransactions "user_1"
            (Some (LedgerManager.mkListOptions None (Some (2 * 1)) (Some 1)))
            Scenario.history_world
          = (Ok (p1 ++ p2)%list, Scenario.history_world)
       /\ answers_listing "user_1" None 1 1 Scenario.history_world p1
       /\ answers_listing "user_1" None 1 (1 + 1) Scenario.history_world p2.
Proof.
  apply (getTransactions_pages_tile "user_1" None 1 1
           Scenario.history_world).
  - lia.
  - lia.
  - vm_compute. repeat constructor; simpl; intuition discriminate.
Defined.
